(** * Scoreline probability engine of sport_analyzer

    A shallow embedding of the numeric core of the analyzer
    (analyzers/poisson_elo.py, analyzers/dixon_coles.py,
    models/ml_predictor.py and the tail of
    analyzers/match_analyzer.py) in exact real arithmetic: a Python
    float is a real number, [math.log], [np.exp] and [**] are the real
    logarithm, exponential and power, and a NumPy array is a list.
    The one product whose float rounding decides a result, that of
    [confidence_level], is the binary64 product. Python exceptions are
    values of an error type. *)

From Stdlib Require Import String.
From Stdlib Require Import Reals Lra Lia ZArith List Bool.
From Stdlib Require Import Zfloor.
Import ListNotations.
Local Open Scope string_scope.
Local Open Scope R_scope.

(** ** Python numerics *)

Module Py.

(** A computation that may raise: [Raise] carries the exception's name. *)
Inductive exc (A : Type) : Type :=
| Ok (a : A)
| Raise (e : string).
Arguments Ok {A} a.
Arguments Raise {A} e.

Definition bind {A B : Type} (c : exc A) (k : A -> exc B) : exc B :=
  match c with
  | Ok a => k a
  | Raise e => Raise e
  end.

(** [try: c  except Exception: h] *)
Definition try_except {A : Type} (c : exc A) (h : exc A) : exc A :=
  match c with
  | Ok a => Ok a
  | Raise _ => h
  end.

(** [x / y] on Python floats raises ZeroDivisionError when [y == 0]. *)
Definition div (x y : R) : exc R :=
  if Req_dec_T y 0 then Raise "ZeroDivisionError" else Ok (x / y).

(** [x or 1.0]: a float is falsy exactly when it is zero. *)
Definition or_else (x d : R) : R :=
  if Req_dec_T x 0 then d else x.

(** Round half to even, to the nearest integer. *)
Definition round_half_even (x : R) : Z :=
  let f := Zfloor x in
  let d := x - IZR f in
  if Rlt_dec d (1 / 2) then f
  else if Rlt_dec (1 / 2) d then (f + 1)%Z
  else if Z.even f then f else (f + 1)%Z.

(** [round(x, ndigits)] *)
Definition round (x : R) (ndigits : nat) : R :=
  IZR (round_half_even (x * 10 ^ ndigits)) / 10 ^ ndigits.

(** The exponent of the last binary digit that a float keeps of [x]:
    52 below the binary exponent of [x], and -1074 for the subnormal
    numbers. *)
Definition ulp_exponent (x : R) : Z :=
  Z.max (Zfloor (ln (Rabs x) / ln 2) - 52) (-1074).

(** The float (IEEE 754 binary64) nearest to [x], ties to the even
    significand, for a magnitude below 2^1024. *)
Definition float64 (x : R) : R :=
  if Req_dec_T x 0 then 0
  else IZR (round_half_even (x * powerRZ 2 (- ulp_exponent x)))
       * powerRZ 2 (ulp_exponent x).

(** [x * y] on floats, for reals [x] and [y] that stand for the floats
    nearest to them: the exact product of the two floats, rounded to a
    float. *)
Definition fmul (x y : R) : R := float64 (float64 x * float64 y).
(** [np.clip(x, lo, hi)] is [minimum(maximum(x, lo), hi)]. *)
Definition clip (x lo hi : R) : R := Rmin (Rmax x lo) hi.

(** [lst[i]] for a non-negative index. *)
Definition index {A : Type} (l : list A) (i : nat) : exc A :=
  match nth_error l i with
  | Some a => Ok a
  | None => Raise "IndexError"
  end.

(** [lst.index(v)] on a list of integers. *)
Fixpoint index_of (l : list Z) (v : Z) : exc nat :=
  match l with
  | [] => Raise "ValueError"
  | x :: l' =>
      if Z.eqb x v then Ok O
      else bind (index_of l' v) (fun i => Ok (S i))
  end.

(** [v in lst] *)
Definition mem (v : Z) (l : list Z) : bool := existsb (Z.eqb v) l.

(** A dict with string keys and float values; [d.get(k, default)]. *)
Definition Dict : Type := list (string * R).

Fixpoint get (d : Dict) (k : string) (default : R) : R :=
  match d with
  | [] => default
  | (k', v) :: d' => if String.eqb k' k then v else get d' k default
  end.

End Py.

Notation "x <- c ;; k" := (Py.bind c (fun x => k))
  (at level 61, c at next level, right associativity).

(** ** NumPy arrays *)

Module Np.

Definition vector : Type := list R.
Definition matrix : Type := list (list R).

Definition sum (v : vector) : R := fold_right Rplus 0 v.

(** [matrix.sum()] *)
Definition msum (m : matrix) : R := sum (map sum m).

(** [np.outer(u, v)] *)
Definition outer (u v : vector) : matrix :=
  map (fun a => map (fun b => a * b) v) u.

(** [matrix[x, y]] read; the engine only reads cells inside the array. *)
Definition cell (m : matrix) (x y : nat) : R := nth y (nth x m []) 0.

Fixpoint set_nth {A : Type} (l : list A) (i : nat) (f : A -> A) : list A :=
  match l, i with
  | [], _ => []
  | a :: l', O => f a :: l'
  | a :: l', S i' => a :: set_nth l' i' f
  end.

(** [matrix[x, y] = v] *)
Definition set_cell (m : matrix) (x y : nat) (v : R) : matrix :=
  set_nth m x (fun row => set_nth row y (fun _ => v)).

(** [matrix /= total] *)
Definition scale_div (m : matrix) (total : R) : matrix :=
  map (map (fun v => v / total)) m.

(** Sum of the entries of a row whose column index satisfies [P]. *)
Definition row_sum_where (P : nat -> bool) (row : vector) : R :=
  sum (map (fun jv => if P (fst jv) then snd jv else 0)
           (combine (seq 0 (length row)) row)).

(** Sum of the cells [(i, j)] with [P i j]: a boolean mask, the diagonal
    selection and [np.tril] / [np.triu] followed by [.sum()] are all of
    this form. *)
Definition sum_where (P : nat -> nat -> bool) (m : matrix) : R :=
  sum (map (fun ir => row_sum_where (P (fst ir)) (snd ir))
           (combine (seq 0 (length m)) m)).

(** [matrix[indices, indices].sum()] *)
Definition diag_sum (m : matrix) : R := sum_where Nat.eqb m.

(** [np.tril(matrix, k=-1).sum()]: cells with [i > j]. *)
Definition tril_sum (m : matrix) : R := sum_where (fun i j => Nat.ltb j i) m.

(** [np.triu(matrix, k=1).sum()]: cells with [i < j]. *)
Definition triu_sum (m : matrix) : R := sum_where (fun i j => Nat.ltb i j) m.

(** [matrix[0, :].sum()] and [matrix[:, 0].sum()] *)
Definition row0_sum (m : matrix) : R := sum (nth 0%nat m []).
Definition col0_sum (m : matrix) : R := sum (map (fun row => nth 0%nat row 0) m).

End Np.

(** ** entities/base.py *)

(** The fields of [WeatherData] and [TeamStats] that the engine reads. *)
Record WeatherData : Type := {
  impact_score : R
}.

Record TeamStats : Type := {
  elo : R;
  form_score : R;
  avg_goals_scored : R;
  avg_goals_conceded : R
}.

(** The dataclass defaults. *)
Definition default_weather : WeatherData := {| impact_score := 0.0 |}.

Definition default_team : TeamStats :=
  {| elo := 1500.0; form_score := 50.0;
     avg_goals_scored := 1.4; avg_goals_conceded := 1.4 |}.

(** ** analyzers/poisson_elo.py *)

Definition _LEAGUE_AVG_HOME : R := 1.50.
Definition _LEAGUE_AVG_AWAY : R := 1.15.
Definition _HOME_FIELD_K : R := 1.10.
Definition _MAX_GOALS : nat := 10.

Record PoissonResult : Type := {
  home_win : R;
  draw : R;
  away_win : R;
  lambda_h : R;
  lambda_a : R;
  total_exp : R;
  both_score : R;
  over_1_5 : R;
  over_2_5 : R;
  over_3_5 : R
}.

(** The three outcomes, named as the keys the source uses. *)
Inductive Outcome : Type := Home_win | Draw | Away_win.

(** [max(items, key=lambda x: x[1])]: the first item whose key is not
    exceeded by a later one; a later item replaces the current best
    only when its key is strictly greater. *)
Fixpoint max_by_key {A : Type} (best : A * R) (rest : list (A * R)) : A * R :=
  match rest with
  | [] => best
  | x :: rest' =>
      if Rlt_dec (snd best) (snd x) then max_by_key x rest'
      else max_by_key best rest'
  end.

Definition best_outcome (r : PoissonResult) : Outcome :=
  fst (max_by_key (Home_win, home_win r)
                  [(Draw, draw r); (Away_win, away_win r)]).

(** [max(a, b, c)] on floats, scanning left to right. *)
Definition max3 (a b c : R) : R :=
  let m := if Rlt_dec a b then b else a in
  if Rlt_dec m c then c else m.

Definition best_prob (r : PoissonResult) : R :=
  max3 (home_win r) (draw r) (away_win r).

(** [log_fact[i] = log_fact[i-1] + math.log(i)], [log_fact[0] = 0]. *)
Fixpoint log_fact (i : nat) : R :=
  match i with
  | O => 0
  | S j => log_fact j + ln (INR (S j))
  end.

Definition _pmf_array (lam : R) (max_k : nat) : Np.vector :=
  let lam := Rmax lam 1e-9 in
  map (fun k => exp (INR k * ln lam - lam - log_fact k))
      (seq 0 (max_k + 1)).

Definition _calc_over (matrix : Np.matrix) (threshold : R) : R :=
  Py.clip
    (Np.sum_where
       (fun i j => if Rlt_dec threshold (INR (i + j)) then true else false)
       matrix)
    0.0 1.0.

Definition _calc_both_score (matrix : Np.matrix) : R :=
  let p_home_0 := Np.row0_sum matrix in
  let p_away_0 := Np.col0_sum matrix in
  let p_both_0 := Np.cell matrix 0 0 in
  Rmax 0.0 (1.0 - p_home_0 - p_away_0 + p_both_0).

(** [10 ** x] is [Rpower 10 x]. *)
Definition _elo_expected_home (elo_h elo_a : R) : R :=
  1.0 / (1.0 + Rpower 10 ((elo_a - elo_h - 100) / 400)).

Definition _weather_home_factor (weather : WeatherData) : R :=
  let reduction := (impact_score weather / 100.0) * (_HOME_FIELD_K - 1.0) in
  Rmax 1.0 (_HOME_FIELD_K - reduction).

Definition _form_adjustment (form_score : R) : R :=
  1.0 + (form_score - 50.0) / 500.0.

(** Lines 85-103 of [calculate_poisson]: the two rates after the clip. *)
Definition clipped_rates (home away : TeamStats) (weather : WeatherData)
    (neutral_field : bool) : R * R :=
  let home_field := if neutral_field then 1.0 else _weather_home_factor weather in
  let elo_exp := _elo_expected_home (elo home) (elo away) in
  let elo_adj := 1.0 + (elo_exp - 0.5) * 0.30 in
  let form_adj_h := _form_adjustment (form_score home) in
  let form_adj_a := _form_adjustment (form_score away) in
  let attack_h := Rmax (avg_goals_scored home) 0.3 / _LEAGUE_AVG_HOME in
  let attack_a := Rmax (avg_goals_scored away) 0.3 / _LEAGUE_AVG_AWAY in
  let defense_h := Rmax (avg_goals_conceded home) 0.3 / _LEAGUE_AVG_HOME in
  let defense_a := Rmax (avg_goals_conceded away) 0.3 / _LEAGUE_AVG_AWAY in
  let lambda_h :=
    Py.clip (_LEAGUE_AVG_HOME * attack_h * defense_a * home_field * elo_adj * form_adj_h)
            0.3 6.0 in
  let lambda_a :=
    Py.clip (_LEAGUE_AVG_AWAY * attack_a * defense_h / home_field / elo_adj * form_adj_a)
            0.3 6.0 in
  (lambda_h, lambda_a).

(** Lines 105-113: the head-to-head block, which runs after the clip. *)
Definition h2h_nudge (h2h : Py.Dict) (lam : R * R) : R * R :=
  let '(lambda_h, lambda_a) := lam in
  if Rle_dec 3 (Py.get h2h "matches" 0) then
    let rate := Py.get h2h "home_win_pct" 50 / 100.0 in
    let blend := 0.12 in
    if Rlt_dec 0.55 rate then
      (lambda_h * (1 + blend), lambda_a * (1 - blend * 0.5))
    else if Rlt_dec rate 0.35 then
      (lambda_h * (1 - blend), lambda_a * (1 + blend * 0.5))
    else (lambda_h, lambda_a)
  else (lambda_h, lambda_a).

(** The rates from which the matrix is built (the values of the local
    variables [lambda_h], [lambda_a] at line 115). *)
Definition poisson_rates (home away : TeamStats) (weather : WeatherData)
    (h2h : Py.Dict) (neutral_field : bool) : R * R :=
  h2h_nudge h2h (clipped_rates home away weather neutral_field).

(** Lines 119-129 of [calculate_poisson] and 280-289 of
    [_apply_dc_correction] are the same code: the three outcome sums,
    the guarded total and the rounded quotients. *)
Definition outcome_triple (matrix : Np.matrix) : Py.exc (R * R * R) :=
  let p_draw := Np.diag_sum matrix in
  let p_home := Np.tril_sum matrix in
  let p_away := Np.triu_sum matrix in
  let total := Py.or_else (p_home + p_draw + p_away) 1.0 in
  qh <- Py.div p_home total ;;
  qd <- Py.div p_draw total ;;
  qa <- Py.div p_away total ;;
  Py.Ok (Py.round qh 4, Py.round qd 4, Py.round qa 4).

Definition calculate_poisson (home away : TeamStats) (weather : WeatherData)
    (h2h : Py.Dict) (neutral_field : bool) : Py.exc PoissonResult :=
  let '(lambda_h, lambda_a) := poisson_rates home away weather h2h neutral_field in
  let pmf_h := _pmf_array lambda_h _MAX_GOALS in
  let pmf_a := _pmf_array lambda_a _MAX_GOALS in
  let matrix := Np.outer pmf_h pmf_a in
  t <- outcome_triple matrix ;;
  let '(hw, d, aw) := t in
  Py.Ok {| home_win := hw;
           draw := d;
           away_win := aw;
           lambda_h := Py.round lambda_h 2;
           lambda_a := Py.round lambda_a 2;
           total_exp := Py.round (lambda_h + lambda_a) 2;
           both_score := Py.round (_calc_both_score matrix) 4;
           over_1_5 := Py.round (_calc_over matrix 1.5) 4;
           over_2_5 := Py.round (_calc_over matrix 2.5) 4;
           over_3_5 := Py.round (_calc_over matrix 3.5) 4 |}.

(** The three labels of [confidence_level]; the source renders them as
    the Russian words for high, medium and low, each after a coloured
    circle. *)
Inductive ConfidenceLabel : Type := High | Medium | Low.

(** [best_prob] is a four-decimal value, so [best_prob * 100] falls on
    a tie of the one-decimal grid in one case out of ten, and there the
    float product decides which way [round] goes: the product is the
    float product [Py.fmul]. [round] returns the float nearest to the
    one-decimal value, which compares with 60 and 48 as that value
    does. *)
Definition confidence_level (result : PoissonResult) : R * ConfidenceLabel :=
  let pct := Py.round (Py.fmul (best_prob result) 100) 1 in
  let label :=
    if Rle_dec 60 pct then High
    else if Rle_dec 48 pct then Medium
    else Low in
  (pct, label).

(** ** analyzers/dixon_coles.py *)

Definition _tau (x y : nat) (lam_h lam_a rho : R) : R :=
  if Nat.eqb x 0 && Nat.eqb y 0 then 1 - lam_h * lam_a * rho
  else if Nat.eqb x 0 && Nat.eqb y 1 then 1 + lam_h * rho
  else if Nat.eqb x 1 && Nat.eqb y 0 then 1 + lam_a * rho
  else if Nat.eqb x 1 && Nat.eqb y 1 then 1 - rho
  else 1.0.

(** The two nested [for] loops of [build_dc_matrix] (lines 46-50),
    updating the matrix in place cell by cell. *)
Definition tau_loop (lambda_h lambda_a : R) (max_goals : nat) (rho : R)
    (matrix : Np.matrix) : Np.matrix :=
  let rng := seq 0 (Nat.min 2 (max_goals + 1)) in
  fold_left
    (fun m x =>
       fold_left
         (fun m y =>
            let corr := _tau x y lambda_h lambda_a rho in
            Np.set_cell m x y (Rmax 0.0 (Np.cell m x y * corr)))
         rng m)
    rng matrix.

Definition build_dc_matrix (lambda_h lambda_a : R) (max_goals : nat) (rho : R)
    : Np.matrix :=
  let pmf_h := _pmf_array lambda_h max_goals in
  let pmf_a := _pmf_array lambda_a max_goals in
  let matrix := Np.outer pmf_h pmf_a in
  let matrix := tau_loop lambda_h lambda_a max_goals rho matrix in
  let total := Np.msum matrix in
  if Rlt_dec 0 total then Np.scale_div matrix total else matrix.

(** ** models/ml_predictor.py *)

Definition build_features (lambda_h lambda_a elo_home elo_away form_home form_away : R)
    (xg_home xg_away : Py.Dict) (weather : WeatherData) (h2h : Py.Dict)
    (fatigue_home fatigue_away match_importance : R) : list R :=
  let elo_diff := elo_home - elo_away in
  let form_diff := form_home - form_away in
  [ lambda_h;
    lambda_a;
    lambda_h - lambda_a;
    lambda_h / Rmax lambda_a 0.1;
    elo_home / 1500.0;
    elo_away / 1500.0;
    elo_diff / 400.0;
    form_home / 100.0;
    form_away / 100.0;
    form_diff / 100.0;
    Py.get xg_home "xg_for" 1.35;
    Py.get xg_home "xg_against" 1.35;
    Py.get xg_home "xg_diff" 0.0;
    Py.get xg_away "xg_for" 1.35;
    Py.get xg_away "xg_against" 1.35;
    Py.get xg_away "xg_diff" 0.0;
    Py.get xg_home "xg_for" 1.35 - Py.get xg_away "xg_for" 1.35;
    impact_score weather / 100.0;
    Py.get h2h "home_win_pct" 33.3 / 100.0;
    Py.get h2h "draw_pct" 33.3 / 100.0;
    Py.get h2h "matches" 0.0 / 50.0;
    fatigue_home;
    fatigue_away;
    fatigue_home - fatigue_away;
    match_importance ].

(** The pickled estimator and scaler are foreign objects: a call of one
    of their methods returns an array or raises. [classes_] is [None]
    when the estimator lacks the attribute. *)
Record Estimator : Type := {
  predict_proba : list (list R) -> Py.exc (list (list R));
  classes_ : option (list Z)
}.

Record Scaler : Type := {
  transform : list (list R) -> Py.exc (list (list R))
}.

(** [bundle["model"]] is [None] here when the stored object has no
    [predict_proba] method. *)
Record Bundle : Type := {
  model : option Estimator;
  scaler : option Scaler
}.

Record MatchPredictor : Type := {
  bundle : option Bundle;
  is_trained : bool
}.

(** [float(probs[classes.index(c)]) if c in classes else 0.33] *)
Definition class_prob (probs : list R) (classes : list Z) (c : Z) : Py.exc R :=
  if Py.mem c classes then
    i <- Py.index_of classes c ;;
    Py.index probs i
  else Py.Ok 0.33.

(** The body of the [try] block of [predict]. The returned dict also
    holds the entry ["source": "ml"], a string that the engine never
    reads; only the three probabilities are kept here. *)
Definition predict_body (b : Bundle) (features : list R) : Py.exc (option Py.Dict) :=
  let X := [features] in
  X <- match scaler b with
       | Some s => transform s X
       | None => Py.Ok X
       end ;;
  mdl <- match model b with
         | Some m => Py.Ok m
         | None => Py.Raise "AttributeError"
         end ;;
  all_probs <- predict_proba mdl X ;;
  probs <- Py.index all_probs 0 ;;
  let classes := match classes_ mdl with
                 | Some c => c
                 | None => [0; 1; 2]%Z
                 end in
  away <- class_prob probs classes 0 ;;
  drw <- class_prob probs classes 1 ;;
  home <- class_prob probs classes 2 ;;
  Py.Ok (Some [("away_win", away); ("draw", drw); ("home_win", home)]).

Definition predict (self : MatchPredictor) (features : list R)
    : Py.exc (option Py.Dict) :=
  match bundle self with
  | Some b =>
      if negb (is_trained self) then Py.Ok None
      else Py.try_except (predict_body b features) (Py.Ok None)
  | None => Py.Ok None
  end.

(** ** analyzers/match_analyzer.py *)

Definition _apply_dc_correction (poisson : PoissonResult) (dc_matrix : Np.matrix)
    : Py.exc PoissonResult :=
  t <- outcome_triple dc_matrix ;;
  let '(hw, d, aw) := t in
  Py.Ok {| home_win := hw;
           draw := d;
           away_win := aw;
           lambda_h := lambda_h poisson;
           lambda_a := lambda_a poisson;
           total_exp := total_exp poisson;
           both_score := Py.round (_calc_both_score dc_matrix) 4;
           over_1_5 := Py.round (_calc_over dc_matrix 1.5) 4;
           over_2_5 := Py.round (_calc_over dc_matrix 2.5) 4;
           over_3_5 := Py.round (_calc_over dc_matrix 3.5) 4 |}.

(** The dict returned by [_ensemble]. *)
Record FinalProbs : Type := {
  final_home_win : R;
  final_draw : R;
  final_away_win : R;
  source : string
}.

Definition _ensemble (poisson : PoissonResult) (ml_probs : option Py.Dict)
    : Py.exc FinalProbs :=
  match ml_probs with
  | None =>
      Py.Ok {| final_home_win := home_win poisson;
               final_draw := draw poisson;
               final_away_win := away_win poisson;
               source := "poisson+dc" |}
  | Some ml =>
      let w_p := 0.70 in
      let w_m := 0.30 in
      let home := w_p * home_win poisson + w_m * Py.get ml "home_win" 0.33 in
      let drw := w_p * draw poisson + w_m * Py.get ml "draw" 0.33 in
      let away := w_p * away_win poisson + w_m * Py.get ml "away_win" 0.33 in
      let tot := Py.or_else (home + drw + away) 1.0 in
      qh <- Py.div home tot ;;
      qd <- Py.div drw tot ;;
      qa <- Py.div away tot ;;
      Py.Ok {| final_home_win := Py.round qh 4;
               final_draw := Py.round qd 4;
               final_away_win := Py.round qa 4;
               source := "poisson+dc+ml" |}
  end.

(** What [analyze_match] returns of the engine's results. *)
Record Analysis : Type := {
  poisson_of : PoissonResult;
  final_probs : FinalProbs;
  ml_used : bool;
  confidence : R;
  confidence_label : ConfidenceLabel
}.

(** Lines 101-129 of [analyze_match]: from the adjusted team statistics
    to the final probabilities and the confidence. The collectors that
    produce the arguments are outside the engine. *)
Definition analyze_match (ml : MatchPredictor) (home_stats away_stats : TeamStats)
    (weather_data : WeatherData) (h2h : Py.Dict) (neutral_field : bool)
    (xg_home xg_away : Py.Dict) (fatigue_home fatigue_away importance : R)
    : Py.exc Analysis :=
  poisson <- calculate_poisson home_stats away_stats weather_data h2h neutral_field ;;
  let dc_matrix := build_dc_matrix (lambda_h poisson) (lambda_a poisson) 10 (-0.13) in
  poisson <- _apply_dc_correction poisson dc_matrix ;;
  ml_probs <-
    (if is_trained ml then
       let feats :=
         build_features (lambda_h poisson) (lambda_a poisson)
           (elo home_stats) (elo away_stats)
           (form_score home_stats) (form_score away_stats)
           xg_home xg_away weather_data h2h
           fatigue_home fatigue_away importance in
       predict ml feats
     else Py.Ok None) ;;
  final <- _ensemble poisson ml_probs ;;
  let '(conf, conf_lbl) := confidence_level poisson in
  Py.Ok {| poisson_of := poisson;
           final_probs := final;
           ml_used := match ml_probs with Some _ => true | None => false end;
           confidence := conf;
           confidence_label := conf_lbl |}.

(** ** entities/base.py: the weather impact score *)

(** The readings from which [WeatherData._calc_impact] computes
    [impact_score]. *)
Record WeatherReadings : Type := {
  temperature : R;
  precipitation : R;
  wind_speed : R
}.

Definition _calc_impact (self : WeatherReadings) : R :=
  let score := 0.0 in
  let score :=
    if Rlt_dec (temperature self) 0 then score + 20
    else if Rlt_dec (temperature self) 5 then score + 10
    else if Rlt_dec 35 (temperature self) then score + 15
    else if Rlt_dec 30 (temperature self) then score + 8
    else score in
  let score :=
    if Rlt_dec 5 (precipitation self) then score + 25
    else if Rlt_dec 2 (precipitation self) then score + 15
    else if Rlt_dec 0.5 (precipitation self) then score + 8
    else score in
  let score :=
    if Rlt_dec 50 (wind_speed self) then score + 20
    else if Rlt_dec 30 (wind_speed self) then score + 12
    else if Rlt_dec 20 (wind_speed self) then score + 6
    else score in
  Rmin score 100.0.

(** [obj.impact_score = obj._calc_impact()] in the two constructors. *)
Definition weather_of_readings (r : WeatherReadings) : WeatherData :=
  {| impact_score := _calc_impact r |}.

(** ** analyzers/fatigue.py *)

(** A recent match as [calculate_fatigue] reads it: [match_day] is the
    day number of the parsed ["date"], or [None] when [strptime] raises
    (the loop then continues); [played_away] is the truth value of
    [m.get("is_away", False)]. *)
Record RecentMatch : Type := {
  match_day : option Z;
  played_away : bool
}.

(** One iteration of the loop over [recent_matches]; [ref_day] is the
    day number of [ref_date], so that [(ref_date - match_date).days] is
    [ref_day - d]. *)
Definition fatigue_step (ref_day : Z) (total : R) (m : RecentMatch) : R :=
  match match_day m with
  | None => total
  | Some d =>
      let days_ago := (ref_day - d)%Z in
      if (days_ago <? 0)%Z || (30 <? days_ago)%Z then total
      else
        let base := 1.0 * (if played_away m then 1.3 else 1.0) in
        total + base * exp (- IZR days_ago / 7.0)
  end.

Definition calculate_fatigue (recent_matches : list RecentMatch) (ref_day : Z) : R :=
  match recent_matches with
  | [] => 0.0
  | _ =>
      let total := fold_left (fatigue_step ref_day) recent_matches 0.0 in
      let normalized := total / 5.0 in
      Rmin (Rmax normalized 0.0) 1.0
  end.

Definition fatigue_to_lambda_factor (fatigue : R) : R :=
  let f := Rmin (Rmax fatigue 0.0) 1.0 in
  1.0 - f * 0.08.

Definition fatigue_to_concede_factor (fatigue : R) : R :=
  let f := Rmin (Rmax fatigue 0.0) 1.0 in
  1.0 + f * 0.10.

(** ** collectors/sports_collector.py: form score and rating update *)

Definition form_weights : list R := [1.0; 0.85; 0.70; 0.55; 0.40].

(** [3 if r == "W" else 1 if r == "D" else 0] *)
Definition result_points (r : string) : R :=
  if String.eqb r "W" then 3 else if String.eqb r "D" then 1 else 0.

(** The loop of [_form_score] over [enumerate(reversed(form))], carrying
    [(score, max_s)]. *)
Definition form_score_step (acc : R * R) (ir : nat * string) : R * R :=
  let w := nth (fst ir) form_weights 0.3 in
  (fst acc + result_points (snd ir) * w, snd acc + 3 * w).

Definition _form_score (form : list string) : R :=
  let acc :=
    fold_left form_score_step
              (combine (seq 0 (length form)) (rev form)) (0.0, 0.0) in
  if Req_dec_T (snd acc) 0 then 50.0
  else Py.round (fst acc / snd acc * 100) 1.

(** Lines 257-268 of [update_elo]: the two ratings that are written to
    the table, from the two ratings read and the score. *)
Definition update_elo (elo_h elo_a : R) (home_goals away_goals : Z) : R * R :=
  let K := 32 in
  let HOME_ADV := 100 in
  let exp_h := 1 / (1 + Rpower 10 ((elo_a - elo_h - HOME_ADV) / 400)) in
  let actual_h :=
    if (away_goals <? home_goals)%Z then 1.0
    else if (home_goals =? away_goals)%Z then 0.5 else 0.0 in
  let new_elo_h := Py.round (elo_h + K * (actual_h - exp_h)) 1 in
  let new_elo_a := Py.round (elo_a + K * ((1 - actual_h) - (1 - exp_h))) 1 in
  (new_elo_h, new_elo_a).

(** ** analyzers/match_analyzer.py: adjustments of the team statistics *)

(** The two flags of [NewsInsight] that [_apply_news_factors] reads. *)
Record NewsInsight : Type := {
  has_injuries : bool;
  has_suspensions : bool
}.

Definition _apply_xg (stats : TeamStats) (xg : Py.Dict) : TeamStats :=
  if Rle_dec 5 (Py.get xg "matches" 0) then
    let blend := 0.6 in
    {| elo := elo stats;
       form_score := form_score stats;
       avg_goals_scored :=
         blend * Py.get xg "xg_for" 1.35 + (1 - blend) * avg_goals_scored stats;
       avg_goals_conceded :=
         blend * Py.get xg "xg_against" 1.35 + (1 - blend) * avg_goals_conceded stats |}
  else stats.

Definition scale_goals (stats : TeamStats) (k_scored k_conceded : R) : TeamStats :=
  {| elo := elo stats;
     form_score := form_score stats;
     avg_goals_scored := avg_goals_scored stats * k_scored;
     avg_goals_conceded := avg_goals_conceded stats * k_conceded |}.

Definition _apply_news_factors (stats : TeamStats) (news : NewsInsight) : TeamStats :=
  let stats := if has_injuries news then scale_goals stats 0.93 1.05 else stats in
  if has_suspensions news then scale_goals stats 0.96 1.03 else stats.

(** Lines 96-99 of [analyze_match] for one side: the two fatigue
    factors applied to the goal averages. *)
Definition apply_fatigue (stats : TeamStats) (fatigue : R) : TeamStats :=
  scale_goals stats (fatigue_to_lambda_factor fatigue)
                    (fatigue_to_concede_factor fatigue).

(** ** models/ml_predictor.py: the training rows *)

(** The outcome class and the two rates of [_match_to_row]. *)
Definition _match_to_row (hg ag : Z) (elo_h elo_a : R) : Z * R * R :=
  let outcome := if (ag <? hg)%Z then 2%Z else if (hg =? ag)%Z then 1%Z else 0%Z in
  let exp_h := 1.0 / (1.0 + Rpower 10 ((elo_a - elo_h - 100.0) / 400.0)) in
  let lambda_h := 1.5 * (1.0 + (exp_h - 0.5) * 0.3) in
  let lambda_a := 1.15 * (1.0 - (exp_h - 0.5) * 0.3) in
  (outcome, lambda_h, lambda_a).

(** ** analyzers/dixon_coles.py: the likelihood of [estimate_rho] *)

(** A historical match after the conversions of [neg_log_likelihood]
    ([int] and [float] of the four fields, a missing or falsy field
    read as 0), with goal counts that are not negative. A match whose
    conversion raises is [None] in the list: the loop skips it, while
    [len] still counts it. *)
Record HistoricalMatch : Type := {
  hist_home_goals : nat;
  hist_away_goals : nat;
  hist_lambda_h : R;
  hist_lambda_a : R
}.

(** The loop of [neg_log_likelihood], which returns [1e9] as soon as a
    factor is not positive. *)
Fixpoint nll_loop (historical_matches : list (option HistoricalMatch))
    (rho total_ll : R) : R :=
  match historical_matches with
  | [] => total_ll
  | None :: rest => nll_loop rest rho total_ll
  | Some m :: rest =>
      let tau := _tau (hist_home_goals m) (hist_away_goals m)
                      (hist_lambda_h m) (hist_lambda_a m) rho in
      if Rle_dec tau 0 then 1e9
      else nll_loop rest rho (total_ll - ln (Rmax tau 1e-10))
  end.

Definition neg_log_likelihood (historical_matches : list (option HistoricalMatch))
    (rho : R) : R :=
  nll_loop historical_matches rho 0.0.

(** [minimize_scalar] is SciPy's: it is [None] when the import fails,
    and otherwise returns [res.x] and [res.success]. *)
Definition estimate_rho (historical_matches : list (option HistoricalMatch))
    (minimize_scalar : option ((R -> R) -> R -> R -> R * bool)) : R :=
  if (length historical_matches <? 50)%nat then -0.13
  else
    match minimize_scalar with
    | None => -0.13
    | Some minimize =>
        let res := minimize (neg_log_likelihood historical_matches) (-0.5) 0.0 in
        if snd res then fst res else -0.13
    end.

(** ** Functions that inspect text *)

(** [needle in hay] on strings. *)
Fixpoint contains (needle hay : string) : bool :=
  String.prefix needle hay ||
  match hay with
  | EmptyString => false
  | String _ hay' => contains needle hay'
  end.

(** [x and ...] on an optional integer: [None] and [0] are falsy. *)
Definition truthy (z : option Z) : bool :=
  match z with
  | Some v => negb (v =? 0)%Z
  | None => false
  end.

Section TextFunctions.

(** [str.lower] and [str.strip] are Python's own, with their Unicode
    tables; the functions below are written over them. *)
Variables lower strip : string -> string.

(** *** analyzers/fatigue.py: match importance *)

Definition get_match_importance (competition : string)
    (match_week total_weeks position_home position_away : option Z) : R :=
  let importance := 1.0 in
  let comp_lower := lower competition in
  let importance :=
    if existsb (fun kw => contains kw comp_lower) ["final"; "playoff"; "play-off"]
    then importance * 1.8
    else if existsb (fun kw => contains kw comp_lower) ["cup"; "кубок"]
    then importance * 1.3
    else importance in
  let importance :=
    match match_week, total_weeks with
    | Some mw, Some tw =>
        if truthy match_week && truthy total_weeks && (0 <? tw)%Z then
          let remaining := (tw - mw)%Z in
          if (remaining <=? 4)%Z then importance * 1.5
          else if (remaining <=? 8)%Z then importance * 1.2
          else importance
        else importance
    | _, _ => importance
    end in
  let importance :=
    match position_home, position_away with
    | Some ph, Some pa =>
        if truthy position_home && truthy position_away then
          let lo := Z.min ph pa in
          let hi := Z.max ph pa in
          let importance :=
            if (lo <=? 4)%Z && (hi <=? 6)%Z then importance * 1.3 else importance in
          if (15 <=? lo)%Z then importance * 1.4 else importance
        else importance
    | _, _ => importance
    end in
  Rmin (Rmax importance 0.5) 2.0.

(** *** analyzers/injury_impact.py *)

Definition KEY_PLAYERS : list (string * list (string * Py.Dict)) :=
  [ ("Manchester City",
     [ ("Haaland", [("attack", 0.42)]);
       ("De Bruyne", [("attack", 0.30)]);
       ("Rodri", [("defense", 0.18)]) ]);
    ("Liverpool",
     [ ("Salah", [("attack", 0.30)]);
       ("Van Dijk", [("defense", 0.22)]) ]);
    ("Real Madrid",
     [ ("Bellingham", [("attack", 0.24)]);
       ("Vinícius", [("attack", 0.28)]) ]) ].

(** [KEY_PLAYERS.get(team_name, {})] *)
Fixpoint known_players (table : list (string * list (string * Py.Dict)))
    (team_name : string) : list (string * Py.Dict) :=
  match table with
  | [] => []
  | (team, players) :: table' =>
      if String.eqb team team_name then players else known_players table' team_name
  end.

Definition nonempty (s : string) : bool :=
  match s with
  | EmptyString => false
  | String _ _ => true
  end.

Definition _match_players (known : list (string * Py.Dict)) (injured : list string)
    : list Py.Dict :=
  let injured_l := map lower (filter nonempty injured) in
  map snd
      (filter (fun entry =>
                 let nl := lower (fst entry) in
                 existsb (fun p => contains nl p || contains p nl) injured_l)
              known).

(** The dict returned by [injury_factors]. *)
Record InjuryFactors : Type := {
  attack : R;
  defense : R;
  matched : nat
}.

Definition injury_factors (team_name : string)
    (injured_players suspended_players : list string)
    (max_attack_penalty max_defense_penalty : R) : InjuryFactors :=
  let injured := filter (fun p => nonempty (strip p)) injured_players in
  let suspended := filter (fun p => nonempty (strip p)) suspended_players in
  let all_absent := (injured ++ suspended)%list in
  let known := known_players KEY_PLAYERS team_name in
  let impacts := _match_players known all_absent in
  let generic_attack := match injured with [] => 0.0 | _ => 0.07 end in
  let generic_defense := match injured with [] => 0.0 | _ => 0.05 end in
  let generic_attack := generic_attack + match suspended with [] => 0.0 | _ => 0.05 end in
  let generic_defense := generic_defense + match suspended with [] => 0.0 | _ => 0.03 end in
  let attack_pen :=
    fold_left (fun pen imp => pen + Py.or_else (Py.get imp "attack" 0.0) 0.0 * 1.2)
              impacts generic_attack in
  let defense_pen :=
    fold_left (fun pen imp => pen + Py.or_else (Py.get imp "defense" 0.0) 0.0 * 1.2)
              impacts generic_defense in
  let attack_pen := Rmin attack_pen max_attack_penalty in
  let defense_pen := Rmin defense_pen max_defense_penalty in
  let attack_factor := Rmax 0.65 (1.0 - attack_pen) in
  let defense_factor := 1.0 + defense_pen in
  {| attack := Py.round attack_factor 3;
     defense := Py.round defense_factor 3;
     matched := length impacts |}.

(** Lines 88-93 of [analyze_match] for one side, with the default
    caps. *)
Definition apply_injuries (stats : TeamStats) (team_name : string)
    (injury_players suspended_players : list string) : TeamStats :=
  let ih := injury_factors team_name injury_players suspended_players 0.35 0.25 in
  scale_goals stats (attack ih) (defense ih).

End TextFunctions.

(** Lines 80-99 of [analyze_match] for one side, in the order of the
    source: shot-quality blend, news factors, injury factors, fatigue
    factors. *)
Definition adjust_team_stats (lower strip : string -> string) (stats : TeamStats)
    (xg : Py.Dict) (news : NewsInsight) (team_name : string)
    (injury_players suspended_players : list string) (fatigue : R) : TeamStats :=
  let stats := _apply_xg stats xg in
  let stats := _apply_news_factors stats news in
  let stats := apply_injuries lower strip stats team_name
                 injury_players suspended_players in
  apply_fatigue stats fatigue.

(** ** Vocabulary of the statements *)

(** The factor [_tau] of a converted historical match. *)
Definition match_tau (rho : R) (m : HistoricalMatch) : R :=
  _tau (hist_home_goals m) (hist_away_goals m) (hist_lambda_h m) (hist_lambda_a m) rho.

(** A listed match that the loop of [neg_log_likelihood] reads and
    that satisfies [P]. *)
Definition read_match (P : HistoricalMatch -> Prop) (m : option HistoricalMatch) : Prop :=
  match m with Some m => P m | None => False end.

(** A listed match that is skipped or satisfies [P]. *)
Definition skipped_or (P : HistoricalMatch -> Prop) (m : option HistoricalMatch) : Prop :=
  match m with Some m => P m | None => True end.

(** What a listed match adds to the total of [neg_log_likelihood]
    when its factor is positive. *)
Definition nll_term (rho : R) (m : option HistoricalMatch) : R :=
  match m with
  | Some m => - ln (Rmax (match_tau rho m) 1e-10)
  | None => 0
  end.

(** Rates below 2, for which no factor vanishes on the interval
    [-0.5, 0] that [estimate_rho] searches. *)
Definition moderate_rates (m : HistoricalMatch) : Prop :=
  0 <= hist_lambda_h m < 2 /\ 0 <= hist_lambda_a m < 2.

(** A scoreline with at least two goals on one side. *)
Definition high_scoring (m : HistoricalMatch) : Prop :=
  (2 <= hist_home_goals m)%nat \/ (2 <= hist_away_goals m)%nat.

Definition prob_of (r : PoissonResult) (o : Outcome) : R :=
  match o with
  | Home_win => home_win r
  | Draw => draw r
  | Away_win => away_win r
  end.

(** The position of an outcome in the list that [best_outcome] scans. *)
Definition rank (o : Outcome) : nat :=
  match o with
  | Home_win => 0
  | Draw => 1
  | Away_win => 2
  end.

(** A result with the given outcome triple and every other field zero. *)
Definition triple_result (h d a : R) : PoissonResult :=
  {| home_win := h; draw := d; away_win := a;
     lambda_h := 0; lambda_a := 0; total_exp := 0; both_score := 0;
     over_1_5 := 0; over_2_5 := 0; over_3_5 := 0 |}.

Definition nonneg_vector (v : Np.vector) : Prop := Forall (fun x => 0 <= x) v.
Definition nonneg_matrix (m : Np.matrix) : Prop := Forall nonneg_vector m.

(** [p_home + p_draw + p_away], the sum that the aggregator guards. *)
Definition triple_total (m : Np.matrix) : R :=
  Np.tril_sum m + Np.diag_sum m + Np.triu_sum m.

(** The three weighted sums of [_ensemble] before renormalization. *)
Definition blend_home (p : PoissonResult) (ml : Py.Dict) : R :=
  0.70 * home_win p + 0.30 * Py.get ml "home_win" 0.33.
Definition blend_draw (p : PoissonResult) (ml : Py.Dict) : R :=
  0.70 * draw p + 0.30 * Py.get ml "draw" 0.33.
Definition blend_away (p : PoissonResult) (ml : Py.Dict) : R :=
  0.70 * away_win p + 0.30 * Py.get ml "away_win" 0.33.
Definition blend_total (p : PoissonResult) (ml : Py.Dict) : R :=
  blend_home p ml + blend_draw p ml + blend_away p ml.

(** The dict that [predict] builds from a probability triple. *)
Definition ml_dict (home drw away : R) : Py.Dict :=
  [("away_win", away); ("draw", drw); ("home_win", home)].

(** The raw independent-Poisson matrix of [build_dc_matrix] and the
    matrix after the tau loop, before renormalization. *)
Definition raw_matrix (lambda_h lambda_a : R) (max_goals : nat) : Np.matrix :=
  Np.outer (_pmf_array lambda_h max_goals) (_pmf_array lambda_a max_goals).

Definition corrected_matrix (lambda_h lambda_a : R) (max_goals : nat) (rho : R)
    : Np.matrix :=
  tau_loop lambda_h lambda_a max_goals rho (raw_matrix lambda_h lambda_a max_goals).

(** Concrete inputs used in the examples below. *)
Definition zero_matrix : Np.matrix := [[0; 0]; [0; 0]].

Definition thirds_matrix : Np.matrix := [[1 / 3; 1 / 3]; [1 / 3; 0]].

(** An array with a negative cell whose three-way sum is 0, and a
    classifier dict with a negative entry. *)
Definition skew_matrix : Np.matrix := [[0; -1]; [1; 0]].
Definition skew_ml : Py.Dict := [("away_win", -1); ("draw", 0); ("home_win", 1)].

Definition even_result : PoissonResult := triple_result 0.3333 0.3333 0.3334.
Definition even_ml : Py.Dict := ml_dict 0.3334 0.3334 0.3332.

Definition sample_result : PoissonResult := triple_result 0.45 0.27 0.28.
Definition sample_ml : Py.Dict := ml_dict 0.4123 0.3013 0.2864.

(** A high-scoring home side against a leaky away side on a neutral
    field, the away side rated 100 points higher, and a head-to-head
    record of three meetings with a 60% home-win rate. *)
Definition strong_home : TeamStats :=
  {| elo := 1500.0; form_score := 50.0;
     avg_goals_scored := 3.0; avg_goals_conceded := 1.4 |}.

Definition leaky_away : TeamStats :=
  {| elo := 1600.0; form_score := 50.0;
     avg_goals_scored := 1.4; avg_goals_conceded := 3.0 |}.

Definition h2h_home_dominant : Py.Dict :=
  [("matches", 3); ("home_win_pct", 60)].

(** A predictor for which no model file was found. *)
Definition untrained_predictor : MatchPredictor :=
  {| bundle := None; is_trained := false |}.

Definition default_xg : Py.Dict :=
  [("xg_for", 1.35); ("xg_against", 1.35); ("xg_diff", 0.0); ("matches", 0)].

(** Sum of the base triple and of the final triple. *)
Definition base_sum (p : PoissonResult) : R := home_win p + draw p + away_win p.
Definition final_sum (f : FinalProbs) : R :=
  final_home_win f + final_draw f + final_away_win f.

Definition split_result : PoissonResult := triple_result 0.5 0.3 0.2.
Definition split_ml : Py.Dict := ml_dict 0.1 0.1 0.8.

(** [v] is what the classifier's row holds for the class label [c]:
    the entry at the first position of [c] in [classes], or 0.33 when
    [c] is not among the classes. *)
Definition reads_class (row : list R) (classes : list Z) (c : Z) (v : R) : Prop :=
  (~ In c classes /\ v = 0.33) \/
  (exists i, nth_error classes i = Some c /\
             (forall j, (j < i)%nat -> nth_error classes j <> Some c) /\
             nth_error row i = Some v).

(** The array that [predict] hands to the estimator: the feature row,
    transformed by the scaler when the bundle has one. *)
Definition scaled_input (b : Bundle) (features : list R) : Py.exc (list (list R)) :=
  match scaler b with
  | Some s => transform s [features]
  | None => Py.Ok [features]
  end.

(** The class labels in which [predict] looks up 0, 1 and 2. *)
Definition class_list (m : Estimator) : list Z :=
  match classes_ m with
  | Some c => c
  | None => [0; 1; 2]%Z
  end.

(** A trained predictor around an estimator, without a scaler. *)
Definition predictor_of (m : Estimator) : MatchPredictor :=
  {| bundle := Some {| model := Some m; scaler := None |}; is_trained := true |}.

(** Two estimators with an output of the wrong shape: one knows only
    the classes 0 and 2 and answers with two columns, the other
    answers with four columns. *)
Definition two_class_estimator : Estimator :=
  {| predict_proba := fun _ => Py.Ok [[0.6; 0.4]];
     classes_ := Some [0; 2]%Z |}.

Definition wide_estimator : Estimator :=
  {| predict_proba := fun _ => Py.Ok [[0.1; 0.2; 0.3; 0.4]];
     classes_ := None |}.

(** An estimator that lists its classes as 2, 0, 1 and always answers
    with the same row. *)
Definition permuted_estimator : Estimator :=
  {| predict_proba := fun _ => Py.Ok [[0.5; 0.2; 0.3]];
     classes_ := Some [2; 0; 1]%Z |}.

Definition permuted_bundle : Bundle :=
  {| model := Some permuted_estimator; scaler := None |}.

(** A recent match that [calculate_fatigue] skips: its date cannot be
    parsed, or it lies in the future or more than 30 days back. *)
Definition skipped_match (ref_day : Z) (m : RecentMatch) : Prop :=
  match match_day m with
  | None => True
  | Some d => (ref_day - d < 0)%Z \/ (30 < ref_day - d)%Z
  end.

(** * Properties *)

(** ** Rounding, clipping and the guarded division *)

Section PyFacts.

Lemma round_half_even_near (z : Z) (x : R) :
  IZR z - 1 / 2 < x < IZR z + 1 / 2 -> Py.round_half_even x = z.
Proof.
  intros [Hlo Hhi]. unfold Py.round_half_even.
  destruct (Rle_lt_dec (IZR z) x) as [Hge | Hlt].
  - rewrite (Zfloor_eq z x) by lra.
    destruct (Rlt_dec (x - IZR z) (1 / 2)); [reflexivity | lra].
  - assert (Hf : Zfloor x = (z - 1)%Z).
    { apply Zfloor_eq. rewrite minus_IZR. lra. }
    rewrite Hf, minus_IZR.
    destruct (Rlt_dec (x - (IZR z - 1)) (1 / 2)); [lra |].
    destruct (Rlt_dec (1 / 2) (x - (IZR z - 1))); [lia | lra].
Qed.

Lemma round_half_even_bounds (x : R) :
  x - 1 / 2 <= IZR (Py.round_half_even x) <= x + 1 / 2.
Proof.
  unfold Py.round_half_even.
  pose proof (Zfloor_bound x) as [Hlo Hhi].
  destruct (Rlt_dec (x - IZR (Zfloor x)) (1 / 2)) as [H1 | H1]; [lra |].
  destruct (Rlt_dec (1 / 2) (x - IZR (Zfloor x))) as [H2 | H2].
  - rewrite plus_IZR. lra.
  - destruct (Z.even (Zfloor x)); [lra | rewrite plus_IZR; lra].
Qed.

Lemma round_half_even_mono (x y : R) :
  x <= y -> (Py.round_half_even x <= Py.round_half_even y)%Z.
Proof.
  intros Hxy.
  pose proof (Zfloor_le x y Hxy) as Hf.
  pose proof (Zfloor_bound x) as [Hxl Hxh].
  pose proof (Zfloor_bound y) as [Hyl Hyh].
  unfold Py.round_half_even.
  destruct (Z.eq_dec (Zfloor x) (Zfloor y)) as [He | Hne].
  - rewrite He in *.
    destruct (Rlt_dec (x - IZR (Zfloor y)) (1 / 2));
      destruct (Rlt_dec (y - IZR (Zfloor y)) (1 / 2));
      destruct (Rlt_dec (1 / 2) (x - IZR (Zfloor y)));
      destruct (Rlt_dec (1 / 2) (y - IZR (Zfloor y)));
      destruct (Z.even (Zfloor y)); try lia; lra.
  - assert (Hlt : (Zfloor x + 1 <= Zfloor y)%Z) by lia.
    destruct (Rlt_dec (x - IZR (Zfloor x)) (1 / 2));
      destruct (Rlt_dec (y - IZR (Zfloor y)) (1 / 2));
      destruct (Rlt_dec (1 / 2) (x - IZR (Zfloor x)));
      destruct (Rlt_dec (1 / 2) (y - IZR (Zfloor y)));
      destruct (Z.even (Zfloor x)); destruct (Z.even (Zfloor y)); lia.
Qed.

Lemma pow10_pos (n : nat) : 0 < 10 ^ n.
Proof. apply pow_lt. lra. Qed.

Lemma round_eq (x : R) (n : nat) (z : Z) :
  IZR z - 1 / 2 < x * 10 ^ n < IZR z + 1 / 2 ->
  Py.round x n = IZR z / 10 ^ n.
Proof.
  intros H. unfold Py.round. now rewrite (round_half_even_near z).
Qed.

Lemma round_bounds (x : R) (n : nat) :
  x - (1 / 2) / 10 ^ n <= Py.round x n <= x + (1 / 2) / 10 ^ n.
Proof.
  unfold Py.round.
  pose proof (round_half_even_bounds (x * 10 ^ n)) as [Hlo Hhi].
  pose proof (pow10_pos n) as Hp.
  set (p := 10 ^ n) in *.
  set (r := IZR (Py.round_half_even (x * p))) in *.
  assert (Hx : x = x * p / p) by (field; lra).
  split.
  - apply Rle_trans with ((x * p - 1 / 2) / p).
    + right. field. lra.
    + unfold Rdiv. apply Rmult_le_compat_r; [left; now apply Rinv_0_lt_compat | lra].
  - apply Rle_trans with ((x * p + 1 / 2) / p).
    + unfold Rdiv. apply Rmult_le_compat_r; [left; now apply Rinv_0_lt_compat | lra].
    + right. field. lra.
Qed.

Lemma round_mono (x y : R) (n : nat) :
  x <= y -> Py.round x n <= Py.round y n.
Proof.
  intros Hxy. unfold Py.round.
  pose proof (pow10_pos n) as Hp.
  unfold Rdiv. apply Rmult_le_compat_r; [left; now apply Rinv_0_lt_compat |].
  apply IZR_le, round_half_even_mono.
  apply Rmult_le_compat_r; lra.
Qed.

Lemma clip_bounds (x lo hi : R) : lo <= hi -> lo <= Py.clip x lo hi <= hi.
Proof.
  intros H. unfold Py.clip, Rmin, Rmax.
  destruct (Rle_dec x lo); destruct (Rle_dec _ hi); lra.
Qed.

Lemma or_else_nonzero (x d : R) : d <> 0 -> Py.or_else x d <> 0.
Proof.
  intros Hd. unfold Py.or_else. now destruct (Req_dec_T x 0).
Qed.

Lemma div_ok (x y : R) : y <> 0 -> Py.div x y = Py.Ok (x / y).
Proof.
  intros Hy. unfold Py.div. now destruct (Req_dec_T y 0).
Qed.

Lemma Rabs_le_bounds (a b : R) : Rabs a <= b -> - b <= a <= b.
Proof.
  unfold Rabs. destruct (Rcase_abs a); lra.
Qed.

End PyFacts.

(** ** The float product *)

Section FloatFacts.

Lemma ln2_pos : 0 < ln 2.
Proof. rewrite <- ln_1. apply ln_increasing; lra. Qed.

Lemma pow2_exp (n : Z) : powerRZ 2 n = exp (IZR n * ln 2).
Proof. rewrite powerRZ_Rpower by lra. reflexivity. Qed.

Lemma pow2_pos (n : Z) : 0 < powerRZ 2 n.
Proof. apply powerRZ_lt. lra. Qed.

Lemma pow2_lt (m n : Z) : (m < n)%Z -> powerRZ 2 m < powerRZ 2 n.
Proof.
  intros H. rewrite !pow2_exp. apply exp_increasing.
  apply Rmult_lt_compat_r; [apply ln2_pos | now apply IZR_lt].
Qed.

Lemma pow2_le (m n : Z) : (m <= n)%Z -> powerRZ 2 m <= powerRZ 2 n.
Proof.
  intros H. destruct (Z.eq_dec m n) as [-> | Hne]; [lra |].
  left. apply pow2_lt. lia.
Qed.

Lemma pow2_lt_inv (m n : Z) : powerRZ 2 m < powerRZ 2 n -> (m < n)%Z.
Proof.
  intros H. destruct (Z_lt_le_dec m n) as [Hlt | Hge]; [exact Hlt |].
  pose proof (pow2_le n m Hge). lra.
Qed.

Lemma pow2_split (m n : Z) : powerRZ 2 (m + n) = powerRZ 2 m * powerRZ 2 n.
Proof. apply powerRZ_add. lra. Qed.

Lemma pow2_opp (n : Z) : powerRZ 2 (- n) = / powerRZ 2 n.
Proof. apply powerRZ_neg'. Qed.

(** The binary exponent of a non-zero number. *)
Lemma binary_exponent_bounds (x : R) :
  x <> 0 ->
  powerRZ 2 (Zfloor (ln (Rabs x) / ln 2)) <= Rabs x
    < powerRZ 2 (Zfloor (ln (Rabs x) / ln 2) + 1).
Proof.
  intros Hx.
  assert (Ha : 0 < Rabs x) by now apply Rabs_pos_lt.
  pose proof ln2_pos as Hl.
  pose proof (Zfloor_bound (ln (Rabs x) / ln 2)) as [Hlo Hhi].
  set (n := Zfloor (ln (Rabs x) / ln 2)) in *.
  assert (Hq : ln (Rabs x) / ln 2 * ln 2 = ln (Rabs x)) by (field; lra).
  rewrite !pow2_exp, plus_IZR.
  pose proof (exp_ln (Rabs x) Ha) as He.
  split.
  - rewrite <- He. destruct Hlo as [Hlo | Hlo].
    + left. apply exp_increasing. rewrite <- Hq.
      now apply Rmult_lt_compat_r.
    + right. f_equal. rewrite Hlo. exact Hq.
  - rewrite <- He at 1. apply exp_increasing. rewrite <- Hq.
    now apply Rmult_lt_compat_r.
Qed.

Lemma binary_exponent_eq (x : R) (n : Z) :
  powerRZ 2 n <= Rabs x < powerRZ 2 (n + 1) ->
  Zfloor (ln (Rabs x) / ln 2) = n.
Proof.
  intros [Hlo Hhi].
  assert (Hx : x <> 0).
  { intros ->. rewrite Rabs_R0 in Hlo. pose proof (pow2_pos n). lra. }
  destruct (binary_exponent_bounds x Hx) as [Blo Bhi].
  set (k := Zfloor (ln (Rabs x) / ln 2)) in *.
  assert (H1 : (n < k + 1)%Z) by (apply pow2_lt_inv; lra).
  assert (H2 : (k < n + 1)%Z) by (apply pow2_lt_inv; lra).
  lia.
Qed.

(** A number of the normal range whose binary exponent and nearest
    53-bit significand are known. *)
Lemma float64_eval (x : R) (n m : Z) :
  (-1022 <= n)%Z ->
  powerRZ 2 n <= Rabs x < powerRZ 2 (n + 1) ->
  IZR m - 1 / 2 < x * powerRZ 2 (52 - n) < IZR m + 1 / 2 ->
  Py.float64 x = IZR m * powerRZ 2 (n - 52).
Proof.
  intros Hn Hx Hm.
  assert (Hx0 : x <> 0).
  { intros ->. rewrite Rabs_R0 in Hx. pose proof (pow2_pos n). lra. }
  unfold Py.float64, Py.ulp_exponent.
  destruct (Req_dec_T x 0) as [H0 | _]; [contradiction |].
  rewrite (binary_exponent_eq x n Hx).
  replace (Z.max (n - 52) (-1074)) with (n - 52)%Z by lia.
  replace (- (n - 52))%Z with (52 - n)%Z by lia.
  now rewrite (round_half_even_near m).
Qed.

(** Rounding to a float moves a number of the normal range by at most
    2^-53 of its magnitude. *)
Lemma float64_error (x : R) :
  powerRZ 2 (-1022) <= Rabs x ->
  Rabs (Py.float64 x - x) <= Rabs x * powerRZ 2 (-53).
Proof.
  intros Hx.
  assert (Hx0 : x <> 0).
  { intros ->. rewrite Rabs_R0 in Hx. pose proof (pow2_pos (-1022)). lra. }
  destruct (binary_exponent_bounds x Hx0) as [Blo Bhi].
  unfold Py.float64, Py.ulp_exponent.
  destruct (Req_dec_T x 0) as [H0 | _]; [contradiction |].
  set (n := Zfloor (ln (Rabs x) / ln 2)) in *.
  assert (Hn : (-1022 < n + 1)%Z) by (apply pow2_lt_inv; lra).
  replace (Z.max (n - 52) (-1074)) with (n - 52)%Z by lia.
  rewrite pow2_opp.
  pose proof (pow2_pos (n - 52)) as Hs.
  set (s := powerRZ 2 (n - 52)) in *.
  pose proof (round_half_even_bounds (x * / s)) as [Rlo Rhi].
  set (r := IZR (Py.round_half_even (x * / s))) in *.
  assert (Hsn : powerRZ 2 n * powerRZ 2 (-53) = s * / 2).
  { unfold s. replace (n - 52)%Z with (n + -53 + 1)%Z by lia.
    rewrite !pow2_split.
    change (powerRZ 2 1) with (2 * 1). field_simplify.
    - reflexivity. }
  assert (Hd : r * s - x = (r - x * / s) * s) by (field; lra).
  rewrite Hd, Rabs_mult, (Rabs_pos_eq s) by lra.
  apply Rle_trans with (1 / 2 * s).
  - apply Rmult_le_compat_r; [lra |]. apply Rabs_le. lra.
  - pose proof (pow2_pos (-53)) as H53.
    apply Rle_trans with (powerRZ 2 n * powerRZ 2 (-53)); [lra |].
    apply Rmult_le_compat_r; lra.
Qed.

Lemma pow2_IZR (p : positive) : powerRZ 2 (Zpos p) = IZR (2 ^ Zpos p).
Proof.
  cbn [powerRZ]. rewrite pow_IZR. now rewrite positive_nat_Z.
Qed.

Lemma pow2_neg_IZR (p : positive) : powerRZ 2 (Zneg p) = / IZR (2 ^ Zpos p).
Proof.
  change (Zneg p) with (- Zpos p)%Z. now rewrite pow2_opp, pow2_IZR.
Qed.

Ltac pow2_values :=
  repeat match goal with
  | |- context [powerRZ 2 (Zpos ?p)] =>
      rewrite (pow2_IZR p);
      let v := eval vm_compute in (2 ^ Zpos p)%Z in
      change (2 ^ Zpos p)%Z with v
  | |- context [powerRZ 2 (Zneg ?p)] =>
      rewrite (pow2_neg_IZR p);
      let v := eval vm_compute in (2 ^ Zpos p)%Z in
      change (2 ^ Zpos p)%Z with v
  end.

Lemma float64_100 : Py.float64 100 = 100.
Proof.
  rewrite (float64_eval 100 6 7036874417766400).
  - change (6 - 52)%Z with (-46)%Z. pow2_values. lra.
  - lia.
  - rewrite Rabs_pos_eq by lra. change (6 + 1)%Z with 7%Z. pow2_values. lra.
  - change (52 - 6)%Z with 46%Z. pow2_values. lra.
Qed.

(** The float product with 100 of a probability of at least a quarter
    is within 1e-12 of the exact product. *)
Lemma fmul_100_error (x : R) :
  1 / 4 <= x <= 1 -> Rabs (Py.fmul x 100 - x * 100) <= 1 / 10 ^ 12.
Proof.
  intros [Hlo Hhi]. unfold Py.fmul. rewrite float64_100.
  assert (Heps : powerRZ 2 (-53) <= 2 / 10 ^ 16) by (pow2_values; lra).
  assert (Hmin : powerRZ 2 (-1022) <= 1 / 4).
  { apply Rle_trans with (powerRZ 2 (-2)); [apply pow2_le; lia |].
    pow2_values. lra. }
  pose proof (pow2_pos (-53)) as Hp.
  assert (Ha : Rabs (Py.float64 x - x) <= Rabs x * powerRZ 2 (-53)).
  { apply float64_error. rewrite Rabs_pos_eq; lra. }
  rewrite (Rabs_pos_eq x) in Ha by lra.
  apply Rabs_le_bounds in Ha.
  assert (Ha' : - (2 / 10 ^ 16) <= Py.float64 x - x <= 2 / 10 ^ 16).
  { split; [apply Rle_trans with (- (x * powerRZ 2 (-53))) | apply Rle_trans with (x * powerRZ 2 (-53))];
      try lra; nra. }
  set (a := Py.float64 x) in *.
  assert (Hb : Rabs (Py.float64 (a * 100) - a * 100) <= Rabs (a * 100) * powerRZ 2 (-53)).
  { apply float64_error. rewrite Rabs_pos_eq; lra. }
  rewrite (Rabs_pos_eq (a * 100)) in Hb by lra.
  apply Rabs_le_bounds in Hb.
  assert (Hb' : - (101 * (2 / 10 ^ 16)) <= Py.float64 (a * 100) - a * 100
                <= 101 * (2 / 10 ^ 16)).
  { assert (Hab : a * 100 * powerRZ 2 (-53) <= 101 * (2 / 10 ^ 16)).
    { apply Rmult_le_compat; lra. }
    lra. }
  apply Rabs_le. lra.
Qed.

(** An exact tie on the decimal grid: 0.4795 x 100 is 47.95 in exact
    arithmetic, which [round] would take to the even neighbour 48.0,
    but the nearest float to 0.4795 lies below it and so does the float
    product, 47.949999999999996. *)
Lemma fmul_tie_value :
  Py.fmul 0.4795 100 = IZR 6748362566637977 / IZR (2 ^ 47).
Proof.
  unfold Py.fmul. rewrite float64_100.
  rewrite (float64_eval 0.4795 (-2) 8637904085296611).
  - change (-2 - 52)%Z with (-54)%Z.
    rewrite (float64_eval _ 5 6748362566637977).
    + change (5 - 52)%Z with (-47)%Z. pow2_values. lra.
    + lia.
    + rewrite Rabs_pos_eq by (pow2_values; lra).
      change (5 + 1)%Z with 6%Z. pow2_values. lra.
    + change (52 - 5)%Z with 47%Z. pow2_values. lra.
  - lia.
  - rewrite Rabs_pos_eq by lra. change (-2 + 1)%Z with (-1)%Z. pow2_values. lra.
  - change (52 - -2)%Z with 54%Z. pow2_values. lra.
Qed.

(** A tie that goes the other way: the float product of 0.3345 with
    100 is 33.450000000000003, above the exact 33.45, which [round]
    would take to the even neighbour 33.4. *)
Lemma fmul_tie_value_up :
  Py.fmul 0.3345 100 = IZR 4707668985485722 / IZR (2 ^ 47).
Proof.
  unfold Py.fmul. rewrite float64_100.
  rewrite (float64_eval 0.3345 (-2) 6025816301421724).
  - change (-2 - 52)%Z with (-54)%Z.
    rewrite (float64_eval _ 5 4707668985485722).
    + change (5 - 52)%Z with (-47)%Z. pow2_values. lra.
    + lia.
    + rewrite Rabs_pos_eq by (pow2_values; lra).
      change (5 + 1)%Z with 6%Z. pow2_values. lra.
    + change (52 - 5)%Z with 47%Z. pow2_values. lra.
  - lia.
  - rewrite Rabs_pos_eq by lra. change (-2 + 1)%Z with (-1)%Z. pow2_values. lra.
  - change (52 - -2)%Z with 54%Z. pow2_values. lra.
Qed.

Lemma round_tie_value_up : Py.round (Py.fmul 0.3345 100) 1 = 33.5.
Proof.
  rewrite fmul_tie_value_up. change (2 ^ 47)%Z with 140737488355328%Z.
  rewrite (round_eq _ 1 335) by lra. lra.
Qed.

Lemma round_tie_value : Py.round (Py.fmul 0.4795 100) 1 = 47.9.
Proof.
  rewrite fmul_tie_value. change (2 ^ 47)%Z with 140737488355328%Z.
  rewrite (round_eq _ 1 479) by lra. lra.
Qed.

End FloatFacts.

(** ** The best outcome and the confidence band *)

Section Confidence.

Lemma max3_upper (a b c : R) :
  a <= max3 a b c /\ b <= max3 a b c /\ c <= max3 a b c.
Proof.
  unfold max3. destruct (Rlt_dec a b); destruct (Rlt_dec _ c); lra.
Qed.

Lemma max3_cases (a b c : R) :
  max3 a b c = a \/ max3 a b c = b \/ max3 a b c = c.
Proof.
  unfold max3. destruct (Rlt_dec a b); destruct (Rlt_dec _ c); auto.
Qed.

(** C9. [best_outcome] reports a maximal outcome; among outcomes that
    tie for the maximum it reports the first in the order home_win,
    draw, away_win, so that a three-way tie reports home_win; and
    [best_prob] is the probability of the reported outcome. *)
Theorem best_outcome_first_maximum (r : PoissonResult) :
  (forall o, prob_of r o <= prob_of r (best_outcome r)) /\
  (forall o, prob_of r o = prob_of r (best_outcome r) ->
             (rank (best_outcome r) <= rank o)%nat) /\
  (home_win r = draw r -> draw r = away_win r -> best_outcome r = Home_win) /\
  best_prob r = prob_of r (best_outcome r).
Proof.
  unfold best_outcome, best_prob, max3. cbn [max_by_key fst snd].
  destruct (Rlt_dec (home_win r) (draw r)) as [Hhd | Hhd]; cbn [snd];
    [ destruct (Rlt_dec (draw r) (away_win r)) as [Hda | Hda]
    | destruct (Rlt_dec (home_win r) (away_win r)) as [Hha | Hha] ];
    cbn [fst prob_of];
    (split; [intros []; cbn; lra |]);
    (split; [intros []; cbn; intros; try lia; lra |]);
    (split; [intros; try reflexivity; lra | reflexivity]).
Qed.

Lemma best_outcome_first_maximum_witness :
  best_outcome (triple_result (1 / 3) (1 / 3) (1 / 3)) = Home_win /\
  best_prob (triple_result 0.2 0.4 0.4) = 0.4 /\
  (rank (best_outcome (triple_result 0.2 0.4 0.4)) <= rank Draw)%nat.
Proof.
  destruct (best_outcome_first_maximum (triple_result (1 / 3) (1 / 3) (1 / 3)))
    as (_ & _ & H3 & _).
  destruct (best_outcome_first_maximum (triple_result 0.2 0.4 0.4))
    as (Hmax & Hfirst & _ & Hp).
  split; [apply H3; reflexivity |].
  assert (Hd : prob_of (triple_result 0.2 0.4 0.4) Draw
               = prob_of (triple_result 0.2 0.4 0.4)
                   (best_outcome (triple_result 0.2 0.4 0.4))).
  { apply Rle_antisym; [apply Hmax |].
    destruct (best_outcome (triple_result 0.2 0.4 0.4)); cbn; lra. }
  split; [rewrite Hp, <- Hd; reflexivity | apply Hfirst, Hd].
Defined.

Lemma confidence_label_bands (r : PoissonResult) :
  let pct := fst (confidence_level r) in
  let label := snd (confidence_level r) in
  (label = High <-> 60 <= pct) /\
  (label = Medium <-> 48 <= pct < 60) /\
  (label = Low <-> pct < 48).
Proof.
  unfold confidence_level. cbn [fst snd].
  destruct (Rle_dec 60 _) as [H60 | H60];
    [| destruct (Rle_dec 48 _) as [H48 | H48]];
    repeat split; intros; try discriminate; try reflexivity; lra.
Qed.

(** Away from the ties the float product rounds as the exact one. *)
Lemma confidence_level_eval (r : PoissonResult) (z : Z) :
  1 / 4 <= best_prob r <= 1 ->
  IZR z - 1 / 2 + 1 / 10 ^ 11 < best_prob r * 100 * 10 ^ 1
    < IZR z + 1 / 2 - 1 / 10 ^ 11 ->
  confidence_level r =
    (IZR z / 10 ^ 1,
     if Rle_dec 60 (IZR z / 10 ^ 1) then High
     else if Rle_dec 48 (IZR z / 10 ^ 1) then Medium else Low).
Proof.
  intros Hr H. unfold confidence_level.
  pose proof (fmul_100_error (best_prob r) Hr) as He.
  apply Rabs_le_bounds in He.
  rewrite (round_eq _ 1%nat z); [reflexivity |]. lra.
Qed.

Lemma best_prob_home (h d a : R) :
  d <= h -> a <= h -> best_prob (triple_result h d a) = h.
Proof.
  intros Hd Ha. unfold best_prob, max3. cbn.
  destruct (Rlt_dec h d); [lra |]. destruct (Rlt_dec h a); [lra | reflexivity].
Qed.

(** The rounding comes before the comparison with the thresholds. *)
Lemma confidence_boundaries :
  confidence_level (triple_result 0.60 0.25 0.15) = (60, High) /\
  confidence_level (triple_result 0.5999 0.25 0.1501) = (60, High) /\
  confidence_level (triple_result 0.48 0.30 0.22) = (48, Medium) /\
  confidence_level (triple_result 0.4799 0.30 0.2201) = (48, Medium).
Proof.
  repeat split.
  - rewrite (confidence_level_eval _ 600) by (rewrite best_prob_home; lra).
    replace (IZR 600 / 10 ^ 1) with 60 by lra.
    destruct (Rle_dec 60 60); [reflexivity | lra].
  - rewrite (confidence_level_eval _ 600) by (rewrite best_prob_home; lra).
    replace (IZR 600 / 10 ^ 1) with 60 by lra.
    destruct (Rle_dec 60 60); [reflexivity | lra].
  - rewrite (confidence_level_eval _ 480) by (rewrite best_prob_home; lra).
    replace (IZR 480 / 10 ^ 1) with 48 by lra.
    destruct (Rle_dec 60 48); [lra |].
    destruct (Rle_dec 48 48); [reflexivity | lra].
  - rewrite (confidence_level_eval _ 480) by (rewrite best_prob_home; lra).
    replace (IZR 480 / 10 ^ 1) with 48 by lra.
    destruct (Rle_dec 60 48); [lra |].
    destruct (Rle_dec 48 48); [reflexivity | lra].
Qed.

(** On a tie the float product decides: 0.4795 gives 47.9 and the label
    low, where the exact product 47.95 would round to 48.0, and 0.3345
    gives 33.5, where the exact product 33.45 would round to 33.4. *)
Lemma confidence_on_tie :
  confidence_level (triple_result 0.4795 0.30 0.2205) = (47.9, Low) /\
  confidence_level (triple_result 0.3345 0.3330 0.3325) = (33.5, Low).
Proof.
  unfold confidence_level. rewrite !best_prob_home by lra.
  rewrite round_tie_value, round_tie_value_up.
  destruct (Rle_dec 60 47.9); [lra |].
  destruct (Rle_dec 48 47.9); [lra |].
  destruct (Rle_dec 60 33.5); [lra |].
  destruct (Rle_dec 48 33.5); [lra |].
  split; reflexivity.
Qed.

(** The percentage is within half a unit of the first decimal (and the
    error of the float product) of 100 x the best probability. *)
Lemma confidence_accuracy (r : PoissonResult) :
  1 / 4 <= best_prob r <= 1 ->
  Rabs (fst (confidence_level r) - 100 * best_prob r) <= 0.05 + 1 / 10 ^ 12.
Proof.
  intros Hr. unfold confidence_level. cbn [fst].
  pose proof (fmul_100_error (best_prob r) Hr) as He.
  apply Rabs_le_bounds in He.
  pose proof (round_bounds (Py.fmul (best_prob r) 100) 1) as Hb.
  apply Rabs_le. lra.
Qed.

Lemma confidence_range (r : PoissonResult) :
  0.3333 <= best_prob r <= 1 ->
  33.3 <= fst (confidence_level r) <= 100.
Proof.
  intros Hr. unfold confidence_level. cbn [fst].
  assert (Hq : 1 / 4 <= best_prob r <= 1) by lra.
  pose proof (fmul_100_error (best_prob r) Hq) as He.
  apply Rabs_le_bounds in He.
  split.
  - apply Rle_trans with (Py.round 33.32 1).
    + rewrite (round_eq _ 1 333) by lra. lra.
    + apply round_mono. lra.
  - apply Rle_trans with (Py.round 100.01 1).
    + apply round_mono. lra.
    + rewrite (round_eq _ 1 1000) by lra. lra.
Qed.

End Confidence.

(** ** Sums over arrays *)

Section ArrayFacts.

Lemma sum_nil : Np.sum [] = 0.
Proof. reflexivity. Qed.

Lemma sum_cons (x : R) (v : Np.vector) : Np.sum (x :: v) = x + Np.sum v.
Proof. reflexivity. Qed.

Ltac sum_step := cbn [map combine seq length fst snd nth]; rewrite ?sum_cons, ?sum_nil.

Lemma sum_nonneg (v : Np.vector) : nonneg_vector v -> 0 <= Np.sum v.
Proof.
  induction 1 as [| x v Hx _ IH]; sum_step; lra.
Qed.

Lemma sum_ge_entry (v : Np.vector) (j : nat) :
  nonneg_vector v -> nth j v 0 <= Np.sum v.
Proof.
  intros Hv. revert j.
  induction Hv as [| x v Hx Hv IH]; intros [| j]; sum_step; try lra.
  - pose proof (sum_nonneg v Hv). lra.
  - specialize (IH j). lra.
Qed.

Lemma msum_nonneg (m : Np.matrix) : nonneg_matrix m -> 0 <= Np.msum m.
Proof.
  unfold Np.msum.
  induction 1 as [| r m Hr _ IH]; sum_step; [lra |].
  pose proof (sum_nonneg r Hr). lra.
Qed.

Lemma msum_ge_cell (m : Np.matrix) (x y : nat) :
  nonneg_matrix m -> Np.cell m x y <= Np.msum m.
Proof.
  unfold Np.msum, Np.cell. intros Hm. revert x.
  induction Hm as [| r m Hr Hm IH]; intros [| x]; sum_step.
  - destruct y; lra.
  - destruct y; lra.
  - pose proof (sum_ge_entry r y Hr).
    pose proof (msum_nonneg m Hm) as Hs. unfold Np.msum in Hs. lra.
  - specialize (IH x). pose proof (sum_nonneg r Hr). lra.
Qed.

Lemma masked_sum_nonneg (P : nat -> bool) (row : Np.vector) :
  nonneg_vector row ->
  forall s,
    0 <= Np.sum (map (fun jv : nat * R => if P (fst jv) then snd jv else 0)
                     (combine (seq s (length row)) row)).
Proof.
  induction 1 as [| x v Hx _ IH]; intros s; sum_step; [lra |].
  specialize (IH (S s)). destruct (P s); lra.
Qed.

Lemma sum_where_nonneg (P : nat -> nat -> bool) (m : Np.matrix) :
  nonneg_matrix m -> 0 <= Np.sum_where P m.
Proof.
  unfold Np.sum_where. generalize 0%nat.
  intros s Hm. revert s.
  induction Hm as [| r m Hr _ IH]; intros s; sum_step; [lra |].
  specialize (IH (S s)).
  pose proof (masked_sum_nonneg (P s) r Hr 0) as Hrow.
  change (0 <= Np.row_sum_where (P s) r) in Hrow. lra.
Qed.

Lemma masked_sum_split (i : nat) (row : Np.vector) (s : nat) :
  Np.sum (map (fun jv : nat * R => if Nat.ltb (fst jv) i then snd jv else 0)
              (combine (seq s (length row)) row))
  + Np.sum (map (fun jv : nat * R => if Nat.eqb i (fst jv) then snd jv else 0)
                (combine (seq s (length row)) row))
  + Np.sum (map (fun jv : nat * R => if Nat.ltb i (fst jv) then snd jv else 0)
                (combine (seq s (length row)) row))
  = Np.sum row.
Proof.
  revert s. induction row as [| x v IH]; intros s; sum_step; [lra |].
  specialize (IH (S s)).
  destruct (Nat.ltb_spec s i); destruct (Nat.eqb_spec i s);
    destruct (Nat.ltb_spec i s); try lia; lra.
Qed.

(** The three outcome sums partition the matrix. *)
Lemma outcome_sums_partition (m : Np.matrix) :
  Np.tril_sum m + Np.diag_sum m + Np.triu_sum m = Np.msum m.
Proof.
  unfold Np.tril_sum, Np.diag_sum, Np.triu_sum, Np.sum_where, Np.msum.
  generalize 0%nat.
  induction m as [| r m IH]; intros s; sum_step; [lra |].
  specialize (IH (S s)).
  pose proof (masked_sum_split s r 0) as Hrow.
  change (Np.row_sum_where (fun j => Nat.ltb j s) r
          + Np.row_sum_where (Nat.eqb s) r
          + Np.row_sum_where (fun j => Nat.ltb s j) r = Np.sum r) in Hrow.
  lra.
Qed.

Lemma sum_map_div (r : Np.vector) (t : R) :
  Np.sum (map (fun v => v / t) r) = Np.sum r / t.
Proof.
  induction r as [| x r IH]; sum_step; [lra | rewrite IH; lra].
Qed.

Lemma msum_scale_div (m : Np.matrix) (t : R) :
  Np.msum (Np.scale_div m t) = Np.msum m / t.
Proof.
  unfold Np.msum, Np.scale_div.
  induction m as [| r m IH]; sum_step; [lra |].
  rewrite IH, sum_map_div. lra.
Qed.

Lemma nonneg_scale_div (m : Np.matrix) (t : R) :
  0 < t -> nonneg_matrix m -> nonneg_matrix (Np.scale_div m t).
Proof.
  intros Ht Hm. unfold Np.scale_div.
  induction Hm as [| r m Hr _ IH]; cbn [map]; constructor; [| exact IH].
  clear IH. induction Hr as [| x r Hx _ IHr]; cbn [map]; constructor; [| exact IHr].
  apply Rmult_le_pos; [lra |]. left. now apply Rinv_0_lt_compat.
Qed.

End ArrayFacts.

(** ** Renormalization in the aggregator and the blender *)

Section Renormalization.

Lemma outcome_triple_eq (m : Np.matrix) :
  let t := Py.or_else (triple_total m) 1.0 in
  outcome_triple m =
    Py.Ok (Py.round (Np.tril_sum m / t) 4,
           Py.round (Np.diag_sum m / t) 4,
           Py.round (Np.triu_sum m / t) 4).
Proof.
  intros t. unfold outcome_triple. fold (triple_total m). fold t.
  assert (Ht : t <> 0) by (apply or_else_nonzero; lra).
  rewrite !div_ok by exact Ht. reflexivity.
Qed.

Lemma ensemble_eq (p : PoissonResult) (ml : Py.Dict) :
  let t := Py.or_else (blend_total p ml) 1.0 in
  _ensemble p (Some ml) =
    Py.Ok {| final_home_win := Py.round (blend_home p ml / t) 4;
             final_draw := Py.round (blend_draw p ml / t) 4;
             final_away_win := Py.round (blend_away p ml / t) 4;
             source := "poisson+dc+ml" |}.
Proof.
  intros t. unfold _ensemble.
  fold (blend_home p ml) (blend_draw p ml) (blend_away p ml).
  fold (blend_total p ml). fold t.
  assert (Ht : t <> 0) by (apply or_else_nonzero; lra).
  rewrite !div_ok by exact Ht. reflexivity.
Qed.

Lemma round_zero (n : nat) : Py.round 0 n = 0.
Proof.
  rewrite (round_eq 0 n 0); [unfold Rdiv; ring | lra].
Qed.

Lemma or_else_zero (d : R) : Py.or_else 0 d = d.
Proof.
  unfold Py.or_else. destruct (Req_dec_T 0 0); [reflexivity | lra].
Qed.

Lemma or_else_keep (x d : R) : x <> 0 -> Py.or_else x d = x.
Proof.
  intros Hx. unfold Py.or_else. now destruct (Req_dec_T x 0).
Qed.

(** Three numbers that sum to one, each rounded to four decimals, sum
    to one up to a single unit in the fourth decimal. *)
Lemma round4_sum_one (q1 q2 q3 : R) :
  q1 + q2 + q3 = 1 ->
  Rabs (Py.round q1 4 + Py.round q2 4 + Py.round q3 4 - 1) <= 1 / 10000.
Proof.
  intros Hq. unfold Py.round.
  replace (10 ^ 4) with 10000 by lra.
  pose proof (round_half_even_bounds (q1 * 10000)) as [L1 U1].
  pose proof (round_half_even_bounds (q2 * 10000)) as [L2 U2].
  pose proof (round_half_even_bounds (q3 * 10000)) as [L3 U3].
  set (z1 := Py.round_half_even (q1 * 10000)) in *.
  set (z2 := Py.round_half_even (q2 * 10000)) in *.
  set (z3 := Py.round_half_even (q3 * 10000)) in *.
  assert (Hlo : (9999 <= z1 + z2 + z3)%Z).
  { assert (H : (9998 < z1 + z2 + z3)%Z).
    { apply lt_IZR. rewrite !plus_IZR. lra. }
    lia. }
  assert (Hhi : (z1 + z2 + z3 <= 10001)%Z).
  { assert (H : (z1 + z2 + z3 < 10002)%Z).
    { apply lt_IZR. rewrite !plus_IZR. lra. }
    lia. }
  apply IZR_le in Hlo, Hhi. rewrite !plus_IZR in Hlo, Hhi.
  apply Rabs_le. lra.
Qed.

End Renormalization.

Section RenormalizationClaims.

Lemma blend_dict (p : PoissonResult) (h d a : R) :
  blend_home p (ml_dict h d a) = 0.70 * home_win p + 0.30 * h /\
  blend_draw p (ml_dict h d a) = 0.70 * draw p + 0.30 * d /\
  blend_away p (ml_dict h d a) = 0.70 * away_win p + 0.30 * a.
Proof. repeat split. Qed.

Lemma triple_zero_of_nonneg (m : Np.matrix) :
  nonneg_matrix m -> triple_total m = 0 ->
  Np.tril_sum m = 0 /\ Np.diag_sum m = 0 /\ Np.triu_sum m = 0.
Proof.
  intros Hm Ht. unfold triple_total in Ht.
  pose proof (sum_where_nonneg (fun i j => Nat.ltb j i) m Hm) as H1.
  pose proof (sum_where_nonneg Nat.eqb m Hm) as H2.
  pose proof (sum_where_nonneg (fun i j => Nat.ltb i j) m Hm) as H3.
  fold (Np.tril_sum m) in H1. fold (Np.diag_sum m) in H2.
  fold (Np.triu_sum m) in H3. lra.
Qed.

Lemma apply_dc_correction_total (p : PoissonResult) (m : Np.matrix) :
  exists p', _apply_dc_correction p m = Py.Ok p'.
Proof.
  unfold _apply_dc_correction. rewrite outcome_triple_eq. cbn. eauto.
Qed.

Lemma ensemble_total (p : PoissonResult) (ml : option Py.Dict) :
  exists f, _ensemble p ml = Py.Ok f.
Proof.
  destruct ml as [ml |]; [rewrite ensemble_eq | cbn]; eauto.
Qed.

(** C10, as the code has it. The aggregator (in [calculate_poisson]
    and in [_apply_dc_correction]) and the blender never raise, for
    every matrix, result and classifier dict: the divisor is the
    three-way sum, or 1 when that sum is exactly 0, hence never 0. When
    the sum is 0 the divisor is 1, so the returned triple is the three
    sums themselves, rounded to four decimals; it is all zero when the
    summands are non-negative (the cells of a scoreline matrix, the
    weighted probabilities of the blend), not for every input. *)
Theorem renormalization_is_total :
  (forall p m, exists p', _apply_dc_correction p m = Py.Ok p') /\
  (forall home away w h2h nf,
      exists p, calculate_poisson home away w h2h nf = Py.Ok p) /\
  (forall p ml, exists f, _ensemble p ml = Py.Ok f) /\
  (forall m, Py.or_else (triple_total m) 1.0 <> 0 /\
             (triple_total m = 0 -> Py.or_else (triple_total m) 1.0 = 1)) /\
  (forall p ml, Py.or_else (blend_total p ml) 1.0 <> 0 /\
                (blend_total p ml = 0 -> Py.or_else (blend_total p ml) 1.0 = 1)) /\
  (forall p m, triple_total m = 0 ->
      exists p', _apply_dc_correction p m = Py.Ok p' /\
                 home_win p' = Py.round (Np.tril_sum m) 4 /\
                 draw p' = Py.round (Np.diag_sum m) 4 /\
                 away_win p' = Py.round (Np.triu_sum m) 4) /\
  (forall p ml, blend_total p ml = 0 ->
      exists f, _ensemble p (Some ml) = Py.Ok f /\
                final_home_win f = Py.round (blend_home p ml) 4 /\
                final_draw f = Py.round (blend_draw p ml) 4 /\
                final_away_win f = Py.round (blend_away p ml) 4) /\
  (forall p m, nonneg_matrix m -> triple_total m = 0 ->
      exists p', _apply_dc_correction p m = Py.Ok p' /\
                 home_win p' = 0 /\ draw p' = 0 /\ away_win p' = 0) /\
  (forall p ml,
      0 <= blend_home p ml -> 0 <= blend_draw p ml -> 0 <= blend_away p ml ->
      blend_total p ml = 0 ->
      exists f, _ensemble p (Some ml) = Py.Ok f /\
                final_home_win f = 0 /\ final_draw f = 0 /\ final_away_win f = 0).
Proof.
  repeat apply conj.
  - apply apply_dc_correction_total.
  - intros home away w h2h nf. unfold calculate_poisson.
    destruct (poisson_rates home away w h2h nf) as [lh la].
    rewrite outcome_triple_eq. cbn. eauto.
  - apply ensemble_total.
  - intros m. split; [apply or_else_nonzero; lra |].
    intros ->. rewrite or_else_zero. lra.
  - intros p ml. split; [apply or_else_nonzero; lra |].
    intros ->. rewrite or_else_zero. lra.
  - intros p m Ht.
    unfold _apply_dc_correction. rewrite outcome_triple_eq.
    rewrite Ht, or_else_zero. cbn.
    eexists. split; [reflexivity |]. cbn.
    repeat split; f_equal; lra.
  - intros p ml Ht.
    rewrite ensemble_eq, Ht, or_else_zero.
    eexists. split; [reflexivity |]. cbn.
    repeat split; f_equal; lra.
  - intros p m Hm Ht.
    destruct (triple_zero_of_nonneg m Hm Ht) as (H1 & H2 & H3).
    unfold _apply_dc_correction. rewrite outcome_triple_eq.
    rewrite H1, H2, H3. cbn.
    eexists. split; [reflexivity |]. cbn.
    unfold Rdiv. rewrite !Rmult_0_l, round_zero. auto.
  - intros p ml Hh Hd Ha Ht.
    assert (H0 : blend_home p ml = 0 /\ blend_draw p ml = 0 /\ blend_away p ml = 0)
      by (unfold blend_total in Ht; lra).
    destruct H0 as (H1 & H2 & H3).
    rewrite ensemble_eq, H1, H2, H3.
    eexists. split; [reflexivity |]. cbn.
    unfold Rdiv. rewrite !Rmult_0_l, round_zero. auto.
Qed.

Lemma zero_matrix_nonneg : nonneg_matrix zero_matrix.
Proof. repeat constructor; lra. Qed.

Lemma zero_matrix_total : triple_total zero_matrix = 0.
Proof.
  unfold triple_total, Np.tril_sum, Np.diag_sum, Np.triu_sum, Np.sum_where,
    Np.row_sum_where, zero_matrix, Np.sum. cbn. lra.
Qed.

Lemma renormalization_is_total_witness :
  exists p', _apply_dc_correction (triple_result 0 0 0) zero_matrix = Py.Ok p' /\
             home_win p' = 0 /\ draw p' = 0 /\ away_win p' = 0.
Proof.
  destruct renormalization_is_total as (_ & _ & _ & _ & _ & _ & _ & H & _).
  exact (H (triple_result 0 0 0) zero_matrix zero_matrix_nonneg zero_matrix_total).
Defined.

Lemma skew_matrix_sums :
  Np.tril_sum skew_matrix = 1 /\
  Np.diag_sum skew_matrix = 0 /\
  Np.triu_sum skew_matrix = -1.
Proof.
  unfold Np.tril_sum, Np.diag_sum, Np.triu_sum, Np.sum_where, Np.row_sum_where,
    skew_matrix, Np.sum.
  cbn. repeat split; lra.
Qed.

(** C10 as stated fails. The division never fails, but a zero sum does
    not make the triple zero for every input: the array
    [[0, -1], [1, 0]] has the three sums 1, 0 and -1, whose total is 0,
    so the divisor is 1 and the triple is (1, 0, -1); and the blend of
    the zero triple with the classifier values (1, 0, -1) has total 0
    and gives (0.3, 0, -0.3). *)
Lemma zero_sum_triple_not_zero :
  triple_total skew_matrix = 0 /\
  (exists p', _apply_dc_correction (triple_result 0 0 0) skew_matrix = Py.Ok p' /\
              home_win p' = 1 /\ draw p' = 0 /\ away_win p' = -1) /\
  blend_total (triple_result 0 0 0) skew_ml = 0 /\
  (exists f, _ensemble (triple_result 0 0 0) (Some skew_ml) = Py.Ok f /\
             final_home_win f = 0.3 /\ final_draw f = 0 /\ final_away_win f = -0.3).
Proof.
  destruct skew_matrix_sums as (S1 & S2 & S3).
  assert (Ht : triple_total skew_matrix = 0) by (unfold triple_total; lra).
  assert (Bh : blend_home (triple_result 0 0 0) skew_ml = 0.3)
    by (unfold blend_home; cbn; lra).
  assert (Bd : blend_draw (triple_result 0 0 0) skew_ml = 0)
    by (unfold blend_draw; cbn; lra).
  assert (Ba : blend_away (triple_result 0 0 0) skew_ml = -0.3)
    by (unfold blend_away; cbn; lra).
  assert (Bt : blend_total (triple_result 0 0 0) skew_ml = 0)
    by (unfold blend_total; lra).
  split; [exact Ht |]. split; [| split; [exact Bt |]].
  - unfold _apply_dc_correction. rewrite outcome_triple_eq.
    rewrite Ht, or_else_zero, S1, S2, S3. cbn.
    eexists. split; [reflexivity |]. cbn.
    rewrite (round_eq (1 / 1.0) 4 10000), (round_eq (0 / 1.0) 4 0),
      (round_eq (-1 / 1.0) 4 (-10000)) by lra.
    repeat split; lra.
  - rewrite ensemble_eq, Bt, or_else_zero, Bh, Bd, Ba.
    eexists. split; [reflexivity |]. cbn.
    rewrite (round_eq (0.3 / 1.0) 4 3000), (round_eq (0 / 1.0) 4 0),
      (round_eq (-0.3 / 1.0) 4 (-3000)) by lra.
    repeat split; lra.
Qed.

End RenormalizationClaims.

(** ** The ensemble blender *)

Section Ensemble.

Lemma round4_error (q : R) : Rabs (Py.round q 4 - q) <= 1 / 20000.
Proof.
  pose proof (round_bounds q 4) as [Hlo Hhi].
  replace (10 ^ 4) with 10000 in * by lra.
  apply Rabs_le. lra.
Qed.

(** C6, as the code has it. With a classifier triple [(h, d, a)] the
    final triple is the renormalization of 0.70 x matrix + 0.30 x
    classifier per outcome, each component then rounded to four
    decimals (so within 0.00005 of the exact quotient), tagged
    poisson+dc+ml; without a classifier result the matrix-derived
    triple is passed through unchanged, tagged poisson+dc. *)
Theorem ensemble_blend_rounded (p : PoissonResult) :
  (forall h d a : R,
      let bh := 0.70 * home_win p + 0.30 * h in
      let bd := 0.70 * draw p + 0.30 * d in
      let ba := 0.70 * away_win p + 0.30 * a in
      let t := bh + bd + ba in
      t <> 0 ->
      exists f,
        _ensemble p (Some (ml_dict h d a)) = Py.Ok f /\
        final_home_win f = Py.round (bh / t) 4 /\
        final_draw f = Py.round (bd / t) 4 /\
        final_away_win f = Py.round (ba / t) 4 /\
        Rabs (final_home_win f - bh / t) <= 1 / 20000 /\
        Rabs (final_draw f - bd / t) <= 1 / 20000 /\
        Rabs (final_away_win f - ba / t) <= 1 / 20000 /\
        source f = "poisson+dc+ml") /\
  (exists f,
      _ensemble p None = Py.Ok f /\
      final_home_win f = home_win p /\
      final_draw f = draw p /\
      final_away_win f = away_win p /\
      source f = "poisson+dc").
Proof.
  split.
  - intros h d a bh bd ba t Ht.
    rewrite ensemble_eq.
    destruct (blend_dict p h d a) as (Hh & Hd & Ha).
    unfold blend_total. rewrite Hh, Hd, Ha.
    fold bh bd ba. fold t. rewrite (or_else_keep t) by exact Ht.
    eexists. split; [reflexivity |]. cbn [final_home_win final_draw final_away_win source].
    repeat split; apply round4_error.
  - eexists. split; [reflexivity |]. cbn. auto.
Qed.

Lemma ensemble_blend_rounded_witness :
  exists f,
    _ensemble sample_result (Some sample_ml) = Py.Ok f /\
    Rabs (final_home_win f - 0.43869) <= 1 / 20000 /\
    source f = "poisson+dc+ml".
Proof.
  destruct (ensemble_blend_rounded sample_result) as [H _].
  destruct (H 0.4123 0.3013 0.2864) as (f & Hf & _ & _ & _ & Hh & _ & _ & Hs).
  - cbn. lra.
  - exists f. split; [exact Hf |]. split; [| exact Hs].
    cbn in Hh.
    replace 0.43869
      with ((0.70 * 0.45 + 0.30 * 0.4123)
            / (0.70 * 0.45 + 0.30 * 0.4123 + (0.70 * 0.27 + 0.30 * 0.3013)
               + (0.70 * 0.28 + 0.30 * 0.2864))) by lra.
    exact Hh.
Defined.

(** C6 as stated fails: the final triple is rounded, so it is not the
    exact renormalized blend. For the matrix triple (0.45, 0.27, 0.28)
    and the classifier triple (0.4123, 0.3013, 0.2864) the blend sums
    to 1 and its home component is 0.43869, while [_ensemble] returns
    0.4387. *)
Lemma ensemble_not_exact_blend :
  blend_total sample_result sample_ml = 1 /\
  blend_home sample_result sample_ml / blend_total sample_result sample_ml = 0.43869 /\
  exists f,
    _ensemble sample_result (Some sample_ml) = Py.Ok f /\
    final_home_win f = 0.4387 /\
    final_home_win f <>
      blend_home sample_result sample_ml / blend_total sample_result sample_ml.
Proof.
  assert (Ht : blend_total sample_result sample_ml = 1).
  { unfold blend_total, blend_home, blend_draw, blend_away. cbn. lra. }
  assert (Hh : blend_home sample_result sample_ml = 0.43869).
  { unfold blend_home. cbn. lra. }
  split; [exact Ht |]. split; [rewrite Ht, Hh; lra |].
  rewrite ensemble_eq, Ht, Hh.
  rewrite (or_else_keep 1) by lra.
  eexists. split; [reflexivity |].
  cbn [final_home_win].
  rewrite (round_eq _ 4 4387) by lra.
  split; lra.
Qed.

End Ensemble.

(** ** The Poisson mass array *)

Section Pmf.

Lemma pmf_length (lam : R) (max_k : nat) :
  length (_pmf_array lam max_k) = (max_k + 1)%nat.
Proof.
  unfold _pmf_array. now rewrite length_map, length_seq.
Qed.

Lemma pmf_positive (lam : R) (max_k : nat) :
  Forall (fun p => 0 < p) (_pmf_array lam max_k).
Proof.
  unfold _pmf_array. apply Forall_map, Forall_forall.
  intros k _. apply exp_pos.
Qed.

Lemma pmf_head (lam : R) (max_k : nat) :
  exists p rest, _pmf_array lam max_k = p :: rest /\ 0 < p.
Proof.
  unfold _pmf_array. rewrite Nat.add_1_r. cbn [seq map].
  eexists. eexists. split; [reflexivity | apply exp_pos].
Qed.

Lemma exp_log_fact (k : nat) : exp (log_fact k) = INR (fact k).
Proof.
  induction k as [| k IH]; [cbn; apply exp_0 |].
  cbn [log_fact]. rewrite exp_plus, IH, exp_ln.
  - rewrite <- mult_INR. f_equal. cbn [fact]. lia.
  - apply lt_0_INR. lia.
Qed.

Lemma exp_mult_ln (lam : R) (k : nat) : 0 < lam -> exp (INR k * ln lam) = lam ^ k.
Proof.
  intros Hl. induction k as [| k IH].
  - cbn. rewrite Rmult_0_l. apply exp_0.
  - rewrite S_INR, Rmult_plus_distr_r, Rmult_1_l, exp_plus, IH, exp_ln by exact Hl.
    cbn [pow]. ring.
Qed.

(** The mass at [k] is the Poisson law [lam^k e^-lam / k!]. *)
Lemma pmf_term (lam : R) (k : nat) :
  0 < lam ->
  exp (INR k * ln lam - lam - log_fact k)
  = exp (- lam) * (/ INR (fact k) * lam ^ k).
Proof.
  intros Hl.
  replace (INR k * ln lam - lam - log_fact k)
    with (- lam + (INR k * ln lam + - log_fact k)) by ring.
  rewrite !exp_plus, exp_mult_ln by exact Hl.
  rewrite (exp_Ropp (log_fact k)), exp_log_fact. ring.
Qed.

Lemma sum_app (u v : Np.vector) : Np.sum (u ++ v)%list = Np.sum u + Np.sum v.
Proof.
  induction u as [| x u IH]; cbn [app]; rewrite ?sum_cons, ?sum_nil; [lra |].
  rewrite IH. lra.
Qed.

Lemma sum_map_seq (g : nat -> R) (n : nat) :
  Np.sum (map g (seq 0 (n + 1))) = sum_f_R0 g n.
Proof.
  rewrite Nat.add_1_r.
  induction n as [| n IH].
  - cbn. lra.
  - rewrite seq_S, map_app, sum_app, IH. cbn. lra.
Qed.

Lemma sum_map_scale (c : R) (g : nat -> R) (l : list nat) :
  Np.sum (map (fun k => c * g k) l) = c * Np.sum (map g l).
Proof.
  induction l as [| k l IH]; cbn [map]; rewrite ?sum_cons, ?sum_nil; [lra |].
  rewrite IH. lra.
Qed.

(** A partial sum of the exponential series is strictly below the
    exponential. *)
Lemma exp_partial_sum_lt (x : R) (n : nat) :
  0 < x -> sum_f_R0 (fun i => / INR (fact i) * x ^ i) n < exp x.
Proof.
  intros Hx.
  assert (Hterm : forall i, 0 < / INR (fact i) * x ^ i).
  { intros i. apply Rmult_lt_0_compat.
    - apply Rinv_0_lt_compat, lt_0_INR, lt_O_fact.
    - now apply pow_lt. }
  assert (Hle : sum_f_R0 (fun i => / INR (fact i) * x ^ i) (S n) <= exp x).
  { apply sum_incr.
    - unfold exp. destruct (exist_exp x) as [l Hl]. exact Hl.
    - intros i. left. apply Hterm. }
  cbn [sum_f_R0] in Hle. specialize (Hterm (S n)). lra.
Qed.

(** The truncated array carries positive mass, strictly less than 1. *)
Lemma pmf_sum_bounds (lam : R) (max_k : nat) :
  0 < Np.sum (_pmf_array lam max_k) < 1.
Proof.
  unfold _pmf_array.
  assert (Hl : 0 < Rmax lam 1e-9).
  { apply Rlt_le_trans with 1e-9; [lra | apply Rmax_r]. }
  set (l := Rmax lam 1e-9) in *.
  rewrite (map_ext _ (fun k => exp (- l) * (/ INR (fact k) * l ^ k)))
    by (intros k; now apply pmf_term).
  rewrite (sum_map_scale (exp (- l)) (fun k => / INR (fact k) * l ^ k)).
  rewrite sum_map_seq.
  pose proof (exp_partial_sum_lt l max_k Hl) as Hlt.
  pose proof (exp_pos (- l)) as Hp.
  assert (Hs : 0 < sum_f_R0 (fun i => / INR (fact i) * l ^ i) max_k).
  { clear Hlt. induction max_k as [| n IH]; cbn [sum_f_R0].
    - cbn. lra.
    - assert (0 < / INR (fact (S n)) * l ^ S n).
      { apply Rmult_lt_0_compat;
          [apply Rinv_0_lt_compat, lt_0_INR, lt_O_fact | now apply pow_lt]. }
      lra. }
  split; [now apply Rmult_lt_0_compat |].
  apply Rlt_le_trans with (exp (- l) * exp l).
  - now apply Rmult_lt_compat_l.
  - rewrite <- exp_plus, Rplus_opp_l, exp_0. lra.
Qed.

End Pmf.

(** ** Cells of a matrix and in-place updates *)

Section Cells.

Lemma cell_outer (u v : Np.vector) (x y : nat) :
  Np.cell (Np.outer u v) x y = nth x u 0 * nth y v 0.
Proof.
  unfold Np.cell, Np.outer. revert x.
  induction u as [| a u IH]; intros [| x]; cbn [map nth].
  - destruct y; lra.
  - destruct y; lra.
  - clear IH. revert y. induction v as [| b v IHv]; intros [| y]; cbn [map nth];
      try lra. apply IHv.
  - apply IH.
Qed.

Lemma outer_length (u v : Np.vector) : length (Np.outer u v) = length u.
Proof. unfold Np.outer. apply length_map. Qed.

Lemma outer_row_length (u v : Np.vector) (x : nat) :
  (x < length u)%nat -> length (nth x (Np.outer u v) []) = length v.
Proof.
  unfold Np.outer. revert x.
  induction u as [| a u IH]; intros [| x] Hx; cbn in *; try lia.
  - apply length_map.
  - apply IH. lia.
Qed.

Lemma outer_nonneg (u v : Np.vector) :
  Forall (fun p => 0 < p) u -> Forall (fun p => 0 < p) v ->
  nonneg_matrix (Np.outer u v).
Proof.
  intros Hu Hv. unfold Np.outer.
  induction Hu as [| a u Ha _ IH]; cbn [map]; constructor; [| exact IH].
  clear IH. induction Hv as [| b v Hb _ IHv]; cbn [map]; constructor; [| exact IHv].
  left. now apply Rmult_lt_0_compat.
Qed.

Lemma msum_outer (u v : Np.vector) :
  Np.msum (Np.outer u v) = Np.sum u * Np.sum v.
Proof.
  unfold Np.msum, Np.outer.
  induction u as [| a u IH]; cbn [map]; rewrite ?sum_cons, ?sum_nil; [lra |].
  rewrite IH.
  assert (Hr : Np.sum (map (fun b => a * b) v) = a * Np.sum v).
  { clear. induction v as [| b v IH]; cbn [map]; rewrite ?sum_cons, ?sum_nil; [lra |].
    rewrite IH. lra. }
  rewrite Hr. lra.
Qed.

Lemma cell_nonneg (m : Np.matrix) (x y : nat) :
  nonneg_matrix m -> 0 <= Np.cell m x y.
Proof.
  unfold Np.cell. intros Hm. revert x.
  assert (Hrow : forall r, nonneg_vector r -> 0 <= nth y r 0).
  { intros r Hr. revert y. induction Hr; intros [| y]; cbn; try lra. apply IHHr. }
  induction Hm as [| r m Hr _ IH]; intros [| x].
  - apply (Hrow []). constructor.
  - apply (Hrow []). constructor.
  - now apply Hrow.
  - apply IH.
Qed.

Lemma nth_set_nth_same {A : Type} (l : list A) (i : nat) (f : A -> A) (d : A) :
  (i < length l)%nat -> nth i (Np.set_nth l i f) d = f (nth i l d).
Proof.
  revert i. induction l as [| a l IH]; intros [| i] Hi; cbn in *; try lia.
  - reflexivity.
  - apply IH. lia.
Qed.

Lemma nth_set_nth_other {A : Type} (l : list A) (i j : nat) (f : A -> A) (d : A) :
  i <> j -> nth j (Np.set_nth l i f) d = nth j l d.
Proof.
  revert i j. induction l as [| a l IH]; intros [| i] [| j] Hij; cbn; try reflexivity.
  - lia.
  - apply IH. lia.
Qed.

Lemma set_nth_length {A : Type} (l : list A) (i : nat) (f : A -> A) :
  length (Np.set_nth l i f) = length l.
Proof.
  revert i. induction l as [| a l IH]; intros [| i]; cbn; try reflexivity.
  now rewrite IH.
Qed.

Lemma set_nth_id {A : Type} (l : list A) (i : nat) (f : A -> A) (d : A) :
  f (nth i l d) = nth i l d -> Np.set_nth l i f = l.
Proof.
  revert i. induction l as [| a l IH]; intros [| i] Hf; cbn in *; try reflexivity.
  - now rewrite Hf.
  - now rewrite IH.
Qed.

Lemma cell_set_cell_same (m : Np.matrix) (x y : nat) (v : R) :
  (x < length m)%nat -> (y < length (nth x m []))%nat ->
  Np.cell (Np.set_cell m x y v) x y = v.
Proof.
  intros Hx Hy. unfold Np.cell, Np.set_cell.
  rewrite nth_set_nth_same by exact Hx.
  now rewrite nth_set_nth_same by exact Hy.
Qed.

Lemma cell_set_cell_other (m : Np.matrix) (x y x' y' : nat) (v : R) :
  x <> x' \/ y <> y' ->
  Np.cell (Np.set_cell m x y v) x' y' = Np.cell m x' y'.
Proof.
  intros Hne. unfold Np.cell, Np.set_cell.
  destruct (Nat.eq_dec x x') as [<- | Hx].
  - destruct (Nat.lt_ge_cases x (length m)) as [Hlt | Hge].
    + rewrite nth_set_nth_same by exact Hlt.
      apply nth_set_nth_other. destruct Hne; [contradiction | assumption].
    + rewrite !(nth_overflow _ []) by (rewrite ?set_nth_length; lia). reflexivity.
  - now rewrite nth_set_nth_other by exact Hx.
Qed.

Lemma set_cell_length (m : Np.matrix) (x y : nat) (v : R) :
  length (Np.set_cell m x y v) = length m.
Proof. apply set_nth_length. Qed.

Lemma set_cell_row_length (m : Np.matrix) (x y x' : nat) (v : R) :
  length (nth x' (Np.set_cell m x y v) []) = length (nth x' m []).
Proof.
  unfold Np.set_cell.
  destruct (Nat.eq_dec x x') as [<- | Hx].
  - destruct (Nat.lt_ge_cases x (length m)) as [Hlt | Hge].
    + rewrite nth_set_nth_same by exact Hlt. apply set_nth_length.
    + rewrite !(nth_overflow _ []) by (rewrite ?set_nth_length; lia). reflexivity.
  - now rewrite nth_set_nth_other by exact Hx.
Qed.

Lemma set_cell_id (m : Np.matrix) (x y : nat) :
  Np.set_cell m x y (Np.cell m x y) = m.
Proof.
  unfold Np.set_cell, Np.cell.
  apply set_nth_id with (d := []).
  now apply set_nth_id with (d := 0).
Qed.

Lemma set_nth_nonneg (r : Np.vector) (y : nat) (v : R) :
  nonneg_vector r -> 0 <= v -> nonneg_vector (Np.set_nth r y (fun _ => v)).
Proof.
  intros Hr Hv. revert y.
  induction Hr as [| a r Ha Hr IHr]; intros [| y]; cbn [Np.set_nth];
    constructor; auto.
  apply IHr.
Qed.

Lemma set_cell_nonneg (m : Np.matrix) (x y : nat) (v : R) :
  nonneg_matrix m -> 0 <= v -> nonneg_matrix (Np.set_cell m x y v).
Proof.
  intros Hm Hv. unfold Np.set_cell. revert x.
  induction Hm as [| r m Hr Hm IH]; intros [| x]; cbn [Np.set_nth];
    constructor; auto.
  - now apply set_nth_nonneg.
  - apply IH.
Qed.

End Cells.

(** ** The Dixon-Coles correction *)

Section DixonColes.

Lemma build_dc_matrix_unfold (lh la : R) (mg : nat) (rho : R) :
  build_dc_matrix lh la mg rho =
    if Rlt_dec 0 (Np.msum (corrected_matrix lh la mg rho))
    then Np.scale_div (corrected_matrix lh la mg rho)
                      (Np.msum (corrected_matrix lh la mg rho))
    else corrected_matrix lh la mg rho.
Proof. reflexivity. Qed.

Lemma raw_matrix_nonneg (lh la : R) (mg : nat) : nonneg_matrix (raw_matrix lh la mg).
Proof. apply outer_nonneg; apply pmf_positive. Qed.

Lemma raw_matrix_length (lh la : R) (mg : nat) :
  length (raw_matrix lh la mg) = (mg + 1)%nat.
Proof. unfold raw_matrix. now rewrite outer_length, pmf_length. Qed.

Lemma raw_matrix_row_length (lh la : R) (mg x : nat) :
  (x <= mg)%nat -> length (nth x (raw_matrix lh la mg) []) = (mg + 1)%nat.
Proof.
  intros Hx. unfold raw_matrix.
  rewrite outer_row_length by (rewrite pmf_length; lia).
  apply pmf_length.
Qed.

Lemma nth_pos (v : Np.vector) (k : nat) :
  Forall (fun p => 0 < p) v -> (k < length v)%nat -> 0 < nth k v 0.
Proof.
  intros Hv. revert k.
  induction Hv as [| a v Ha _ IH]; intros [| k] Hk; cbn in *; try lia; auto.
  apply IH. lia.
Qed.

Lemma raw_cell_pos (lh la : R) (mg x y : nat) :
  (x <= mg)%nat -> (y <= mg)%nat -> 0 < Np.cell (raw_matrix lh la mg) x y.
Proof.
  intros Hx Hy. unfold raw_matrix. rewrite cell_outer.
  apply Rmult_lt_0_compat; apply nth_pos;
    try apply pmf_positive; rewrite pmf_length; lia.
Qed.

(** The loops keep a non-negative matrix non-negative. *)
Lemma tau_fold_nonneg (lh la rho : R) (outer inner : list nat) (m : Np.matrix) :
  nonneg_matrix m ->
  nonneg_matrix
    (fold_left
       (fun m x =>
          fold_left
            (fun m y =>
               Np.set_cell m x y (Rmax 0.0 (Np.cell m x y * _tau x y lh la rho)))
            inner m)
       outer m).
Proof.
  revert m.
  induction outer as [| x outer IHo]; intros m Hm; cbn [fold_left]; [exact Hm |].
  apply IHo. clear IHo. revert m Hm.
  induction inner as [| y inner IHi]; intros m Hm; cbn [fold_left]; [exact Hm |].
  apply IHi. apply set_cell_nonneg; [exact Hm |].
  apply Rle_trans with 0.0; [lra | apply Rmax_l].
Qed.

Lemma tau_loop_nonneg (lh la : R) (mg : nat) (rho : R) (m : Np.matrix) :
  nonneg_matrix m -> nonneg_matrix (tau_loop lh la mg rho m).
Proof. apply tau_fold_nonneg. Qed.

Lemma tau_rho_zero (x y : nat) (lh la : R) : _tau x y lh la 0 = 1.
Proof.
  unfold _tau.
  destruct (_ && _); [lra |].
  destruct (_ && _); [lra |].
  destruct (_ && _); [lra |].
  destruct (_ && _); lra.
Qed.

(** With [rho = 0] the loops write every cell back unchanged. *)
Lemma tau_fold_rho_zero (lh la : R) (outer inner : list nat) (m : Np.matrix) :
  nonneg_matrix m ->
  fold_left
    (fun m x =>
       fold_left
         (fun m y =>
            Np.set_cell m x y (Rmax 0.0 (Np.cell m x y * _tau x y lh la 0)))
         inner m)
    outer m = m.
Proof.
  intros Hm.
  induction outer as [| x outer IHo]; cbn [fold_left]; [reflexivity |].
  assert (Hin : fold_left
                  (fun m0 y =>
                     Np.set_cell m0 x y (Rmax 0.0 (Np.cell m0 x y * _tau x y lh la 0)))
                  inner m = m).
  { clear IHo. induction inner as [| y inner IHi]; cbn [fold_left]; [reflexivity |].
    rewrite tau_rho_zero, Rmult_1_r, Rmax_right
      by (pose proof (cell_nonneg m x y Hm); lra).
    rewrite set_cell_id. exact IHi. }
  rewrite Hin. exact IHo.
Qed.

Lemma tau_loop_rho_zero (lh la : R) (mg : nat) (m : Np.matrix) :
  nonneg_matrix m -> tau_loop lh la mg 0 m = m.
Proof. apply tau_fold_rho_zero. Qed.

(** With at least two goal counts per side the loop is four updates. *)
Lemma tau_loop_four (lh la : R) (mg : nat) (rho : R) (m : Np.matrix) :
  (1 <= mg)%nat ->
  tau_loop lh la mg rho m =
    let m1 := Np.set_cell m 0 0 (Rmax 0.0 (Np.cell m 0 0 * _tau 0 0 lh la rho)) in
    let m2 := Np.set_cell m1 0 1 (Rmax 0.0 (Np.cell m1 0 1 * _tau 0 1 lh la rho)) in
    let m3 := Np.set_cell m2 1 0 (Rmax 0.0 (Np.cell m2 1 0 * _tau 1 0 lh la rho)) in
    Np.set_cell m3 1 1 (Rmax 0.0 (Np.cell m3 1 1 * _tau 1 1 lh la rho)).
Proof.
  intros Hmg. unfold tau_loop.
  replace (Nat.min 2 (mg + 1)) with 2%nat by lia. reflexivity.
Qed.

Lemma tau_loop_one (lh la rho : R) (m : Np.matrix) :
  tau_loop lh la 0 rho m =
    Np.set_cell m 0 0 (Rmax 0.0 (Np.cell m 0 0 * _tau 0 0 lh la rho)).
Proof. reflexivity. Qed.

Lemma cell_scale_div (m : Np.matrix) (t : R) (x y : nat) :
  Np.cell (Np.scale_div m t) x y = Np.cell m x y / t.
Proof.
  unfold Np.cell, Np.scale_div.
  assert (Hrow : forall r : Np.vector, nth y (map (fun v => v / t) r) 0 = nth y r 0 / t).
  { intros r. revert y. induction r as [| a r IH]; intros [| y]; cbn [map nth];
      try (unfold Rdiv; ring). apply IH. }
  revert x. induction m as [| r m IH]; intros [| x]; cbn [map nth].
  - apply (Hrow []).
  - apply (Hrow []).
  - apply Hrow.
  - apply IH.
Qed.

Ltac cell_differs := solve [left; lia | right; lia].

Ltac cell_in_range lh la mg :=
  rewrite ?set_cell_row_length, ?set_cell_length;
  rewrite ?(raw_matrix_length lh la mg), ?(raw_matrix_row_length lh la mg) by lia;
  lia.

Ltac read_cells lh la mg :=
  repeat first
    [ rewrite cell_set_cell_other by cell_differs
    | rewrite cell_set_cell_same by cell_in_range lh la mg ].

(** C3. With at least two goal counts per side (the default is eleven)
    the correction multiplies exactly the four cells (0,0), (0,1),
    (1,0), (1,1) of the raw matrix by the tau factors and floors each
    at 0, leaves every other cell as it was, and then divides the whole
    matrix by its new total; when that total is 0 the division is
    skipped. *)
Theorem low_score_correction (lh la rho : R) (mg : nat) :
  (1 <= mg)%nat ->
  let raw := raw_matrix lh la mg in
  let cor := corrected_matrix lh la mg rho in
  let total := Np.msum cor in
  Np.cell cor 0 0 = Rmax 0 (Np.cell raw 0 0 * (1 - lh * la * rho)) /\
  Np.cell cor 0 1 = Rmax 0 (Np.cell raw 0 1 * (1 + lh * rho)) /\
  Np.cell cor 1 0 = Rmax 0 (Np.cell raw 1 0 * (1 + la * rho)) /\
  Np.cell cor 1 1 = Rmax 0 (Np.cell raw 1 1 * (1 - rho)) /\
  (forall x y, (2 <= x)%nat \/ (2 <= y)%nat -> Np.cell cor x y = Np.cell raw x y) /\
  (0 < total ->
   build_dc_matrix lh la mg rho = Np.scale_div cor total /\
   forall x y, Np.cell (build_dc_matrix lh la mg rho) x y = Np.cell cor x y / total) /\
  (total = 0 -> build_dc_matrix lh la mg rho = cor).
Proof.
  intros Hmg raw cor total.
  assert (Hcor : cor = tau_loop lh la mg rho raw) by reflexivity.
  rewrite tau_loop_four in Hcor by exact Hmg. cbv zeta in Hcor.
  replace 0.0 with 0 in Hcor by lra.
  repeat apply conj.
  - rewrite Hcor. unfold raw. read_cells lh la mg. reflexivity.
  - rewrite Hcor. unfold raw. read_cells lh la mg. reflexivity.
  - rewrite Hcor. unfold raw. read_cells lh la mg. reflexivity.
  - rewrite Hcor. unfold raw. read_cells lh la mg. reflexivity.
  - intros x y Hxy. rewrite Hcor.
    rewrite !cell_set_cell_other by (destruct Hxy; [left | right]; lia).
    reflexivity.
  - intros Ht.
    assert (Hb : build_dc_matrix lh la mg rho = Np.scale_div cor total).
    { rewrite build_dc_matrix_unfold. fold cor. fold total.
      destruct (Rlt_dec 0 total); [reflexivity | contradiction]. }
    split; [exact Hb |]. intros x y. rewrite Hb. apply cell_scale_div.
  - intros Ht. rewrite build_dc_matrix_unfold. fold cor. fold total.
    destruct (Rlt_dec 0 total); [lra | reflexivity].
Qed.

Lemma low_score_correction_witness :
  Np.cell (corrected_matrix 1.5 1.15 10 (-0.13)) 0 0
  = Rmax 0 (Np.cell (raw_matrix 1.5 1.15 10) 0 0 * (1 - 1.5 * 1.15 * (-0.13))).
Proof.
  assert (H : (1 <= 10)%nat) by lia.
  exact (proj1 (low_score_correction 1.5 1.15 (-0.13) 10 H)).
Defined.

Lemma corrected_cell_00 (lh la rho : R) (mg : nat) :
  Np.cell (corrected_matrix lh la mg rho) 0 0
  = Rmax 0 (Np.cell (raw_matrix lh la mg) 0 0 * (1 - lh * la * rho)).
Proof.
  unfold corrected_matrix. destruct mg as [| mg].
  - rewrite tau_loop_one. replace 0.0 with 0 by lra.
    read_cells lh la 0%nat. reflexivity.
  - rewrite tau_loop_four by lia. cbv zeta. replace 0.0 with 0 by lra.
    read_cells lh la (S mg). reflexivity.
Qed.

Lemma corrected_nonneg (lh la rho : R) (mg : nat) :
  nonneg_matrix (corrected_matrix lh la mg rho).
Proof. apply tau_loop_nonneg, raw_matrix_nonneg. Qed.

(** The corrected matrix keeps positive mass whenever the (0,0) factor
    is positive, in particular for non-negative rates and [rho <= 0]. *)
Lemma corrected_total_pos (lh la rho : R) (mg : nat) :
  0 <= lh -> 0 <= la -> rho <= 0 ->
  0 < Np.msum (corrected_matrix lh la mg rho).
Proof.
  intros Hh Ha Hr.
  apply Rlt_le_trans with (Np.cell (corrected_matrix lh la mg rho) 0 0);
    [| apply msum_ge_cell, corrected_nonneg].
  rewrite corrected_cell_00.
  pose proof (raw_cell_pos lh la mg 0 0 (Nat.le_0_l _) (Nat.le_0_l _)) as Hp.
  apply Rlt_le_trans with (Np.cell (raw_matrix lh la mg) 0 0 * (1 - lh * la * rho));
    [| apply Rmax_r].
  apply Rmult_lt_0_compat; [exact Hp |].
  assert (0 <= lh * la) by now apply Rmult_le_pos.
  nra.
Qed.

Lemma build_dc_matrix_normalized (lh la rho : R) (mg : nat) :
  0 < Np.msum (corrected_matrix lh la mg rho) ->
  nonneg_matrix (build_dc_matrix lh la mg rho) /\
  Np.msum (build_dc_matrix lh la mg rho) = 1.
Proof.
  intros Ht. rewrite build_dc_matrix_unfold.
  destruct (Rlt_dec 0 _) as [_ | Hn]; [| contradiction].
  split.
  - apply nonneg_scale_div; [exact Ht | apply corrected_nonneg].
  - rewrite msum_scale_div. field. lra.
Qed.

(** C2. For rates in [0.3, 6.0] and [rho] in [-0.5, 0] every entry of
    the matrix returned by [build_dc_matrix] is non-negative and the
    entries sum to exactly 1 in exact arithmetic, hence to 1 within
    1e-6. *)
Theorem dc_matrix_is_distribution (lh la rho : R) (mg : nat) :
  0.3 <= lh <= 6.0 -> 0.3 <= la <= 6.0 -> -0.5 <= rho <= 0 ->
  nonneg_matrix (build_dc_matrix lh la mg rho) /\
  Np.msum (build_dc_matrix lh la mg rho) = 1 /\
  Rabs (Np.msum (build_dc_matrix lh la mg rho) - 1) <= 1e-6.
Proof.
  intros Hh Ha Hr.
  destruct (build_dc_matrix_normalized lh la rho mg) as [Hn Hs].
  { apply corrected_total_pos; lra. }
  repeat split; [exact Hn | exact Hs |].
  rewrite Hs. replace (1 - 1) with 0 by ring. rewrite Rabs_R0. lra.
Qed.

Lemma dc_matrix_is_distribution_witness :
  nonneg_matrix (build_dc_matrix 1.50 1.15 10 (-0.13)) /\
  Np.msum (build_dc_matrix 1.50 1.15 10 (-0.13)) = 1 /\
  Rabs (Np.msum (build_dc_matrix 1.50 1.15 10 (-0.13)) - 1) <= 1e-6.
Proof.
  apply dc_matrix_is_distribution; lra.
Defined.

Lemma raw_total_bounds (lh la : R) (mg : nat) :
  0 < Np.msum (raw_matrix lh la mg) < 1.
Proof.
  unfold raw_matrix. rewrite msum_outer.
  pose proof (pmf_sum_bounds lh mg). pose proof (pmf_sum_bounds la mg). nra.
Qed.

Lemma build_dc_matrix_rho_zero (lh la : R) (mg : nat) :
  build_dc_matrix lh la mg 0
  = Np.scale_div (raw_matrix lh la mg) (Np.msum (raw_matrix lh la mg)).
Proof.
  rewrite build_dc_matrix_unfold. unfold corrected_matrix.
  rewrite tau_loop_rho_zero by apply raw_matrix_nonneg.
  pose proof (raw_total_bounds lh la mg) as [Hp _].
  destruct (Rlt_dec 0 _); [reflexivity | contradiction].
Qed.

Lemma rho_zero_cell_grows (lh la : R) (mg x y : nat) :
  (x <= mg)%nat -> (y <= mg)%nat ->
  Np.cell (raw_matrix lh la mg) x y < Np.cell (build_dc_matrix lh la mg 0) x y.
Proof.
  intros Hx Hy. rewrite build_dc_matrix_rho_zero, cell_scale_div.
  pose proof (raw_total_bounds lh la mg) as [Hp H1].
  pose proof (raw_cell_pos lh la mg x y Hx Hy) as Hc.
  set (c := Np.cell (raw_matrix lh la mg) x y) in *.
  set (t := Np.msum (raw_matrix lh la mg)) in *.
  apply Rmult_lt_reg_r with t; [exact Hp |].
  unfold Rdiv. rewrite Rmult_assoc, Rinv_l by lra. nra.
Qed.

(** C4, as the code has it. With [rho = 0] the tau loop changes no
    cell, and the matrix is still renormalized: the result is the raw
    independent-Poisson matrix divided by its total, which is the mass
    kept by the truncation at [max_goals] and lies strictly between 0
    and 1. Every returned cell is therefore the raw cell scaled by the
    same factor [1 / total > 1], and strictly larger than the raw
    cell. *)
Theorem rho_zero_renormalizes_raw (lh la : R) (mg : nat) :
  let raw := raw_matrix lh la mg in
  let total := Np.msum raw in
  corrected_matrix lh la mg 0 = raw /\
  0 < total < 1 /\
  build_dc_matrix lh la mg 0 = Np.scale_div raw total /\
  (forall x y, Np.cell (build_dc_matrix lh la mg 0) x y = Np.cell raw x y / total) /\
  (forall x y, (x <= mg)%nat -> (y <= mg)%nat ->
               Np.cell raw x y < Np.cell (build_dc_matrix lh la mg 0) x y).
Proof.
  intros raw total. repeat apply conj.
  - apply tau_loop_rho_zero, raw_matrix_nonneg.
  - apply raw_total_bounds.
  - apply raw_total_bounds.
  - apply build_dc_matrix_rho_zero.
  - intros x y. rewrite build_dc_matrix_rho_zero. apply cell_scale_div.
  - intros x y. apply rho_zero_cell_grows.
Qed.

Lemma rho_zero_renormalizes_raw_witness :
  Np.cell (raw_matrix 1.50 1.15 10) 0 0
  < Np.cell (build_dc_matrix 1.50 1.15 10 0) 0 0.
Proof.
  destruct (rho_zero_renormalizes_raw 1.50 1.15 10) as (_ & _ & _ & _ & H).
  apply H; lia.
Defined.

(** C4 as stated fails: for the rates 1.50 and 1.15, the default
    eleven goal counts and [rho = 0], the returned matrix is not the
    raw outer-product matrix; already the cell (0,0) differs. *)
Lemma rho_zero_not_raw :
  build_dc_matrix 1.50 1.15 10 0 <> raw_matrix 1.50 1.15 10 /\
  Np.cell (build_dc_matrix 1.50 1.15 10 0) 0 0
  <> Np.cell (raw_matrix 1.50 1.15 10) 0 0.
Proof.
  assert (H : Np.cell (raw_matrix 1.50 1.15 10) 0 0
              < Np.cell (build_dc_matrix 1.50 1.15 10 0) 0 0)
    by (apply rho_zero_cell_grows; lia).
  split.
  - intros Heq. rewrite Heq in H. lra.
  - lra.
Qed.

End DixonColes.

(** ** The rate builder *)

Section Rates.

Lemma clipped_rates_bounds (home away : TeamStats) (w : WeatherData) (nf : bool) :
  0.3 <= fst (clipped_rates home away w nf) <= 6.0 /\
  0.3 <= snd (clipped_rates home away w nf) <= 6.0.
Proof.
  unfold clipped_rates. cbn [fst snd]. split; apply clip_bounds; lra.
Qed.

Lemma h2h_nudge_cases (h2h : Py.Dict) (c : R * R) :
  let matches := Py.get h2h "matches" 0 in
  let rate := Py.get h2h "home_win_pct" 50 / 100.0 in
  (3 <= matches -> 0.55 < rate ->
   h2h_nudge h2h c = (fst c * 1.12, snd c * 0.94)) /\
  (3 <= matches -> rate < 0.35 ->
   h2h_nudge h2h c = (fst c * 0.88, snd c * 1.06)) /\
  (matches < 3 \/ 0.35 <= rate <= 0.55 -> h2h_nudge h2h c = c).
Proof.
  intros matches rate. unfold h2h_nudge. destruct c as [ch ca]. cbn [fst snd].
  fold matches. fold rate.
  destruct (Rle_dec 3 matches) as [Hm | Hm];
    [destruct (Rlt_dec 0.55 rate) as [Hhi | Hhi];
       [| destruct (Rlt_dec rate 0.35) as [Hlo | Hlo]] |];
    repeat split; intros; try lra; try (f_equal; lra);
    try (destruct H; lra).
Qed.

Lemma h2h_nudge_bounds (h2h : Py.Dict) (c : R * R) :
  0.3 <= fst c <= 6.0 -> 0.3 <= snd c <= 6.0 ->
  0.264 <= fst (h2h_nudge h2h c) <= 6.72 /\
  0.282 <= snd (h2h_nudge h2h c) <= 6.36.
Proof.
  intros Hh Ha. unfold h2h_nudge. destruct c as [ch ca]. cbn [fst snd] in *.
  destruct (Rle_dec 3 _); [destruct (Rlt_dec 0.55 _); [| destruct (Rlt_dec _ 0.35)] |];
    cbn [fst snd]; lra.
Qed.

Lemma calculate_poisson_rates (home away : TeamStats) (w : WeatherData)
    (h2h : Py.Dict) (nf : bool) :
  exists p,
    calculate_poisson home away w h2h nf = Py.Ok p /\
    lambda_h p = Py.round (fst (poisson_rates home away w h2h nf)) 2 /\
    lambda_a p = Py.round (snd (poisson_rates home away w h2h nf)) 2.
Proof.
  unfold calculate_poisson.
  destruct (poisson_rates home away w h2h nf) as [lh la].
  rewrite outcome_triple_eq. cbn [Py.bind].
  eexists. split; [reflexivity |]. cbn. auto.
Qed.

Lemma round2_values :
  Py.round 0.264 2 = 0.26 /\ Py.round 6.72 2 = 6.72 /\
  Py.round 0.282 2 = 0.28 /\ Py.round 6.36 2 = 6.36 /\
  Py.round 0.3 2 = 0.3 /\ Py.round 6.0 2 = 6.
Proof.
  repeat split.
  - rewrite (round_eq _ 2 26) by lra. lra.
  - rewrite (round_eq _ 2 672) by lra. lra.
  - rewrite (round_eq _ 2 28) by lra. lra.
  - rewrite (round_eq _ 2 636) by lra. lra.
  - rewrite (round_eq _ 2 30) by lra. lra.
  - rewrite (round_eq _ 2 600) by lra. lra.
Qed.

Lemma poisson_rates_bounds (home away : TeamStats) (w : WeatherData)
    (h2h : Py.Dict) (nf : bool) :
  0.264 <= fst (poisson_rates home away w h2h nf) <= 6.72 /\
  0.282 <= snd (poisson_rates home away w h2h nf) <= 6.36.
Proof.
  unfold poisson_rates.
  apply h2h_nudge_bounds; apply clipped_rates_bounds.
Qed.

Lemma returned_rates_bounds (home away : TeamStats) (w : WeatherData)
    (h2h : Py.Dict) (nf : bool) :
  exists p,
    calculate_poisson home away w h2h nf = Py.Ok p /\
    lambda_h p = Py.round (fst (poisson_rates home away w h2h nf)) 2 /\
    lambda_a p = Py.round (snd (poisson_rates home away w h2h nf)) 2 /\
    0.26 <= lambda_h p <= 6.72 /\
    0.28 <= lambda_a p <= 6.36.
Proof.
  destruct (calculate_poisson_rates home away w h2h nf) as (p & Hp & Hlh & Hla).
  pose proof (poisson_rates_bounds home away w h2h nf) as [Hrh Hra].
  destruct round2_values as (R1 & R2 & R3 & R4 & _).
  exists p. repeat apply conj; try assumption.
  - rewrite Hlh, <- R1. apply round_mono. tauto.
  - rewrite Hlh, <- R2. apply round_mono. tauto.
  - rewrite Hla, <- R3. apply round_mono. tauto.
  - rewrite Hla, <- R4. apply round_mono. tauto.
Qed.

(** C1, as the code has it. The product of the multiplicative steps is
    clipped to [0.3, 6.0], and the head-to-head nudge is applied after
    the clip: with at least 3 meetings, a home-win rate above 55%
    multiplies the home rate by 1.12 and the away rate by 0.94, a rate
    below 35% multiplies them by 0.88 and 1.06, and otherwise the
    clipped rates are kept. The rates therefore lie in [0.3, 6.0] when
    the nudge does not fire, and in general the home rate lies in
    [0.264, 6.72] and the away rate in [0.282, 6.36]; the returned
    fields are these rates rounded to two decimals. *)
Theorem rates_clipped_then_nudged (home away : TeamStats) (w : WeatherData)
    (h2h : Py.Dict) (nf : bool) :
  let c := clipped_rates home away w nf in
  let r := poisson_rates home away w h2h nf in
  let matches := Py.get h2h "matches" 0 in
  let rate := Py.get h2h "home_win_pct" 50 / 100.0 in
  (0.3 <= fst c <= 6.0 /\ 0.3 <= snd c <= 6.0) /\
  (3 <= matches -> 0.55 < rate -> r = (fst c * 1.12, snd c * 0.94)) /\
  (3 <= matches -> rate < 0.35 -> r = (fst c * 0.88, snd c * 1.06)) /\
  (matches < 3 \/ 0.35 <= rate <= 0.55 -> r = c) /\
  (0.264 <= fst r <= 6.72 /\ 0.282 <= snd r <= 6.36) /\
  exists p,
    calculate_poisson home away w h2h nf = Py.Ok p /\
    lambda_h p = Py.round (fst r) 2 /\
    lambda_a p = Py.round (snd r) 2 /\
    0.26 <= lambda_h p <= 6.72 /\
    0.28 <= lambda_a p <= 6.36 /\
    (matches < 3 \/ 0.35 <= rate <= 0.55 ->
     0.3 <= lambda_h p <= 6.0 /\ 0.3 <= lambda_a p <= 6.0).
Proof.
  intros c r matches rate.
  pose proof (clipped_rates_bounds home away w nf) as [Hch Hca].
  fold c in Hch, Hca.
  destruct (h2h_nudge_cases h2h c) as (Hup & Hdown & Hkeep).
  fold matches in Hup, Hdown, Hkeep. fold rate in Hup, Hdown, Hkeep.
  pose proof (h2h_nudge_bounds h2h c Hch Hca) as [Hrh Hra].
  change (h2h_nudge h2h c) with r in Hup, Hdown, Hkeep, Hrh, Hra.
  destruct round2_values as (R1 & R2 & R3 & R4 & R5 & R6).
  repeat apply conj; try assumption; try tauto.
  destruct (returned_rates_bounds home away w h2h nf)
    as (p & Hp & Hlh & Hla & Bh & Ba).
  fold r in Hlh, Hla.
  exists p. repeat apply conj; try assumption; try tauto.
  intros Hk. rewrite Hlh, Hla, (Hkeep Hk).
  repeat split.
  - rewrite <- R5. apply round_mono. tauto.
  - apply Rle_trans with (Py.round 6.0 2); [apply round_mono; tauto | lra].
  - rewrite <- R5. apply round_mono. tauto.
  - apply Rle_trans with (Py.round 6.0 2); [apply round_mono; tauto | lra].
Qed.

Lemma rates_clipped_then_nudged_witness :
  poisson_rates default_team default_team default_weather h2h_home_dominant false
  = (fst (clipped_rates default_team default_team default_weather false) * 1.12,
     snd (clipped_rates default_team default_team default_weather false) * 0.94).
Proof.
  destruct (rates_clipped_then_nudged default_team default_team default_weather
              h2h_home_dominant false) as (_ & Hup & _).
  apply Hup; cbn; lra.
Defined.

Lemma strong_home_clipped :
  clipped_rates strong_home leaky_away default_weather true = (6.0, 98 / 75).
Proof.
  unfold clipped_rates, _elo_expected_home, _form_adjustment,
    _LEAGUE_AVG_HOME, _LEAGUE_AVG_AWAY.
  cbn [elo form_score avg_goals_scored avg_goals_conceded strong_home leaky_away].
  replace ((1600.0 - 1500.0 - 100) / 400) with 0 by lra.
  rewrite Rpower_O by lra.
  rewrite !Rmax_left by lra.
  unfold Py.clip. f_equal.
  - rewrite Rmax_left by lra. apply Rmin_right. lra.
  - rewrite Rmax_left by lra. rewrite Rmin_left by lra. lra.
Qed.

(** C1 as stated fails: the nudge is applied after the clip. For a home
    side scoring 3.0 against an away side conceding 3.0 on a neutral
    field, with three meetings and a 60% home-win rate, the home rate
    is clipped to 6.0 and then raised to 6.72, which is the returned
    [lambda_h]. *)
Lemma home_rate_exceeds_clip :
  poisson_rates strong_home leaky_away default_weather h2h_home_dominant true
  = (6.0 * 1.12, 98 / 75 * 0.94) /\
  exists p,
    calculate_poisson strong_home leaky_away default_weather h2h_home_dominant true
    = Py.Ok p /\
    lambda_h p = 6.72 /\
    ~ (0.3 <= lambda_h p <= 6.0).
Proof.
  assert (Hr : poisson_rates strong_home leaky_away default_weather
                 h2h_home_dominant true = (6.0 * 1.12, 98 / 75 * 0.94)).
  { unfold poisson_rates. rewrite strong_home_clipped.
    destruct (h2h_nudge_cases h2h_home_dominant (6.0, 98 / 75)) as (Hup & _).
    apply Hup; cbn; lra. }
  split; [exact Hr |].
  destruct (calculate_poisson_rates strong_home leaky_away default_weather
              h2h_home_dominant true) as (p & Hp & Hlh & _).
  exists p. split; [exact Hp |].
  rewrite Hr in Hlh. cbn [fst] in Hlh.
  rewrite (round_eq _ 2 672) in Hlh by lra.
  rewrite Hlh. split; lra.
Qed.

End Rates.

(** ** The classifier *)

Section Classifier.

Lemma try_except_total {A : Type} (c : Py.exc A) (a : A) :
  exists r, Py.try_except c (Py.Ok a) = Py.Ok r.
Proof. destruct c; cbn; eauto. Qed.

Lemma predict_total (ml : MatchPredictor) (feats : list R) :
  exists r, predict ml feats = Py.Ok r.
Proof.
  unfold predict. destruct (bundle ml) as [b |]; [| eauto].
  destruct (negb (is_trained ml)); [eauto |].
  apply try_except_total.
Qed.

Lemma predict_absorbs_raise (b : Bundle) (feats : list R) (e : string) :
  predict_body b feats = Py.Raise e ->
  predict {| bundle := Some b; is_trained := true |} feats = Py.Ok None.
Proof.
  intros H. unfold predict. cbn. now rewrite H.
Qed.

Lemma mem_in (c : Z) (l : list Z) : Py.mem c l = true <-> In c l.
Proof.
  unfold Py.mem. rewrite existsb_exists. split.
  - intros (x & Hx & He). apply Z.eqb_eq in He. now subst.
  - intros H. exists c. split; [exact H | apply Z.eqb_refl].
Qed.

Lemma index_of_first (l : list Z) (c : Z) (i : nat) :
  nth_error l i = Some c ->
  (forall j, (j < i)%nat -> nth_error l j <> Some c) ->
  Py.index_of l c = Py.Ok i.
Proof.
  revert i. induction l as [| x l IH]; intros [| i] Hi Hfirst; cbn in *;
    try discriminate.
  - injection Hi as ->. now rewrite Z.eqb_refl.
  - destruct (Z.eqb_spec x c) as [-> | Hne].
    + exfalso. apply (Hfirst 0%nat); [lia | reflexivity].
    + rewrite (IH i Hi); [reflexivity |].
      intros j Hj. apply (Hfirst (S j)). lia.
Qed.

Lemma class_prob_reads (row : list R) (classes : list Z) (c : Z) (v : R) :
  reads_class row classes c v -> class_prob row classes c = Py.Ok v.
Proof.
  unfold class_prob. intros [[Hnot ->] | (i & Hi & Hfirst & Hv)].
  - destruct (Py.mem c classes) eqn:Hm; [| reflexivity].
    apply mem_in in Hm. contradiction.
  - assert (Hm : Py.mem c classes = true) by (apply mem_in; eapply nth_error_In; eauto).
    rewrite Hm, (index_of_first classes c i Hi Hfirst). cbn.
    unfold Py.index. now rewrite Hv.
Qed.

Lemma index_of_inv (l : list Z) (c : Z) (i : nat) :
  Py.index_of l c = Py.Ok i ->
  nth_error l i = Some c /\
  (forall j, (j < i)%nat -> nth_error l j <> Some c).
Proof.
  revert i. induction l as [| x l IH]; intros i H; cbn in H; [discriminate |].
  destruct (Z.eqb_spec x c) as [-> | Hne].
  - injection H as <-. split; [reflexivity | intros j Hj; lia].
  - destruct (Py.index_of l c) as [k |]; cbn in H; [| discriminate].
    injection H as <-. destruct (IH k eq_refl) as [Hk Hfirst].
    split; [exact Hk |].
    intros [| j] Hj; cbn; [congruence | apply Hfirst; lia].
Qed.

Lemma class_prob_inv (row : list R) (classes : list Z) (c : Z) (v : R) :
  class_prob row classes c = Py.Ok v -> reads_class row classes c v.
Proof.
  unfold class_prob. destruct (Py.mem c classes) eqn:Hm.
  - destruct (Py.index_of classes c) as [i |] eqn:Hi; cbn; [| discriminate].
    destruct (index_of_inv classes c i Hi) as [Hc Hfirst].
    unfold Py.index. destruct (nth_error row i) as [w |] eqn:Hw; [| discriminate].
    intros H. injection H as <-. right. exists i. auto.
  - intros H. injection H as <-. left. split; [| reflexivity].
    intros Hin. apply mem_in in Hin. congruence.
Qed.

(** Looking a class up raises only when its first position lies outside
    the row. *)
Lemma class_prob_raises (row : list R) (classes : list Z) (c : Z) (e : string) :
  class_prob row classes c = Py.Raise e -> e = "IndexError".
Proof.
  unfold class_prob. destruct (Py.mem c classes) eqn:Hm; [| discriminate].
  destruct (Py.index_of classes c) as [i |] eqn:Hi; cbn.
  - unfold Py.index. destruct (nth_error row i); [discriminate |].
    intros H. now injection H as <-.
  - exfalso. apply mem_in in Hm. clear - Hm Hi.
    induction classes as [| x l IH]; [contradiction |].
    cbn in Hi. destruct (Z.eqb_spec x c) as [-> | Hne]; [discriminate |].
    destruct Hm as [-> | Hin]; [congruence |].
    destruct (Py.index_of l c); [discriminate | now apply IH].
Qed.

Lemma class_prob_outside (row : list R) (classes : list Z) (c : Z) (i : nat) :
  nth_error classes i = Some c ->
  (forall j, (j < i)%nat -> nth_error classes j <> Some c) ->
  (length row <= i)%nat ->
  class_prob row classes c = Py.Raise "IndexError".
Proof.
  intros Hi Hfirst Hlen. unfold class_prob.
  assert (Hm : Py.mem c classes = true) by (apply mem_in; eapply nth_error_In; eauto).
  rewrite Hm, (index_of_first classes c i Hi Hfirst). cbn.
  unfold Py.index. apply nth_error_None in Hlen. now rewrite Hlen.
Qed.

(** The [try] block after the estimator has answered with a first row. *)
Lemma predict_body_row (b : Bundle) (m : Estimator) (feats : list R)
    (X : list (list R)) (row : list R) (rest : list (list R)) :
  scaled_input b feats = Py.Ok X -> model b = Some m ->
  predict_proba m X = Py.Ok (row :: rest) ->
  predict_body b feats =
    (away <- class_prob row (class_list m) 0 ;;
     drw <- class_prob row (class_list m) 1 ;;
     home <- class_prob row (class_list m) 2 ;;
     Py.Ok (Some (ml_dict home drw away))).
Proof.
  intros Hs Hm Hp. unfold predict_body. fold (scaled_input b feats).
  rewrite Hs, Hm. cbn [Py.bind]. rewrite Hp. reflexivity.
Qed.

Lemma body_raises_when_scaler_raises (b : Bundle) (feats : list R) (e : string) :
  scaled_input b feats = Py.Raise e -> predict_body b feats = Py.Raise e.
Proof.
  intros Hs. unfold predict_body. fold (scaled_input b feats). now rewrite Hs.
Qed.

Lemma body_raises_without_model (b : Bundle) (feats : list R) (X : list (list R)) :
  scaled_input b feats = Py.Ok X -> model b = None ->
  predict_body b feats = Py.Raise "AttributeError".
Proof.
  intros Hs Hm. unfold predict_body. fold (scaled_input b feats). now rewrite Hs, Hm.
Qed.

Lemma body_raises_when_estimator_raises (b : Bundle) (m : Estimator)
    (feats : list R) (X : list (list R)) (e : string) :
  scaled_input b feats = Py.Ok X -> model b = Some m ->
  predict_proba m X = Py.Raise e ->
  predict_body b feats = Py.Raise e.
Proof.
  intros Hs Hm He. unfold predict_body. fold (scaled_input b feats).
  rewrite Hs, Hm. cbn. now rewrite He.
Qed.

Lemma body_raises_on_no_rows (b : Bundle) (m : Estimator) (feats : list R)
    (X : list (list R)) :
  scaled_input b feats = Py.Ok X -> model b = Some m ->
  predict_proba m X = Py.Ok [] ->
  predict_body b feats = Py.Raise "IndexError".
Proof.
  intros Hs Hm He. unfold predict_body. fold (scaled_input b feats).
  rewrite Hs, Hm. cbn. now rewrite He.
Qed.

Lemma body_raises_on_short_row (b : Bundle) (m : Estimator) (feats : list R)
    (X : list (list R)) (row : list R) (rest : list (list R)) (c : Z) (i : nat) :
  scaled_input b feats = Py.Ok X -> model b = Some m ->
  predict_proba m X = Py.Ok (row :: rest) ->
  In c [0; 1; 2]%Z ->
  nth_error (class_list m) i = Some c ->
  (forall j, (j < i)%nat -> nth_error (class_list m) j <> Some c) ->
  (length row <= i)%nat ->
  predict_body b feats = Py.Raise "IndexError".
Proof.
  intros Hs Hm Hp Hc Hi Hfirst Hlen.
  rewrite (predict_body_row b m feats X row rest Hs Hm Hp).
  pose proof (class_prob_outside row (class_list m) c i Hi Hfirst Hlen) as Hout.
  destruct (class_prob row (class_list m) 0) as [a |e0] eqn:H0; cbn [Py.bind];
    [| now rewrite (class_prob_raises _ _ _ _ H0)].
  destruct (class_prob row (class_list m) 1) as [d |e1] eqn:H1; cbn [Py.bind];
    [| now rewrite (class_prob_raises _ _ _ _ H1)].
  destruct (class_prob row (class_list m) 2) as [h |e2] eqn:H2; cbn [Py.bind];
    [| now rewrite (class_prob_raises _ _ _ _ H2)].
  exfalso. destruct Hc as [<- | [<- | [<- | []]]]; congruence.
Qed.

(** The [try] block yields an opinion exactly when the scaler and the
    estimator answer, the answer has a first row, and each of the
    labels 0, 1 and 2 is either not listed or listed first at a
    position inside that row. *)
Lemma predict_body_opinion (b : Bundle) (feats : list R) (d : Py.Dict) :
  predict_body b feats = Py.Ok (Some d) <->
  exists X m row rest a dr h,
    scaled_input b feats = Py.Ok X /\ model b = Some m /\
    predict_proba m X = Py.Ok (row :: rest) /\
    reads_class row (class_list m) 0 a /\
    reads_class row (class_list m) 1 dr /\
    reads_class row (class_list m) 2 h /\
    d = ml_dict h dr a.
Proof.
  split.
  - intros H.
    destruct (scaled_input b feats) as [X | e] eqn:Hs;
      [| rewrite (body_raises_when_scaler_raises b feats e Hs) in H; discriminate].
    destruct (model b) as [m |] eqn:Hm;
      [| rewrite (body_raises_without_model b feats X Hs Hm) in H; discriminate].
    destruct (predict_proba m X) as [[| row rest] | e] eqn:Hp.
    + rewrite (body_raises_on_no_rows b m feats X Hs Hm Hp) in H. discriminate.
    + rewrite (predict_body_row b m feats X row rest Hs Hm Hp) in H.
      destruct (class_prob row (class_list m) 0) as [a |] eqn:H0; cbn [Py.bind] in H;
        [| discriminate].
      destruct (class_prob row (class_list m) 1) as [dr |] eqn:H1; cbn [Py.bind] in H;
        [| discriminate].
      destruct (class_prob row (class_list m) 2) as [h |] eqn:H2; cbn [Py.bind] in H;
        [| discriminate].
      injection H as <-.
      exists X, m, row, rest, a, dr, h.
      repeat split; try assumption; now apply class_prob_inv.
    + rewrite (body_raises_when_estimator_raises b m feats X e Hs Hm Hp) in H.
      discriminate.
  - intros (X & m & row & rest & a & dr & h & Hs & Hm & Hp & Ha & Hd & Hh & ->).
    rewrite (predict_body_row b m feats X row rest Hs Hm Hp).
    rewrite (class_prob_reads _ _ _ _ Ha). cbn [Py.bind].
    rewrite (class_prob_reads _ _ _ _ Hd). cbn [Py.bind].
    now rewrite (class_prob_reads _ _ _ _ Hh).
Qed.

Lemma predict_opinion (ml : MatchPredictor) (feats : list R) (d : Py.Dict) :
  predict ml feats = Py.Ok (Some d) <->
  is_trained ml = true /\
  exists b, bundle ml = Some b /\ predict_body b feats = Py.Ok (Some d).
Proof.
  unfold predict. split.
  - destruct (bundle ml) as [b |]; [| discriminate].
    destruct (is_trained ml); cbn [negb]; [| discriminate].
    intros H. split; [reflexivity |]. exists b. split; [reflexivity |].
    destruct (predict_body b feats) as [[d' |] | e]; cbn in H; congruence.
  - intros (Ht & b & Hb & Hd). rewrite Hb, Ht, Hd. reflexivity.
Qed.

End Classifier.

(** ** Sums of the reported triples *)

Section TripleSums.

Lemma apply_dc_correction_sum (p p' : PoissonResult) (m : Np.matrix) :
  triple_total m <> 0 ->
  _apply_dc_correction p m = Py.Ok p' ->
  Rabs (base_sum p' - 1) <= 1 / 10000.
Proof.
  intros Ht H. unfold _apply_dc_correction in H.
  rewrite outcome_triple_eq in H. cbn in H. injection H as <-.
  unfold base_sum. cbn [home_win draw away_win].
  rewrite (or_else_keep _ _ Ht).
  apply round4_sum_one. unfold triple_total in *. field. exact Ht.
Qed.

Lemma ensemble_sum (p : PoissonResult) (mlp : Py.Dict) (f : FinalProbs) :
  blend_total p mlp <> 0 ->
  _ensemble p (Some mlp) = Py.Ok f ->
  Rabs (final_sum f - 1) <= 1 / 10000.
Proof.
  intros Ht H. rewrite ensemble_eq in H. injection H as <-.
  unfold final_sum. cbn [final_home_win final_draw final_away_win].
  rewrite (or_else_keep _ _ Ht).
  apply round4_sum_one. unfold blend_total in *. field. exact Ht.
Qed.

Lemma ensemble_passthrough (p : PoissonResult) (f : FinalProbs) :
  _ensemble p None = Py.Ok f ->
  final_home_win f = home_win p /\ final_draw f = draw p /\
  final_away_win f = away_win p /\ source f = "poisson+dc".
Proof.
  intros H. cbn in H. injection H as <-. cbn. auto.
Qed.

Lemma dc_triple_total (lh la : R) (mg : nat) (rho : R) :
  0 <= lh -> 0 <= la -> rho <= 0 ->
  triple_total (build_dc_matrix lh la mg rho) = 1.
Proof.
  intros Hh Ha Hr. unfold triple_total. rewrite outcome_sums_partition.
  apply build_dc_matrix_normalized, corrected_total_pos; assumption.
Qed.

Lemma blend_total_pos (p : PoissonResult) (mlp : Py.Dict) :
  Rabs (base_sum p - 1) <= 1 / 10000 ->
  0 <= Py.get mlp "home_win" 0.33 ->
  0 <= Py.get mlp "draw" 0.33 ->
  0 <= Py.get mlp "away_win" 0.33 ->
  0 < blend_total p mlp.
Proof.
  intros Hb Hh Hd Ha. apply Rabs_le_bounds in Hb.
  unfold blend_total, blend_home, blend_draw, blend_away, base_sum in *. lra.
Qed.

End TripleSums.

(** ** The evaluation as a whole *)

Section Pipeline.

Variables (ml : MatchPredictor) (home_stats away_stats : TeamStats).
Variables (weather_data : WeatherData) (h2h : Py.Dict) (neutral_field : bool).
Variables (xg_home xg_away : Py.Dict) (fatigue_home fatigue_away importance : R).

Local Notation "'run'" :=
  (analyze_match ml home_stats away_stats weather_data h2h neutral_field
     xg_home xg_away fatigue_home fatigue_away importance) (only parsing).

Local Notation "'features_of' p" :=
  (build_features (lambda_h p) (lambda_a p) (elo home_stats) (elo away_stats)
     (form_score home_stats) (form_score away_stats) xg_home xg_away
     weather_data h2h fatigue_home fatigue_away importance)
  (at level 10, p at level 9, only parsing).

(** The evaluation never raises, and its result is assembled from the
    results of its steps. *)
Lemma analyze_match_steps :
  exists p0 p1 mlp f,
    calculate_poisson home_stats away_stats weather_data h2h neutral_field = Py.Ok p0 /\
    0.26 <= lambda_h p0 <= 6.72 /\ 0.28 <= lambda_a p0 <= 6.36 /\
    _apply_dc_correction p0
      (build_dc_matrix (lambda_h p0) (lambda_a p0) 10 (-0.13)) = Py.Ok p1 /\
    (if is_trained ml then predict ml (features_of p1) else Py.Ok None) = Py.Ok mlp /\
    _ensemble p1 mlp = Py.Ok f /\
    run = Py.Ok {| poisson_of := p1;
                   final_probs := f;
                   ml_used := match mlp with Some _ => true | None => false end;
                   confidence := fst (confidence_level p1);
                   confidence_label := snd (confidence_level p1) |}.
Proof.
  destruct (returned_rates_bounds home_stats away_stats weather_data h2h neutral_field)
    as (p0 & Hp0 & _ & _ & Bh & Ba).
  destruct (apply_dc_correction_total p0
              (build_dc_matrix (lambda_h p0) (lambda_a p0) 10 (-0.13)))
    as [p1 Hp1].
  assert (Hml : exists mlp,
             (if is_trained ml then predict ml (features_of p1) else Py.Ok None)
             = Py.Ok mlp).
  { destruct (is_trained ml); [apply predict_total | eauto]. }
  destruct Hml as [mlp Hmlp].
  destruct (ensemble_total p1 mlp) as [f Hf].
  exists p0, p1, mlp, f. repeat apply conj; try assumption; try tauto.
  unfold analyze_match. rewrite Hp0. cbn [Py.bind]. rewrite Hp1. cbn [Py.bind].
  rewrite Hmlp. cbn [Py.bind]. rewrite Hf. cbn [Py.bind].
  destruct (confidence_level p1). reflexivity.
Qed.

(** C8, as the code has it. The prediction step never raises. It
    yields an opinion exactly when the predictor is trained and has a
    bundle, the scaler and the estimator answer, the answer has a first
    row, and each of the labels 0, 1 and 2 is either not listed by the
    estimator (then 0.33 stands for it) or listed first at a position
    inside that row; in every other state it yields [None]: untrained,
    no bundle, an exception raised by the scaler or the estimator, a
    bundle without an estimator, an answer with no row, a listed label
    whose position lies outside the row. An answer of the wrong shape
    that can be read in this way is an opinion, not a failure. The
    evaluation always completes, on the matrix-derived result of the
    correction step; with [None] its final triple is the triple of that
    result, tagged poisson+dc, and with an opinion it is the blend. *)
Theorem classifier_failure_never_aborts :
  (exists p0 p1 mlp a,
      calculate_poisson home_stats away_stats weather_data h2h neutral_field
      = Py.Ok p0 /\
      _apply_dc_correction p0
        (build_dc_matrix (lambda_h p0) (lambda_a p0) 10 (-0.13)) = Py.Ok p1 /\
      (if is_trained ml then predict ml (features_of p1) else Py.Ok None)
      = Py.Ok mlp /\
      run = Py.Ok a /\
      poisson_of a = p1 /\
      _ensemble p1 mlp = Py.Ok (final_probs a) /\
      ml_used a = (match mlp with Some _ => true | None => false end) /\
      (mlp = None ->
       final_home_win (final_probs a) = home_win p1 /\
       final_draw (final_probs a) = draw p1 /\
       final_away_win (final_probs a) = away_win p1 /\
       source (final_probs a) = "poisson+dc")) /\
  (forall feats, exists r, predict ml feats = Py.Ok r) /\
  (forall feats d,
      predict ml feats = Py.Ok (Some d) <->
      is_trained ml = true /\
      exists b X m row rest a dr h,
        bundle ml = Some b /\
        scaled_input b feats = Py.Ok X /\ model b = Some m /\
        predict_proba m X = Py.Ok (row :: rest) /\
        reads_class row (class_list m) 0 a /\
        reads_class row (class_list m) 1 dr /\
        reads_class row (class_list m) 2 h /\
        d = ml_dict h dr a) /\
  (is_trained ml = false -> forall feats, predict ml feats = Py.Ok None) /\
  (bundle ml = None -> forall feats, predict ml feats = Py.Ok None) /\
  (forall b feats e,
      bundle ml = Some b -> predict_body b feats = Py.Raise e ->
      predict ml feats = Py.Ok None) /\
  (forall b feats e,
      scaled_input b feats = Py.Raise e -> predict_body b feats = Py.Raise e) /\
  (forall b feats X,
      scaled_input b feats = Py.Ok X -> model b = None ->
      predict_body b feats = Py.Raise "AttributeError") /\
  (forall b m feats X e,
      scaled_input b feats = Py.Ok X -> model b = Some m ->
      predict_proba m X = Py.Raise e ->
      predict_body b feats = Py.Raise e) /\
  (forall b m feats X,
      scaled_input b feats = Py.Ok X -> model b = Some m ->
      predict_proba m X = Py.Ok [] ->
      predict_body b feats = Py.Raise "IndexError") /\
  (forall b m feats X row rest c i,
      scaled_input b feats = Py.Ok X -> model b = Some m ->
      predict_proba m X = Py.Ok (row :: rest) ->
      In c [0; 1; 2]%Z ->
      nth_error (class_list m) i = Some c ->
      (forall j, (j < i)%nat -> nth_error (class_list m) j <> Some c) ->
      (length row <= i)%nat ->
      predict_body b feats = Py.Raise "IndexError").
Proof.
  destruct analyze_match_steps
    as (p0 & p1 & mlp & f & Hp0 & _ & _ & Hp1 & Hml & Hf & Hrun).
  repeat apply conj.
  - exists p0, p1, mlp. eexists.
    split; [exact Hp0 |]. split; [exact Hp1 |]. split; [exact Hml |].
    split; [exact Hrun |]. cbn [poisson_of final_probs ml_used].
    split; [reflexivity |]. split; [exact Hf |]. split; [reflexivity |].
    intros ->. exact (ensemble_passthrough p1 f Hf).
  - intros feats. apply predict_total.
  - intros feats d. split.
    + intros Hd. apply predict_opinion in Hd. destruct Hd as (Ht & b & Hb & Hbody).
      split; [exact Ht |].
      apply predict_body_opinion in Hbody.
      destruct Hbody as (X & m & row & rest & a & dr & h & Hrest).
      exists b, X, m, row, rest, a, dr, h. tauto.
    + intros (Ht & b & X & m & row & rest & a & dr & h & Hb & Hrest).
      apply predict_opinion. split; [exact Ht |]. exists b. split; [exact Hb |].
      apply predict_body_opinion. exists X, m, row, rest, a, dr, h. exact Hrest.
  - intros Ht feats. unfold predict. rewrite Ht.
    destruct (bundle ml); reflexivity.
  - intros Hb feats. unfold predict. now rewrite Hb.
  - intros b feats e Hb He. unfold predict. rewrite Hb, He.
    destruct (negb (is_trained ml)); reflexivity.
  - apply body_raises_when_scaler_raises.
  - apply body_raises_without_model.
  - apply body_raises_when_estimator_raises.
  - apply body_raises_on_no_rows.
  - apply body_raises_on_short_row.
Qed.

(** C7, as the code has it. Each reported triple is a renormalized
    triple whose components are then rounded to four decimals, so its
    sum is 1 up to one unit in the fourth decimal: within 1e-4 of 1,
    for the base triple of every evaluation and for the final triple
    whenever the classifier's probabilities are non-negative (or no
    classifier result is blended in). *)
Theorem outcome_triples_sum_within_rounding :
  (forall p p' m,
      triple_total m <> 0 -> _apply_dc_correction p m = Py.Ok p' ->
      Rabs (base_sum p' - 1) <= 1 / 10000) /\
  (forall p mlp f,
      blend_total p mlp <> 0 -> _ensemble p (Some mlp) = Py.Ok f ->
      Rabs (final_sum f - 1) <= 1 / 10000) /\
  (exists a mlp,
      run = Py.Ok a /\
      (if is_trained ml then predict ml (features_of (poisson_of a)) else Py.Ok None)
      = Py.Ok mlp /\
      Rabs (base_sum (poisson_of a) - 1) <= 1 / 10000 /\
      match mlp with
      | None => Rabs (final_sum (final_probs a) - 1) <= 1 / 10000
      | Some d =>
          0 <= Py.get d "home_win" 0.33 ->
          0 <= Py.get d "draw" 0.33 ->
          0 <= Py.get d "away_win" 0.33 ->
          Rabs (final_sum (final_probs a) - 1) <= 1 / 10000
      end).
Proof.
  split; [intros p p' m; apply apply_dc_correction_sum |].
  split; [exact ensemble_sum |].
  destruct analyze_match_steps
    as (p0 & p1 & mlp & f & _ & Bh & Ba & Hp1 & Hml & Hf & Hrun).
  assert (Hbase : Rabs (base_sum p1 - 1) <= 1 / 10000).
  { apply (apply_dc_correction_sum p0 p1
             (build_dc_matrix (lambda_h p0) (lambda_a p0) 10 (-0.13)));
      [| exact Hp1].
    rewrite dc_triple_total; lra. }
  eexists. exists mlp. split; [exact Hrun |].
  cbn [poisson_of final_probs]. split; [exact Hml |]. split; [exact Hbase |].
  destruct mlp as [d |].
  - intros Hh Hd Ha. apply (ensemble_sum p1 d f); [| exact Hf].
    pose proof (blend_total_pos p1 d Hbase Hh Hd Ha). lra.
  - destruct (ensemble_passthrough p1 f Hf) as (H1 & H2 & H3 & _).
    unfold final_sum. rewrite H1, H2, H3. exact Hbase.
Qed.

End Pipeline.

Section PipelineExamples.

Lemma classifier_failure_never_aborts_witness :
  predict untrained_predictor [] = Py.Ok None /\
  exists a,
    analyze_match untrained_predictor default_team default_team default_weather
      [] false default_xg default_xg 0 0 1 = Py.Ok a /\
    ml_used a = false /\
    final_home_win (final_probs a) = home_win (poisson_of a) /\
    final_draw (final_probs a) = draw (poisson_of a) /\
    final_away_win (final_probs a) = away_win (poisson_of a) /\
    source (final_probs a) = "poisson+dc".
Proof.
  destruct (classifier_failure_never_aborts untrained_predictor default_team
              default_team default_weather [] false default_xg default_xg 0 0 1)
    as ((p0 & p1 & mlp & a & _ & _ & Hml & Hrun & Hp & _ & Hu & Hnone)
        & _ & _ & Hun & _).
  split; [apply Hun; reflexivity |].
  cbn [is_trained untrained_predictor] in Hml.
  assert (Hm : mlp = None) by (injection Hml as <-; reflexivity).
  exists a. split; [exact Hrun |].
  split; [rewrite Hu, Hm; reflexivity |].
  rewrite Hp. exact (Hnone Hm).
Defined.

(** C8 as stated fails for an output of the wrong shape. An estimator
    that lists the classes 0 and 2 and answers with the row [0.6, 0.4]
    yields the opinion away_win 0.6, draw 0.33, home_win 0.4, and an
    estimator without [classes_] that answers with four columns yields
    the first three of them; neither yields [None], and the evaluation
    blends the opinion instead of returning the matrix-only triple. *)
Lemma malformed_output_is_an_opinion :
  (forall feats,
      predict (predictor_of two_class_estimator) feats
      = Py.Ok (Some (ml_dict 0.4 0.33 0.6))) /\
  (forall feats,
      predict (predictor_of wide_estimator) feats
      = Py.Ok (Some (ml_dict 0.3 0.2 0.1))) /\
  exists a,
    analyze_match (predictor_of two_class_estimator) default_team default_team
      default_weather [] false default_xg default_xg 0 0 1 = Py.Ok a /\
    ml_used a = true /\
    source (final_probs a) = "poisson+dc+ml".
Proof.
  assert (H2 : forall feats,
             predict (predictor_of two_class_estimator) feats
             = Py.Ok (Some (ml_dict 0.4 0.33 0.6))) by reflexivity.
  split; [exact H2 |]. split; [reflexivity |].
  destruct (analyze_match_steps (predictor_of two_class_estimator) default_team
              default_team default_weather [] false default_xg default_xg 0 0 1)
    as (p0 & p1 & mlp & f & _ & _ & _ & _ & Hml & Hf & Hrun).
  cbn [is_trained predictor_of] in Hml. rewrite H2 in Hml. injection Hml as <-.
  rewrite ensemble_eq in Hf. injection Hf as <-.
  eexists. split; [exact Hrun |]. split; reflexivity.
Qed.

Lemma outcome_triples_sum_within_rounding_witness :
  exists f,
    _ensemble sample_result (Some sample_ml) = Py.Ok f /\
    Rabs (final_sum f - 1) <= 1 / 10000.
Proof.
  destruct (outcome_triples_sum_within_rounding untrained_predictor default_team
              default_team default_weather [] false default_xg default_xg 0 0 1)
    as (_ & H & _).
  destruct (ensemble_total sample_result (Some sample_ml)) as [f Hf].
  exists f. split; [exact Hf |].
  apply (H sample_result sample_ml f); [| exact Hf].
  unfold blend_total, blend_home, blend_draw, blend_away. cbn. lra.
Defined.

(** C5 as stated fails. The percentage is rounded before it is compared
    with the thresholds, so a best probability of 0.5999 gives 60.0 and
    the label high, not medium, and 0.4799 gives 48.0 and the label
    medium, not low. And the confidence is taken from the
    matrix-derived triple: for the matrix triple (0.5, 0.3, 0.2) and
    the classifier triple (0.1, 0.1, 0.8) the final triple is
    (0.38, 0.24, 0.38), whose maximum gives 38.0, while the reported
    confidence is 50.0. *)
Lemma confidence_not_of_final_triple :
  snd (confidence_level (triple_result 0.5999 0.25 0.1501)) <> Medium /\
  snd (confidence_level (triple_result 0.4799 0.30 0.2201)) <> Low /\
  exists f,
    _ensemble split_result (Some split_ml) = Py.Ok f /\
    fst (confidence_level split_result) = 50 /\
    Py.round (100 * max3 (final_home_win f) (final_draw f) (final_away_win f)) 1 = 38 /\
    fst (confidence_level split_result)
    <> Py.round (100 * max3 (final_home_win f) (final_draw f) (final_away_win f)) 1.
Proof.
  destruct confidence_boundaries as (_ & H1 & _ & H2).
  split; [rewrite H1; discriminate |].
  split; [rewrite H2; discriminate |].
  assert (Ht : blend_total split_result split_ml = 1).
  { unfold blend_total, blend_home, blend_draw, blend_away. cbn. lra. }
  assert (Hh : blend_home split_result split_ml = 0.38) by (unfold blend_home; cbn; lra).
  assert (Hd : blend_draw split_result split_ml = 0.24) by (unfold blend_draw; cbn; lra).
  assert (Ha : blend_away split_result split_ml = 0.38) by (unfold blend_away; cbn; lra).
  assert (Hc : fst (confidence_level split_result) = 50).
  { unfold split_result.
    rewrite (confidence_level_eval _ 500) by (rewrite best_prob_home; lra).
    cbn [fst]. lra. }
  rewrite ensemble_eq, Ht, Hh, Hd, Ha, (or_else_keep 1) by lra.
  eexists. split; [reflexivity |].
  cbn [final_home_win final_draw final_away_win].
  rewrite (round_eq (0.38 / 1) 4 3800), (round_eq (0.24 / 1) 4 2400) by lra.
  assert (Hm : max3 (IZR 3800 / 10 ^ 4) (IZR 2400 / 10 ^ 4) (IZR 3800 / 10 ^ 4) = 0.38).
  { unfold max3.
    destruct (Rlt_dec (IZR 3800 / 10 ^ 4) (IZR 2400 / 10 ^ 4)); [lra |].
    destruct (Rlt_dec (IZR 3800 / 10 ^ 4) (IZR 3800 / 10 ^ 4)); lra. }
  rewrite Hm, Hc.
  rewrite (round_eq (100 * 0.38) 1 380) by lra.
  repeat split; lra.
Qed.

Lemma thirds_matrix_sums :
  Np.tril_sum thirds_matrix = 1 / 3 /\
  Np.diag_sum thirds_matrix = 1 / 3 /\
  Np.triu_sum thirds_matrix = 1 / 3.
Proof.
  unfold Np.tril_sum, Np.diag_sum, Np.triu_sum, Np.sum_where, Np.row_sum_where,
    thirds_matrix, Np.sum.
  cbn. repeat split; lra.
Qed.

(** C7 as stated fails: the triples are rounded after the
    renormalization. A matrix whose home, draw and away sums are one
    third each gives the base triple (0.3333, 0.3333, 0.3333), and the
    matrix triple (0.3333, 0.3333, 0.3334) blended with the classifier
    triple (0.3334, 0.3334, 0.3332) gives the same final triple; both
    sum to 0.9999, which is not within 1e-6 of 1. *)
Lemma rounded_triples_miss_one :
  (exists p',
      _apply_dc_correction (triple_result 0 0 0) thirds_matrix = Py.Ok p' /\
      base_sum p' = 0.9999 /\
      ~ Rabs (base_sum p' - 1) <= 1e-6) /\
  (exists f,
      _ensemble even_result (Some even_ml) = Py.Ok f /\
      final_sum f = 0.9999 /\
      ~ Rabs (final_sum f - 1) <= 1e-6).
Proof.
  assert (Hfar : forall s, s = 0.9999 -> ~ Rabs (s - 1) <= 1e-6).
  { intros s -> H. apply Rabs_le_bounds in H. lra. }
  split.
  - destruct thirds_matrix_sums as (H1 & H2 & H3).
    unfold _apply_dc_correction. rewrite outcome_triple_eq.
    unfold triple_total. rewrite H1, H2, H3.
    rewrite (or_else_keep (1 / 3 + 1 / 3 + 1 / 3)) by lra.
    cbn [Py.bind]. eexists. split; [reflexivity |].
    assert (Hs : base_sum
                   {| home_win := Py.round (1 / 3 / (1 / 3 + 1 / 3 + 1 / 3)) 4;
                      draw := Py.round (1 / 3 / (1 / 3 + 1 / 3 + 1 / 3)) 4;
                      away_win := Py.round (1 / 3 / (1 / 3 + 1 / 3 + 1 / 3)) 4;
                      lambda_h := lambda_h (triple_result 0 0 0);
                      lambda_a := lambda_a (triple_result 0 0 0);
                      total_exp := total_exp (triple_result 0 0 0);
                      both_score := Py.round (_calc_both_score thirds_matrix) 4;
                      over_1_5 := Py.round (_calc_over thirds_matrix 1.5) 4;
                      over_2_5 := Py.round (_calc_over thirds_matrix 2.5) 4;
                      over_3_5 := Py.round (_calc_over thirds_matrix 3.5) 4 |}
                 = 0.9999).
    { unfold base_sum. cbn [home_win draw away_win].
      rewrite (round_eq _ 4 3333) by lra. lra. }
    split; [exact Hs | apply Hfar, Hs].
  - assert (Ht : blend_total even_result even_ml = 1).
    { unfold blend_total, blend_home, blend_draw, blend_away. cbn. lra. }
    assert (Hh : blend_home even_result even_ml = 0.33333) by (unfold blend_home; cbn; lra).
    assert (Hd : blend_draw even_result even_ml = 0.33333) by (unfold blend_draw; cbn; lra).
    assert (Ha : blend_away even_result even_ml = 0.33334) by (unfold blend_away; cbn; lra).
    rewrite ensemble_eq, Ht, Hh, Hd, Ha, (or_else_keep 1) by lra.
    eexists. split; [reflexivity |].
    assert (Hs : final_sum
                   {| final_home_win := Py.round (0.33333 / 1) 4;
                      final_draw := Py.round (0.33333 / 1) 4;
                      final_away_win := Py.round (0.33334 / 1) 4;
                      source := "poisson+dc+ml" |} = 0.9999).
    { unfold final_sum. cbn [final_home_win final_draw final_away_win].
      rewrite (round_eq (0.33333 / 1) 4 3333), (round_eq (0.33334 / 1) 4 3333) by lra.
      lra. }
    split; [exact Hs | apply Hfar, Hs].
Qed.

End PipelineExamples.

(** * Further properties of the engine and of its inputs *)

(** ** Ratings *)

Section Ratings.

Lemma rpower10_pos (x : R) : 0 < Rpower 10 x.
Proof. unfold Rpower. apply exp_pos. Qed.

Lemma rpower10_sign (x : R) :
  (x < 0 -> Rpower 10 x < 1) /\ (x = 0 -> Rpower 10 x = 1) /\
  (0 < x -> 1 < Rpower 10 x).
Proof.
  assert (H0 : Rpower 10 0 = 1) by (apply Rpower_O; lra).
  repeat split; intros Hx.
  - rewrite <- H0. apply Rpower_lt; lra.
  - now rewrite Hx.
  - rewrite <- H0. apply Rpower_lt; lra.
Qed.

Lemma rpower10_mono (x y : R) : x <= y -> Rpower 10 x <= Rpower 10 y.
Proof. intros H. apply Rle_Rpower; lra. Qed.

Lemma inv_one_plus_mono (s t : R) : 0 < s -> s <= t -> 1 / (1 + t) <= 1 / (1 + s).
Proof.
  intros Hs Hst. unfold Rdiv. rewrite !Rmult_1_l.
  apply Rinv_le_contravar; lra.
Qed.

Lemma inv_one_plus_bounds (t : R) : 0 < t -> 0 < 1 / (1 + t) < 1.
Proof.
  intros Ht. split.
  - apply Rdiv_lt_0_compat; lra.
  - apply Rmult_lt_reg_r with (1 + t); [lra |].
    unfold Rdiv. rewrite Rmult_assoc, Rinv_l by lra. lra.
Qed.

Lemma inv_one_plus_half (t : R) :
  0 < t ->
  (t < 1 -> 1 / 2 < 1 / (1 + t)) /\ (t = 1 -> 1 / (1 + t) = 1 / 2) /\
  (1 < t -> 1 / (1 + t) < 1 / 2).
Proof.
  intros Ht. repeat split; intros H.
  - unfold Rdiv. rewrite !Rmult_1_l. apply Rinv_lt_contravar; lra.
  - subst. lra.
  - unfold Rdiv. rewrite !Rmult_1_l. apply Rinv_lt_contravar; lra.
Qed.

Lemma elo_expected_home_unfold (elo_h elo_a : R) :
  _elo_expected_home elo_h elo_a
  = 1 / (1 + Rpower 10 ((elo_a - elo_h - 100) / 400)).
Proof.
  unfold _elo_expected_home. replace 1.0 with 1 by lra. reflexivity.
Qed.

(** The expected home score is a probability strictly between 0 and 1,
    it is one half exactly when the away side is rated 100 points
    above the home side and above one half when the gap is smaller, it
    grows with the home rating and shrinks with the away rating, and
    the multiplier that [calculate_poisson] derives from it stays
    strictly between 0.85 and 1.15. *)
Theorem elo_expected_home_properties (elo_h elo_a : R) :
  0 < _elo_expected_home elo_h elo_a < 1 /\
  (_elo_expected_home elo_h elo_a = 1 / 2 <-> elo_a - elo_h = 100) /\
  (1 / 2 < _elo_expected_home elo_h elo_a <-> elo_a - elo_h < 100) /\
  (forall h', elo_h <= h' ->
              _elo_expected_home elo_h elo_a <= _elo_expected_home h' elo_a) /\
  (forall a', elo_a <= a' ->
              _elo_expected_home elo_h a' <= _elo_expected_home elo_h elo_a) /\
  0.85 < 1.0 + (_elo_expected_home elo_h elo_a - 0.5) * 0.30 < 1.15.
Proof.
  rewrite elo_expected_home_unfold.
  set (x := (elo_a - elo_h - 100) / 400).
  pose proof (rpower10_pos x) as Ht.
  destruct (rpower10_sign x) as (Hneg & Hzero & Hpos).
  destruct (inv_one_plus_half (Rpower 10 x) Ht) as (Hlt & Heq & Hgt).
  pose proof (inv_one_plus_bounds (Rpower 10 x) Ht) as Hb.
  assert (Hx : x < 0 \/ x = 0 \/ 0 < x) by lra.
  repeat apply conj; try tauto.
  - intros He. destruct Hx as [Hx | [Hx | Hx]]; unfold x in Hx.
    + specialize (Hlt (Hneg Hx)). lra.
    + lra.
    + specialize (Hgt (Hpos Hx)). lra.
  - intros He. apply Heq, Hzero. unfold x. lra.
  - intros He. destruct Hx as [Hx | [Hx | Hx]]; unfold x in Hx.
    + lra.
    + specialize (Heq (Hzero Hx)). lra.
    + specialize (Hgt (Hpos Hx)). lra.
  - intros He. apply Hlt, Hneg. unfold x. lra.
  - intros h' Hh. rewrite elo_expected_home_unfold.
    apply inv_one_plus_mono; [apply rpower10_pos |].
    apply rpower10_mono. unfold x. lra.
  - intros a' Ha. rewrite elo_expected_home_unfold.
    apply inv_one_plus_mono; [exact Ht |].
    apply rpower10_mono. unfold x. lra.
  - lra.
  - lra.
Qed.

Lemma elo_expected_home_properties_witness :
  _elo_expected_home 1500 1600 = 1 / 2 /\
  1 / 2 < _elo_expected_home 1500 1500 /\
  _elo_expected_home 1500 1500 <= _elo_expected_home 1550 1500.
Proof.
  destruct (elo_expected_home_properties 1500 1600) as (_ & [_ H1] & _).
  destruct (elo_expected_home_properties 1500 1500) as (_ & _ & [_ H2] & H3 & _).
  repeat split; [apply H1 | apply H2 | apply H3]; lra.
Defined.

Lemma round1_near (x : R) : x - 1 / 20 <= Py.round x 1 <= x + 1 / 20.
Proof.
  pose proof (round_bounds x 1) as H.
  replace (10 ^ 1) with 10 in H by lra. lra.
Qed.

(** The rating update uses the engine's expected home score. Before
    the rounding to one decimal the two changes cancel, so the update
    is zero-sum up to the rounding (the ratings' sum moves by at most
    0.1); no rating moves by more than K = 32 plus the rounding; and
    after a home win the home rating is not below, and the away rating
    not above, its old value rounded. *)
Theorem update_elo_properties (elo_h elo_a : R) (home_goals away_goals : Z) :
  let new_h := fst (update_elo elo_h elo_a home_goals away_goals) in
  let new_a := snd (update_elo elo_h elo_a home_goals away_goals) in
  let actual_h :=
    if (away_goals <? home_goals)%Z then 1
    else if (home_goals =? away_goals)%Z then 1 / 2 else 0 in
  new_h = Py.round (elo_h + 32 * (actual_h - _elo_expected_home elo_h elo_a)) 1 /\
  new_a = Py.round (elo_a - 32 * (actual_h - _elo_expected_home elo_h elo_a)) 1 /\
  Rabs ((new_h + new_a) - (elo_h + elo_a)) <= 1 / 10 /\
  Rabs (new_h - elo_h) <= 32 + 1 / 20 /\
  Rabs (new_a - elo_a) <= 32 + 1 / 20 /\
  ((away_goals < home_goals)%Z ->
   Py.round elo_h 1 <= new_h /\ new_a <= Py.round elo_a 1) /\
  ((home_goals < away_goals)%Z ->
   new_h <= Py.round elo_h 1 /\ Py.round elo_a 1 <= new_a).
Proof.
  intros new_h new_a actual_h.
  pose proof (elo_expected_home_unfold elo_h elo_a) as HE.
  destruct (inv_one_plus_bounds _ (rpower10_pos ((elo_a - elo_h - 100) / 400)))
    as [E0 E1].
  rewrite <- HE in E0, E1.
  assert (Hh : new_h
               = Py.round (elo_h + 32 * (actual_h - _elo_expected_home elo_h elo_a)) 1).
  { unfold new_h, update_elo, actual_h. cbn [fst]. rewrite HE.
    f_equal. destruct (_ <? _)%Z; [| destruct (_ =? _)%Z]; lra. }
  assert (Ha : new_a
               = Py.round (elo_a - 32 * (actual_h - _elo_expected_home elo_h elo_a)) 1).
  { unfold new_a, update_elo, actual_h. cbn [snd]. rewrite HE.
    f_equal. destruct (_ <? _)%Z; [| destruct (_ =? _)%Z]; lra. }
  assert (Hact : 0 <= actual_h <= 1).
  { unfold actual_h. destruct (_ <? _)%Z; [| destruct (_ =? _)%Z]; lra. }
  pose proof (round1_near (elo_h + 32 * (actual_h - _elo_expected_home elo_h elo_a)))
    as Rh.
  pose proof (round1_near (elo_a - 32 * (actual_h - _elo_expected_home elo_h elo_a)))
    as Ra.
  rewrite <- Hh in Rh. rewrite <- Ha in Ra.
  repeat apply conj; try assumption.
  - apply Rabs_le. lra.
  - apply Rabs_le. nra.
  - apply Rabs_le. nra.
  - intros Hwin. apply Z.ltb_lt in Hwin.
    assert (Hone : actual_h = 1) by (unfold actual_h; now rewrite Hwin).
    rewrite Hh, Ha, Hone. split; apply round_mono; lra.
  - intros Hloss.
    assert (Hzero : actual_h = 0).
    { unfold actual_h.
      destruct (Z.ltb_spec away_goals home_goals); [lia |].
      destruct (Z.eqb_spec home_goals away_goals); [lia | reflexivity]. }
    rewrite Hh, Ha, Hzero. split; apply round_mono; lra.
Qed.

Lemma update_elo_properties_witness :
  Py.round 1500 1 <= fst (update_elo 1500 1500 2 0) /\
  snd (update_elo 1500 1500 2 0) <= Py.round 1500 1.
Proof.
  destruct (update_elo_properties 1500 1500 2 0) as (_ & _ & _ & _ & _ & H & _).
  apply H. lia.
Defined.

(** A training row codes the outcome as 2 for a home win, 1 for a draw
    and 0 for an away win (the classes that [predict] maps back to
    home_win, draw and away_win), and its two rates are the league
    averages scaled by the engine's rating multiplier and its mirror
    image, so they stay within 15% of 1.5 and 1.15. *)
Theorem match_to_row_properties (hg ag : Z) (elo_h elo_a : R) :
  let outcome := fst (fst (_match_to_row hg ag elo_h elo_a)) in
  let lam_h := snd (fst (_match_to_row hg ag elo_h elo_a)) in
  let lam_a := snd (_match_to_row hg ag elo_h elo_a) in
  let elo_adj := 1.0 + (_elo_expected_home elo_h elo_a - 0.5) * 0.30 in
  (outcome = 2%Z <-> (ag < hg)%Z) /\
  (outcome = 1%Z <-> hg = ag) /\
  (outcome = 0%Z <-> (hg < ag)%Z) /\
  lam_h = 1.5 * elo_adj /\
  lam_a = 1.15 * (2 - elo_adj) /\
  1.275 < lam_h < 1.725 /\
  0.9775 < lam_a < 1.3225.
Proof.
  intros outcome lam_h lam_a elo_adj.
  pose proof (elo_expected_home_unfold elo_h elo_a) as HE.
  destruct (inv_one_plus_bounds _ (rpower10_pos ((elo_a - elo_h - 100) / 400)))
    as [E0 E1].
  rewrite <- HE in E0, E1.
  assert (Hexp : 1.0 / (1.0 + Rpower 10 ((elo_a - elo_h - 100.0) / 400.0))
                 = _elo_expected_home elo_h elo_a).
  { rewrite HE. replace 1.0 with 1 by lra.
    replace ((elo_a - elo_h - 100.0) / 400.0) with ((elo_a - elo_h - 100) / 400) by lra.
    reflexivity. }
  assert (Hh : lam_h = 1.5 * elo_adj).
  { unfold lam_h, _match_to_row, elo_adj. cbn [fst snd]. rewrite Hexp. lra. }
  assert (Ha : lam_a = 1.15 * (2 - elo_adj)).
  { unfold lam_a, _match_to_row, elo_adj. cbn [fst snd]. rewrite Hexp. lra. }
  assert (Hadj : 0.85 < elo_adj < 1.15) by (unfold elo_adj; lra).
  unfold outcome, _match_to_row. cbn [fst snd].
  repeat apply conj; try assumption; try lra;
    destruct (Z.ltb_spec ag hg); destruct (Z.eqb_spec hg ag);
    intros; try lia; try discriminate; reflexivity.
Qed.

Lemma match_to_row_properties_witness :
  fst (fst (_match_to_row 2 1 1500 1500)) = 2%Z.
Proof.
  destruct (match_to_row_properties 2 1 1500 1500) as ([_ H] & _).
  apply H. lia.
Defined.

End Ratings.

(** ** Weather and venue *)

Section Venue.

Lemma calc_impact_range (r : WeatherReadings) : 0 <= _calc_impact r <= 65.
Proof.
  unfold _calc_impact.
  destruct (Rlt_dec (temperature r) 0);
    [| destruct (Rlt_dec (temperature r) 5);
       [| destruct (Rlt_dec 35 (temperature r));
          [| destruct (Rlt_dec 30 (temperature r))]]];
    (destruct (Rlt_dec 5 (precipitation r));
     [| destruct (Rlt_dec 2 (precipitation r));
        [| destruct (Rlt_dec 0.5 (precipitation r))]]);
    (destruct (Rlt_dec 50 (wind_speed r));
     [| destruct (Rlt_dec 30 (wind_speed r));
        [| destruct (Rlt_dec 20 (wind_speed r))]]);
    unfold Rmin; destruct (Rle_dec _ _); lra.
Qed.

(** The impact score computed from the readings lies in [0, 65] (the
    cap at 100 never binds), it is 0 exactly in mild, dry, calm
    weather, and the home-field factor derived from it lies in
    [1.035, 1.10]: the weather shrinks the home advantage but never
    removes it. For an arbitrary score the factor is never below 1.0,
    is 1.10 at score 0 and 1.0 from score 100 on. *)
Theorem weather_home_factor_range (r : WeatherReadings) :
  0 <= _calc_impact r <= 65 /\
  (5 <= temperature r <= 30 -> precipitation r <= 0.5 -> wind_speed r <= 20 ->
   _calc_impact r = 0) /\
  1.035 <= _weather_home_factor (weather_of_readings r) <= 1.10 /\
  (forall w, 1.0 <= _weather_home_factor w) /\
  (forall w, impact_score w = 0 -> _weather_home_factor w = 1.10) /\
  (forall w, 100 <= impact_score w -> _weather_home_factor w = 1.0) /\
  (forall w w', impact_score w <= impact_score w' ->
                _weather_home_factor w' <= _weather_home_factor w).
Proof.
  pose proof (calc_impact_range r) as Hr.
  repeat apply conj; try tauto.
  - intros Ht Hp Hw. unfold _calc_impact.
    destruct (Rlt_dec (temperature r) 0); [lra |].
    destruct (Rlt_dec (temperature r) 5); [lra |].
    destruct (Rlt_dec 35 (temperature r)); [lra |].
    destruct (Rlt_dec 30 (temperature r)); [lra |].
    destruct (Rlt_dec 5 (precipitation r)); [lra |].
    destruct (Rlt_dec 2 (precipitation r)); [lra |].
    destruct (Rlt_dec 0.5 (precipitation r)); [lra |].
    destruct (Rlt_dec 50 (wind_speed r)); [lra |].
    destruct (Rlt_dec 30 (wind_speed r)); [lra |].
    destruct (Rlt_dec 20 (wind_speed r)); [lra |].
    unfold Rmin. destruct (Rle_dec _ _); lra.
  - unfold _weather_home_factor, weather_of_readings, _HOME_FIELD_K. cbn [impact_score].
    unfold Rmax. destruct (Rle_dec _ _); lra.
  - unfold _weather_home_factor, weather_of_readings, _HOME_FIELD_K. cbn [impact_score].
    unfold Rmax. destruct (Rle_dec _ _); lra.
  - intros w. unfold _weather_home_factor. apply Rmax_l.
  - intros w Hw. unfold _weather_home_factor, _HOME_FIELD_K. rewrite Hw.
    unfold Rmax. destruct (Rle_dec _ _); lra.
  - intros w Hw. unfold _weather_home_factor, _HOME_FIELD_K.
    unfold Rmax. destruct (Rle_dec _ _); lra.
  - intros w w' Hw. unfold _weather_home_factor, _HOME_FIELD_K.
    unfold Rmax. destruct (Rle_dec _ _); destruct (Rle_dec _ _); lra.
Qed.

Lemma weather_home_factor_range_witness :
  _calc_impact {| temperature := 18; precipitation := 0; wind_speed := 10 |} = 0.
Proof.
  destruct (weather_home_factor_range
              {| temperature := 18; precipitation := 0; wind_speed := 10 |})
    as (_ & H & _).
  apply H; cbn; lra.
Defined.

Lemma clip_mono (x y lo hi : R) : x <= y -> Py.clip x lo hi <= Py.clip y lo hi.
Proof.
  intros H. unfold Py.clip.
  apply Rle_min_compat_r, Rle_max_compat_r, H.
Qed.

Lemma elo_adj_pos (elo_h elo_a : R) :
  0 < 1.0 + (_elo_expected_home elo_h elo_a - 0.5) * 0.30.
Proof.
  rewrite elo_expected_home_unfold.
  destruct (inv_one_plus_bounds _ (rpower10_pos ((elo_a - elo_h - 100) / 400))). lra.
Qed.

Lemma attack_ratio_pos (g avg : R) : 0 < avg -> 0 < Rmax g 0.3 / avg.
Proof.
  intros Ha. apply Rdiv_lt_0_compat; [| exact Ha].
  apply Rlt_le_trans with 0.3; [lra | apply Rmax_r].
Qed.

Lemma h2h_nudge_mono (h2h : Py.Dict) (c c' : R * R) :
  fst c <= fst c' -> snd c' <= snd c ->
  fst (h2h_nudge h2h c) <= fst (h2h_nudge h2h c') /\
  snd (h2h_nudge h2h c') <= snd (h2h_nudge h2h c).
Proof.
  destruct c as [ch ca], c' as [ch' ca']. cbn [fst snd]. intros Hh Ha.
  unfold h2h_nudge.
  destruct (Rle_dec 3 _); [destruct (Rlt_dec 0.55 _); [| destruct (Rlt_dec _ 0.35)] |];
    cbn [fst snd]; lra.
Qed.

(** With form scores in [0, 100], playing on a neutral field never
    raises the home side's expected-goal rate and never lowers the
    away side's, compared with the same match at the home ground;
    this holds for the clipped rates and for the rates after the
    head-to-head nudge. *)
Theorem neutral_field_removes_home_edge (home away : TeamStats) (w : WeatherData)
    (h2h : Py.Dict) :
  0 <= form_score home <= 100 -> 0 <= form_score away <= 100 ->
  fst (clipped_rates home away w true) <= fst (clipped_rates home away w false) /\
  snd (clipped_rates home away w false) <= snd (clipped_rates home away w true) /\
  fst (poisson_rates home away w h2h true) <= fst (poisson_rates home away w h2h false) /\
  snd (poisson_rates home away w h2h false) <= snd (poisson_rates home away w h2h true).
Proof.
  intros Hfh Hfa.
  assert (Hclip :
    fst (clipped_rates home away w true) <= fst (clipped_rates home away w false) /\
    snd (clipped_rates home away w false) <= snd (clipped_rates home away w true)).
  { unfold clipped_rates. cbn [fst snd].
    pose proof (elo_adj_pos (elo home) (elo away)) as He.
    set (e := 1.0 + (_elo_expected_home (elo home) (elo away) - 0.5) * 0.30) in *.
    assert (Hhf : 1.0 <= _weather_home_factor w) by apply Rmax_l.
    set (hf := _weather_home_factor w) in *.
    pose proof (attack_ratio_pos (avg_goals_scored home) _LEAGUE_AVG_HOME) as A1.
    pose proof (attack_ratio_pos (avg_goals_conceded away) _LEAGUE_AVG_AWAY) as A2.
    pose proof (attack_ratio_pos (avg_goals_scored away) _LEAGUE_AVG_AWAY) as A3.
    pose proof (attack_ratio_pos (avg_goals_conceded home) _LEAGUE_AVG_HOME) as A4.
    unfold _LEAGUE_AVG_HOME, _LEAGUE_AVG_AWAY in *.
    specialize (A1 ltac:(lra)). specialize (A2 ltac:(lra)).
    specialize (A3 ltac:(lra)). specialize (A4 ltac:(lra)).
    set (ah := Rmax (avg_goals_scored home) 0.3 / 1.50) in *.
    set (da := Rmax (avg_goals_conceded away) 0.3 / 1.15) in *.
    set (aa := Rmax (avg_goals_scored away) 0.3 / 1.15) in *.
    set (dh := Rmax (avg_goals_conceded home) 0.3 / 1.50) in *.
    assert (Fh : 0 < _form_adjustment (form_score home))
      by (unfold _form_adjustment; lra).
    assert (Fa : 0 < _form_adjustment (form_score away))
      by (unfold _form_adjustment; lra).
    set (fh := _form_adjustment (form_score home)) in *.
    set (fa := _form_adjustment (form_score away)) in *.
    split; apply clip_mono.
    - assert (K : 0 < 1.50 * ah * da) by (apply Rmult_lt_0_compat; [nra | lra]).
      assert (K2 : 0 < e * fh) by now apply Rmult_lt_0_compat.
      replace (1.50 * ah * da * 1.0 * e * fh) with ((1.50 * ah * da) * (e * fh) * 1.0) by ring.
      replace (1.50 * ah * da * hf * e * fh) with ((1.50 * ah * da) * (e * fh) * hf) by ring.
      apply Rmult_le_compat_l; [| lra].
      left. now apply Rmult_lt_0_compat.
    - assert (K : 0 < 1.15 * aa * dh) by (apply Rmult_lt_0_compat; [nra | lra]).
      assert (K2 : 0 < / e * fa)
        by (apply Rmult_lt_0_compat; [now apply Rinv_0_lt_compat | lra]).
      replace (1.15 * aa * dh / hf / e * fa)
        with ((1.15 * aa * dh) * (/ e * fa) * / hf) by (field; lra).
      replace (1.15 * aa * dh / 1.0 / e * fa)
        with ((1.15 * aa * dh) * (/ e * fa) * / 1.0) by (field; lra).
      apply Rmult_le_compat_l; [left; now apply Rmult_lt_0_compat |].
      apply Rinv_le_contravar; lra. }
  destruct Hclip as [Hh Ha].
  repeat apply conj; try assumption;
    unfold poisson_rates; now apply h2h_nudge_mono.
Qed.

Lemma neutral_field_removes_home_edge_witness :
  fst (clipped_rates default_team default_team default_weather true)
  <= fst (clipped_rates default_team default_team default_weather false).
Proof.
  apply (neutral_field_removes_home_edge default_team default_team default_weather []);
    cbn; lra.
Defined.

End Venue.

(** ** Masked sums *)

Section MaskedSums.

Ltac sum_step := cbn [map combine seq length fst snd nth]; rewrite ?sum_cons, ?sum_nil.

Lemma masked_sum_le (P Q : nat -> bool) (row : Np.vector) :
  nonneg_vector row -> (forall j, P j = true -> Q j = true) ->
  forall s,
    Np.sum (map (fun jv : nat * R => if P (fst jv) then snd jv else 0)
                (combine (seq s (length row)) row))
    <= Np.sum (map (fun jv : nat * R => if Q (fst jv) then snd jv else 0)
                   (combine (seq s (length row)) row)).
Proof.
  intros Hrow HPQ.
  induction Hrow as [| x v Hx _ IH]; intros s; sum_step; [lra |].
  specialize (IH (S s)). specialize (HPQ s).
  destruct (P s); destruct (Q s); first [lra | discriminate (HPQ eq_refl)].
Qed.

Lemma masked_sum_compl (P : nat -> bool) (row : Np.vector) (s : nat) :
  Np.sum (map (fun jv : nat * R => if P (fst jv) then snd jv else 0)
              (combine (seq s (length row)) row))
  + Np.sum (map (fun jv : nat * R => if negb (P (fst jv)) then snd jv else 0)
                (combine (seq s (length row)) row))
  = Np.sum row.
Proof.
  revert s. induction row as [| x v IH]; intros s; sum_step; [lra |].
  specialize (IH (S s)). destruct (P s); cbn [negb]; lra.
Qed.

Lemma masked_sum_all (P : nat -> bool) (row : Np.vector) (s : nat) :
  (forall j, P j = true) ->
  Np.sum (map (fun jv : nat * R => if P (fst jv) then snd jv else 0)
              (combine (seq s (length row)) row))
  = Np.sum row.
Proof.
  intros HP. revert s. induction row as [| x v IH]; intros s; sum_step; [lra |].
  rewrite IH, HP. reflexivity.
Qed.

Lemma masked_sum_none (P : nat -> bool) (row : Np.vector) (s : nat) :
  (forall j, (s <= j)%nat -> P j = false) ->
  Np.sum (map (fun jv : nat * R => if P (fst jv) then snd jv else 0)
              (combine (seq s (length row)) row))
  = 0.
Proof.
  revert s. induction row as [| x v IH]; intros s HP; sum_step; [lra |].
  rewrite IH by (intros j Hj; apply HP; lia).
  rewrite HP by lia. lra.
Qed.

Lemma row_sum_where_first (row : Np.vector) :
  Np.row_sum_where (fun j => Nat.eqb j 0) row = nth 0 row 0.
Proof.
  unfold Np.row_sum_where. destruct row as [| x v]; sum_step; [reflexivity |].
  rewrite (masked_sum_none (fun j => Nat.eqb j 0) v 1); [cbn; lra |].
  intros j Hj. apply Nat.eqb_neq. lia.
Qed.

Lemma sum_where_mono (P Q : nat -> nat -> bool) (m : Np.matrix) :
  nonneg_matrix m -> (forall i j, P i j = true -> Q i j = true) ->
  Np.sum_where P m <= Np.sum_where Q m.
Proof.
  intros Hm HPQ. unfold Np.sum_where. generalize 0%nat.
  induction Hm as [| r m Hr _ IH]; intros s; sum_step; [lra |].
  specialize (IH (S s)).
  pose proof (masked_sum_le (P s) (Q s) r Hr (HPQ s) 0) as Hrow.
  change (Np.row_sum_where (P s) r <= Np.row_sum_where (Q s) r) in Hrow. lra.
Qed.

Lemma sum_where_compl (P : nat -> nat -> bool) (m : Np.matrix) :
  Np.sum_where P m + Np.sum_where (fun i j => negb (P i j)) m = Np.msum m.
Proof.
  unfold Np.sum_where, Np.msum. generalize 0%nat.
  induction m as [| r m IH]; intros s; sum_step; [lra |].
  specialize (IH (S s)).
  pose proof (masked_sum_compl (P s) r 0) as Hrow.
  change (Np.row_sum_where (P s) r
          + Np.row_sum_where (fun j => negb (P s j)) r = Np.sum r) in Hrow.
  lra.
Qed.

Lemma sum_where_le_msum (P : nat -> nat -> bool) (m : Np.matrix) :
  nonneg_matrix m -> Np.sum_where P m <= Np.msum m.
Proof.
  intros Hm. rewrite <- (sum_where_compl P m).
  pose proof (sum_where_nonneg (fun i j => negb (P i j)) m Hm). lra.
Qed.

(** The mass of the first row and first column. *)
Lemma edge_mass (m : Np.matrix) :
  Np.row0_sum m + Np.col0_sum m - Np.cell m 0 0
  = Np.sum_where (fun i j => Nat.eqb i 0 || Nat.eqb j 0) m.
Proof.
  unfold Np.row0_sum, Np.col0_sum, Np.cell, Np.sum_where.
  destruct m as [| r0 m]; sum_step; [cbn; lra |].
  assert (Hrow0 : Np.row_sum_where (fun j => Nat.eqb 0 0 || Nat.eqb j 0) r0 = Np.sum r0).
  { unfold Np.row_sum_where.
    now apply (masked_sum_all (fun j => Nat.eqb 0 0 || Nat.eqb j 0) r0 0). }
  rewrite Hrow0.
  assert (Hrest : forall s,
             Np.sum (map (fun ir : nat * Np.vector =>
                            Np.row_sum_where
                              (fun j => Nat.eqb (fst ir) 0 || Nat.eqb j 0) (snd ir))
                         (combine (seq (S s) (length m)) m))
             = Np.sum (map (fun row => nth 0%nat row 0) m)).
  { induction m as [| r m IH]; intros s; sum_step; [reflexivity |].
    rewrite IH. f_equal. cbn [Nat.eqb orb]. apply row_sum_where_first. }
  rewrite Hrest. lra.
Qed.

End MaskedSums.

(** ** Totals and both-teams-to-score *)

Section Aggregates.

Lemma clip_unit_id (x : R) : 0 <= x <= 1 -> Py.clip x 0.0 1.0 = x.
Proof.
  intros H. unfold Py.clip, Rmin, Rmax.
  destruct (Rle_dec x 0.0); destruct (Rle_dec _ 1.0); lra.
Qed.

(** [_calc_over] always returns a value in [0, 1]; on a matrix of
    non-negative cells a higher threshold never gives a larger value
    (so over 1.5 >= over 2.5 >= over 3.5); and on a matrix of
    non-negative cells that sum to 1 the clip is idle and the value is
    the complement of the mass of the scorelines with at most
    [threshold] goals. *)
Theorem calc_over_properties (m : Np.matrix) (threshold : R) :
  0 <= _calc_over m threshold <= 1 /\
  (nonneg_matrix m ->
   forall threshold', threshold <= threshold' ->
                      _calc_over m threshold' <= _calc_over m threshold) /\
  (nonneg_matrix m -> Np.msum m = 1 ->
   _calc_over m threshold
   = 1 - Np.sum_where
           (fun i j => if Rlt_dec threshold (INR (i + j)) then false else true) m).
Proof.
  pose proof (clip_bounds
                (Np.sum_where
                   (fun i j => if Rlt_dec threshold (INR (i + j)) then true else false) m)
                0.0 1.0) as Hb.
  repeat apply conj.
  - unfold _calc_over. lra.
  - unfold _calc_over. lra.
  - intros Hm t' Ht. unfold _calc_over. apply clip_mono.
    apply sum_where_mono; [exact Hm |].
    intros i j. destruct (Rlt_dec t' _); [| discriminate].
    destruct (Rlt_dec threshold _); [reflexivity | lra].
  - intros Hm Hs. unfold _calc_over.
    set (P := fun i j => if Rlt_dec threshold (INR (i + j)) then true else false).
    pose proof (sum_where_compl P m) as Hc.
    pose proof (sum_where_nonneg P m Hm) as H0.
    pose proof (sum_where_le_msum P m Hm) as H1.
    rewrite clip_unit_id by lra.
    assert (He : Np.sum_where (fun i j => negb (P i j)) m
                 = Np.sum_where
                     (fun i j => if Rlt_dec threshold (INR (i + j)) then false else true) m).
    { unfold Np.sum_where, Np.row_sum_where, P.
      f_equal. apply map_ext. intros [i r]. cbn [fst snd].
      f_equal. apply map_ext. intros [j v]. cbn [fst snd].
      destruct (Rlt_dec threshold _); reflexivity. }
    rewrite <- He. lra.
Qed.

Lemma calc_over_properties_witness :
  _calc_over thirds_matrix 1.5 <= _calc_over thirds_matrix 0.5.
Proof.
  destruct (calc_over_properties thirds_matrix 0.5) as (_ & H & _).
  apply H; [repeat constructor; lra | lra].
Defined.

(** [_calc_both_score] is never negative; on a matrix of non-negative
    cells it is at most 1; and on a matrix of non-negative cells that
    sum to 1 the inclusion-exclusion formula is exact: the value is
    the mass of the scorelines in which both sides score. *)
Theorem calc_both_score_properties (m : Np.matrix) :
  0 <= _calc_both_score m /\
  (nonneg_matrix m -> _calc_both_score m <= 1) /\
  (nonneg_matrix m -> Np.msum m = 1 ->
   _calc_both_score m
   = Np.sum_where (fun i j => negb (Nat.eqb i 0 || Nat.eqb j 0)) m).
Proof.
  pose proof (edge_mass m) as He.
  set (E := fun i j => Nat.eqb i 0 || Nat.eqb j 0) in *.
  unfold _calc_both_score.
  repeat apply conj.
  - apply Rle_trans with 0.0; [lra | apply Rmax_l].
  - intros Hm. pose proof (sum_where_nonneg E m Hm).
    unfold Rmax. destruct (Rle_dec _ _); lra.
  - intros Hm Hs.
    pose proof (sum_where_compl E m) as Hc.
    pose proof (sum_where_nonneg (fun i j => negb (E i j)) m Hm) as H0.
    unfold E in *. rewrite Rmax_right by lra. lra.
Qed.

Lemma calc_both_score_properties_witness : _calc_both_score thirds_matrix <= 1.
Proof.
  destruct (calc_both_score_properties thirds_matrix) as (_ & H & _).
  apply H. repeat constructor; lra.
Defined.

End Aggregates.

(** ** Ranges of the reported probabilities *)

Section Ranges.

Lemma calc_over_range (m : Np.matrix) (t : R) : 0 <= _calc_over m t <= 1.
Proof.
  pose proof (clip_bounds
                (Np.sum_where
                   (fun i j => if Rlt_dec t (INR (i + j)) then true else false) m)
                0.0 1.0) as Hb.
  unfold _calc_over. lra.
Qed.

Lemma calc_over_antitone (m : Np.matrix) (t t' : R) :
  nonneg_matrix m -> t <= t' -> _calc_over m t' <= _calc_over m t.
Proof.
  intros Hm Ht. unfold _calc_over. apply clip_mono.
  apply sum_where_mono; [exact Hm |].
  intros i j. destruct (Rlt_dec t' _); [| discriminate].
  destruct (Rlt_dec t _); [reflexivity | lra].
Qed.

Lemma calc_both_score_range (m : Np.matrix) :
  nonneg_matrix m -> 0 <= _calc_both_score m <= 1.
Proof.
  intros Hm. pose proof (edge_mass m) as He.
  pose proof (sum_where_nonneg (fun i j => Nat.eqb i 0 || Nat.eqb j 0) m Hm).
  unfold _calc_both_score, Rmax. destruct (Rle_dec _ _); lra.
Qed.

Lemma round4_unit (x : R) : 0 <= x <= 1 -> 0 <= Py.round x 4 <= 1.
Proof.
  intros [H0 H1]. split.
  - rewrite <- (round_zero 4). now apply round_mono.
  - assert (R1 : Py.round 1 4 = 1) by (rewrite (round_eq 1 4 10000) by lra; lra).
    apply Rle_trans with (Py.round 1 4); [now apply round_mono | lra].
Qed.

Lemma part_over_total (x s : R) : 0 <= x <= s -> 0 <= x / Py.or_else s 1.0 <= 1.
Proof.
  intros [H0 Hs]. unfold Py.or_else.
  destruct (Req_dec_T s 0) as [Hz | Hnz].
  - assert (x = 0) by lra. subst x. lra.
  - assert (Hp : 0 < s) by lra. split.
    + apply Rmult_le_pos; [lra | left; now apply Rinv_0_lt_compat].
    + apply Rmult_le_reg_r with s; [exact Hp |].
      unfold Rdiv. rewrite Rmult_assoc, Rinv_l by lra. lra.
Qed.

Lemma apply_dc_correction_eq (p : PoissonResult) (m : Np.matrix) :
  let t := Py.or_else (triple_total m) 1.0 in
  _apply_dc_correction p m =
    Py.Ok {| home_win := Py.round (Np.tril_sum m / t) 4;
             draw := Py.round (Np.diag_sum m / t) 4;
             away_win := Py.round (Np.triu_sum m / t) 4;
             lambda_h := lambda_h p;
             lambda_a := lambda_a p;
             total_exp := total_exp p;
             both_score := Py.round (_calc_both_score m) 4;
             over_1_5 := Py.round (_calc_over m 1.5) 4;
             over_2_5 := Py.round (_calc_over m 2.5) 4;
             over_3_5 := Py.round (_calc_over m 3.5) 4 |}.
Proof.
  intros t. unfold _apply_dc_correction. rewrite outcome_triple_eq. reflexivity.
Qed.

Lemma triple_parts_range (m : Np.matrix) :
  nonneg_matrix m ->
  let t := Py.or_else (triple_total m) 1.0 in
  0 <= Np.tril_sum m / t <= 1 /\ 0 <= Np.diag_sum m / t <= 1 /\
  0 <= Np.triu_sum m / t <= 1.
Proof.
  intros Hm t.
  pose proof (sum_where_nonneg (fun i j => Nat.ltb j i) m Hm) as H1.
  pose proof (sum_where_nonneg Nat.eqb m Hm) as H2.
  pose proof (sum_where_nonneg (fun i j => Nat.ltb i j) m Hm) as H3.
  fold (Np.tril_sum m) in H1. fold (Np.diag_sum m) in H2. fold (Np.triu_sum m) in H3.
  unfold t, triple_total.
  repeat split; apply part_over_total; lra.
Qed.

Lemma dc_result_ranges (p p' : PoissonResult) (m : Np.matrix) :
  nonneg_matrix m ->
  _apply_dc_correction p m = Py.Ok p' ->
  lambda_h p' = lambda_h p /\ lambda_a p' = lambda_a p /\
  total_exp p' = total_exp p /\
  0 <= home_win p' <= 1 /\ 0 <= draw p' <= 1 /\ 0 <= away_win p' <= 1 /\
  0 <= both_score p' <= 1 /\
  0 <= over_3_5 p' /\ over_3_5 p' <= over_2_5 p' /\
  over_2_5 p' <= over_1_5 p' /\ over_1_5 p' <= 1.
Proof.
  intros Hm H. rewrite apply_dc_correction_eq in H. injection H as <-.
  cbn [home_win draw away_win lambda_h lambda_a total_exp both_score
       over_1_5 over_2_5 over_3_5].
  destruct (triple_parts_range m Hm) as (T1 & T2 & T3).
  repeat apply conj; try reflexivity;
    try (apply round4_unit; assumption);
    try (apply round4_unit; now apply calc_both_score_range);
    try (apply round4_unit; apply calc_over_range);
    try (apply round_mono, calc_over_antitone; [exact Hm | lra]).
Qed.

(** On a matrix of non-negative cells [_apply_dc_correction] keeps the
    two rates and their total, and every probability it writes lies in
    [0, 1]: the outcome triple, both-teams-to-score and the three
    totals, which are ordered over 3.5 <= over 2.5 <= over 1.5. *)
Theorem apply_dc_correction_ranges (p : PoissonResult) (m : Np.matrix) :
  nonneg_matrix m ->
  exists p',
    _apply_dc_correction p m = Py.Ok p' /\
    lambda_h p' = lambda_h p /\ lambda_a p' = lambda_a p /\
    total_exp p' = total_exp p /\
    0 <= home_win p' <= 1 /\ 0 <= draw p' <= 1 /\ 0 <= away_win p' <= 1 /\
    0 <= both_score p' <= 1 /\
    0 <= over_3_5 p' /\ over_3_5 p' <= over_2_5 p' /\
    over_2_5 p' <= over_1_5 p' /\ over_1_5 p' <= 1.
Proof.
  intros Hm. destruct (apply_dc_correction_total p m) as [p' Hp'].
  exists p'. split; [exact Hp' |]. now apply (dc_result_ranges p p' m).
Qed.

Lemma apply_dc_correction_ranges_witness :
  exists p',
    _apply_dc_correction sample_result thirds_matrix = Py.Ok p' /\
    lambda_h p' = lambda_h sample_result /\
    over_3_5 p' <= over_2_5 p'.
Proof.
  destruct (apply_dc_correction_ranges sample_result thirds_matrix)
    as (p' & H & Hl & _ & _ & _ & _ & _ & _ & _ & Ho & _).
  - repeat constructor; lra.
  - exists p'. auto.
Defined.

End Ranges.

(** ** Ranges of the results of an evaluation *)

Section EvaluationRanges.

Variables (ml : MatchPredictor) (home_stats away_stats : TeamStats).
Variables (weather_data : WeatherData) (h2h : Py.Dict) (neutral_field : bool).
Variables (xg_home xg_away : Py.Dict) (fatigue_home fatigue_away importance : R).

Lemma max3_ge_third (a b c : R) : (a + b + c) / 3 <= max3 a b c.
Proof.
  pose proof (max3_upper a b c). lra.
Qed.

Lemma final_parts_range (p : PoissonResult) (d : Py.Dict) (f : FinalProbs) :
  0 <= home_win p -> 0 <= draw p -> 0 <= away_win p ->
  0 <= Py.get d "home_win" 0.33 -> 0 <= Py.get d "draw" 0.33 ->
  0 <= Py.get d "away_win" 0.33 ->
  _ensemble p (Some d) = Py.Ok f ->
  0 <= final_home_win f <= 1 /\ 0 <= final_draw f <= 1 /\ 0 <= final_away_win f <= 1.
Proof.
  intros P1 P2 P3 D1 D2 D3 H. rewrite ensemble_eq in H. injection H as <-.
  cbn [final_home_win final_draw final_away_win].
  assert (B1 : 0 <= blend_home p d) by (unfold blend_home; lra).
  assert (B2 : 0 <= blend_draw p d) by (unfold blend_draw; lra).
  assert (B3 : 0 <= blend_away p d) by (unfold blend_away; lra).
  unfold blend_total.
  repeat split; apply round4_unit, part_over_total; lra.
Qed.

(** The best probability of the corrected result of an evaluation. *)
Lemma evaluation_best_prob (p0 p1 : PoissonResult) :
  0.26 <= lambda_h p0 <= 6.72 -> 0.28 <= lambda_a p0 <= 6.36 ->
  _apply_dc_correction p0
    (build_dc_matrix (lambda_h p0) (lambda_a p0) 10 (-0.13)) = Py.Ok p1 ->
  0.3333 <= best_prob p1 <= 1.
Proof.
  intros Bh Ba Hp1.
  set (dcm := build_dc_matrix (lambda_h p0) (lambda_a p0) 10 (-0.13)) in *.
  assert (Hdc : nonneg_matrix dcm /\ Np.msum dcm = 1).
  { apply build_dc_matrix_normalized, corrected_total_pos; lra. }
  destruct Hdc as [Hnn Hsum].
  destruct (dc_result_ranges p0 p1 dcm Hnn Hp1)
    as (_ & _ & _ & R1 & R2 & R3 & _).
  assert (Hbase : Rabs (base_sum p1 - 1) <= 1 / 10000).
  { apply (apply_dc_correction_sum p0 p1 dcm); [| exact Hp1].
    unfold dcm. rewrite dc_triple_total; lra. }
  apply Rabs_le_bounds in Hbase. unfold base_sum in Hbase.
  pose proof (max3_ge_third (home_win p1) (draw p1) (away_win p1)) as Hlo.
  unfold best_prob. split; [lra |].
  destruct (max3_cases (home_win p1) (draw p1) (away_win p1))
    as [-> | [-> | ->]]; lra.
Qed.

(** Every evaluation returns; the rates it reports are those of
    [calculate_poisson] (the correction step keeps them) and lie in
    [0.26, 6.72] and [0.28, 6.36]; every matrix-derived probability
    lies in [0, 1] with over 3.5 <= over 2.5 <= over 1.5; the
    confidence percentage lies in [33.3, 100]; and the final triple
    lies in [0, 1] whenever the prediction step of the evaluation
    yields no opinion or an opinion whose probabilities are
    non-negative. *)
Theorem analysis_ranges :
  exists a p0 mlp,
    analyze_match ml home_stats away_stats weather_data h2h neutral_field
      xg_home xg_away fatigue_home fatigue_away importance = Py.Ok a /\
    calculate_poisson home_stats away_stats weather_data h2h neutral_field = Py.Ok p0 /\
    (if is_trained ml
     then predict ml
            (build_features (lambda_h (poisson_of a)) (lambda_a (poisson_of a))
               (elo home_stats) (elo away_stats)
               (form_score home_stats) (form_score away_stats) xg_home xg_away
               weather_data h2h fatigue_home fatigue_away importance)
     else Py.Ok None) = Py.Ok mlp /\
    lambda_h (poisson_of a) = lambda_h p0 /\
    lambda_a (poisson_of a) = lambda_a p0 /\
    0.26 <= lambda_h (poisson_of a) <= 6.72 /\
    0.28 <= lambda_a (poisson_of a) <= 6.36 /\
    0 <= home_win (poisson_of a) <= 1 /\
    0 <= draw (poisson_of a) <= 1 /\
    0 <= away_win (poisson_of a) <= 1 /\
    0 <= both_score (poisson_of a) <= 1 /\
    0 <= over_3_5 (poisson_of a) /\
    over_3_5 (poisson_of a) <= over_2_5 (poisson_of a) /\
    over_2_5 (poisson_of a) <= over_1_5 (poisson_of a) /\
    over_1_5 (poisson_of a) <= 1 /\
    33.3 <= confidence a <= 100 /\
    ml_used a = (match mlp with Some _ => true | None => false end) /\
    match mlp with
    | None =>
        0 <= final_home_win (final_probs a) <= 1 /\
        0 <= final_draw (final_probs a) <= 1 /\
        0 <= final_away_win (final_probs a) <= 1
    | Some d =>
        0 <= Py.get d "home_win" 0.33 -> 0 <= Py.get d "draw" 0.33 ->
        0 <= Py.get d "away_win" 0.33 ->
        0 <= final_home_win (final_probs a) <= 1 /\
        0 <= final_draw (final_probs a) <= 1 /\
        0 <= final_away_win (final_probs a) <= 1
    end.
Proof.
  destruct (analyze_match_steps ml home_stats away_stats weather_data h2h
              neutral_field xg_home xg_away fatigue_home fatigue_away importance)
    as (p0 & p1 & mlp & f & Hp0 & Bh & Ba & Hp1 & Hml & Hf & Hrun).
  pose proof (evaluation_best_prob p0 p1 Bh Ba Hp1) as Hbest.
  pose proof (confidence_range p1 Hbest) as Hconf.
  set (dcm := build_dc_matrix (lambda_h p0) (lambda_a p0) 10 (-0.13)) in *.
  assert (Hdc : nonneg_matrix dcm /\ Np.msum dcm = 1).
  { apply build_dc_matrix_normalized, corrected_total_pos; lra. }
  destruct Hdc as [Hnn Hsum].
  destruct (dc_result_ranges p0 p1 dcm Hnn Hp1)
    as (Lh & La & _ & R1 & R2 & R3 & R4 & R5 & R6 & R7 & R8).
  eexists. exists p0, mlp. split; [exact Hrun |].
  cbn [poisson_of final_probs confidence ml_used].
  split; [exact Hp0 |]. split; [exact Hml |].
  rewrite Lh, La.
  repeat apply conj; try assumption; try reflexivity; try tauto.
  destruct mlp as [d |].
  - intros D1 D2 D3. apply (final_parts_range p1 d f); tauto.
  - destruct (ensemble_passthrough p1 f Hf) as (H1 & H2 & H3 & _).
    rewrite H1, H2, H3. tauto.
Qed.

(** C5, as the code has it. The confidence of every evaluation is
    computed from the matrix-derived (Dixon-Coles corrected) result,
    before the blend: it is the float product of that result's maximum
    probability with 100, rounded to one decimal, hence within 0.05 (and
    the 1e-12 of the float product) of 100 x that maximum, and it is the
    percentage of the final triple only when no classifier result is
    blended in. The label is high iff the rounded percentage is at
    least 60, medium iff it is at least 48 and below 60, low otherwise;
    because the percentage is rounded first, 0.60 and 0.5999 both map
    to high and 0.48 and 0.4799 both map to medium; and on an exact tie
    of the one-decimal grid the float product decides, so that 0.4795
    gives 47.9 and low (not 48.0) and 0.3345 gives 33.5 (not 33.4). *)
Theorem confidence_of_matrix_triple :
  (exists p0 a,
      calculate_poisson home_stats away_stats weather_data h2h neutral_field
      = Py.Ok p0 /\
      analyze_match ml home_stats away_stats weather_data h2h neutral_field
        xg_home xg_away fatigue_home fatigue_away importance = Py.Ok a /\
      _apply_dc_correction p0
        (build_dc_matrix (lambda_h p0) (lambda_a p0) 10 (-0.13))
      = Py.Ok (poisson_of a) /\
      confidence a = Py.round (Py.fmul (best_prob (poisson_of a)) 100) 1 /\
      Rabs (confidence a - 100 * best_prob (poisson_of a)) <= 0.05 + 1 / 10 ^ 12 /\
      (confidence_label a = High <-> 60 <= confidence a) /\
      (confidence_label a = Medium <-> 48 <= confidence a < 60) /\
      (confidence_label a = Low <-> confidence a < 48) /\
      (ml_used a = false ->
       best_prob (poisson_of a)
       = max3 (final_home_win (final_probs a)) (final_draw (final_probs a))
              (final_away_win (final_probs a)))) /\
  confidence_level (triple_result 0.60 0.25 0.15) = (60, High) /\
  confidence_level (triple_result 0.5999 0.25 0.1501) = (60, High) /\
  confidence_level (triple_result 0.48 0.30 0.22) = (48, Medium) /\
  confidence_level (triple_result 0.4799 0.30 0.2201) = (48, Medium) /\
  confidence_level (triple_result 0.4795 0.30 0.2205) = (47.9, Low) /\
  confidence_level (triple_result 0.3345 0.3330 0.3325) = (33.5, Low).
Proof.
  destruct (analyze_match_steps ml home_stats away_stats weather_data h2h
              neutral_field xg_home xg_away fatigue_home fatigue_away importance)
    as (p0 & p1 & mlp & f & Hp0 & Bh & Ba & Hp1 & Hml & Hf & Hrun).
  pose proof (evaluation_best_prob p0 p1 Bh Ba Hp1) as Hbest.
  split.
  - exists p0. eexists. split; [exact Hp0 |]. split; [exact Hrun |].
    cbn [poisson_of confidence confidence_label ml_used final_probs].
    pose proof (confidence_label_bands p1) as Hbands. cbv zeta in Hbands.
    destruct Hbands as (Hh & Hm & Hl).
    split; [exact Hp1 |]. split; [reflexivity |].
    split; [apply confidence_accuracy; lra |].
    split; [exact Hh |]. split; [exact Hm |]. split; [exact Hl |].
    destruct mlp; [discriminate |]. intros _.
    destruct (ensemble_passthrough p1 f Hf) as (H1 & H2 & H3 & _).
    unfold best_prob. now rewrite H1, H2, H3.
  - destruct confidence_boundaries as (B1 & B2 & B3 & B4).
    destruct confidence_on_tie as (T1 & T2).
    repeat split; assumption.
Qed.

End EvaluationRanges.

Section EvaluationRangesExample.

Lemma analysis_ranges_witness :
  exists a,
    analyze_match (predictor_of two_class_estimator) default_team default_team
      default_weather [] false default_xg default_xg 0 0 1 = Py.Ok a /\
    33.3 <= confidence a <= 100 /\
    ml_used a = true /\
    0 <= final_home_win (final_probs a) <= 1.
Proof.
  destruct (analysis_ranges (predictor_of two_class_estimator) default_team
              default_team default_weather [] false default_xg default_xg 0 0 1)
    as (a & p0 & mlp & Ha & _ & Hml & _ & _ & _ & _ & _ & _ & _ & _ & _ & _ & _ & _
        & Hc & Hu & Hf).
  cbn [is_trained predictor_of] in Hml.
  change (Py.Ok (Some (ml_dict 0.4 0.33 0.6)) = Py.Ok mlp) in Hml.
  injection Hml as <-.
  exists a. split; [exact Ha |]. split; [exact Hc |]. split; [exact Hu |].
  apply Hf; cbn; lra.
Defined.

Lemma confidence_of_matrix_triple_witness :
  exists a,
    analyze_match untrained_predictor default_team default_team default_weather
      [] false default_xg default_xg 0 0 1 = Py.Ok a /\
    confidence a = Py.round (Py.fmul (best_prob (poisson_of a)) 100) 1 /\
    best_prob (poisson_of a)
    = max3 (final_home_win (final_probs a)) (final_draw (final_probs a))
           (final_away_win (final_probs a)).
Proof.
  destruct (confidence_of_matrix_triple untrained_predictor default_team
              default_team default_weather [] false default_xg default_xg 0 0 1)
    as [(p0 & a & _ & Ha & _ & Hc & _ & _ & _ & _ & Hfinal) _].
  exists a. split; [exact Ha |]. split; [exact Hc |].
  apply Hfinal.
  clear - Ha. unfold analyze_match in Ha.
  destruct (calculate_poisson _ _ _ _ _) as [q0 |]; [| discriminate].
  cbn [Py.bind] in Ha.
  destruct (_apply_dc_correction _ _) as [q1 |]; [| discriminate].
  cbn [Py.bind is_trained untrained_predictor] in Ha.
  destruct (_ensemble q1 None) as [g |]; [| discriminate].
  cbn [Py.bind] in Ha.
  destruct (confidence_level q1). injection Ha as <-. reflexivity.
Defined.

End EvaluationRangesExample.

(** ** The Poisson law of the mass array *)

Section PoissonLaw.

Lemma nth_map_seq (g : nat -> R) (n k : nat) :
  (k < n)%nat -> nth k (map g (seq 0 n)) 0 = g k.
Proof.
  intros Hk.
  rewrite (nth_indep _ 0 (g 0%nat)) by (rewrite length_map, length_seq; exact Hk).
  rewrite map_nth, seq_nth by exact Hk. reflexivity.
Qed.

Lemma pmf_entry (lam : R) (max_k k : nat) :
  (k <= max_k)%nat ->
  nth k (_pmf_array lam max_k) 0
  = exp (- Rmax lam 1e-9) * (/ INR (fact k) * Rmax lam 1e-9 ^ k).
Proof.
  intros Hk. unfold _pmf_array.
  rewrite (nth_map_seq
             (fun k => exp (INR k * ln (Rmax lam 1e-9) - Rmax lam 1e-9 - log_fact k)))
    by lia.
  apply pmf_term. apply Rlt_le_trans with 1e-9; [lra | apply Rmax_r].
Qed.

(** The array computed in log-space is the Poisson law: its entry [k]
    is [lam^k e^(-lam) / k!] for every rate of at least 1e-9, a
    smaller rate is replaced by 1e-9, the array has [max_k + 1]
    entries, all positive, and their sum, the mass kept by the
    truncation, lies strictly between 0 and 1. *)
Theorem pmf_array_is_poisson (lam : R) (max_k : nat) :
  length (_pmf_array lam max_k) = (max_k + 1)%nat /\
  (forall k, (k <= max_k)%nat -> 1e-9 <= lam ->
             nth k (_pmf_array lam max_k) 0 = lam ^ k * exp (- lam) / INR (fact k)) /\
  (lam <= 1e-9 -> _pmf_array lam max_k = _pmf_array 1e-9 max_k) /\
  (forall k, (k <= max_k)%nat -> 0 < nth k (_pmf_array lam max_k) 0) /\
  0 < Np.sum (_pmf_array lam max_k) < 1.
Proof.
  repeat apply conj.
  - apply pmf_length.
  - intros k Hk Hl. rewrite pmf_entry by exact Hk.
    rewrite Rmax_left by exact Hl. unfold Rdiv. ring.
  - intros Hl. unfold _pmf_array.
    rewrite (Rmax_right lam 1e-9) by exact Hl.
    rewrite (Rmax_left 1e-9 1e-9) by lra. reflexivity.
  - intros k Hk. apply nth_pos; [apply pmf_positive | rewrite pmf_length; lia].
  - apply pmf_sum_bounds.
  - apply pmf_sum_bounds.
Qed.

Lemma pmf_array_is_poisson_witness :
  nth 2 (_pmf_array 1.5 10) 0 = 1.5 ^ 2 * exp (Ropp 1.5) / INR (fact 2).
Proof.
  destruct (pmf_array_is_poisson 1.5 10) as (_ & H & _).
  apply H; [lia | lra].
Defined.

End PoissonLaw.

(** ** How the correction moves mass *)

Section MassShift.

Ltac sum_step := cbn [map combine seq length fst snd nth]; rewrite ?sum_cons, ?sum_nil.

Lemma masked_sum_set_nth (P : nat -> bool) (row : Np.vector) (y : nat) (v : R) :
  (y < length row)%nat ->
  forall s,
    Np.sum (map (fun jv : nat * R => if P (fst jv) then snd jv else 0)
                (combine (seq s (length (Np.set_nth row y (fun _ => v))))
                         (Np.set_nth row y (fun _ => v))))
    = Np.sum (map (fun jv : nat * R => if P (fst jv) then snd jv else 0)
                  (combine (seq s (length row)) row))
      + (if P (s + y)%nat then v - nth y row 0 else 0).
Proof.
  revert y. induction row as [| x row IH]; intros [| y] Hy s; cbn [length] in Hy;
    try lia; cbn [Np.set_nth]; sum_step.
  - rewrite Nat.add_0_r. destruct (P s); lra.
  - rewrite IH by lia. replace (S s + y)%nat with (s + S y)%nat by lia. lra.
Qed.

Lemma row_sum_where_set_nth (P : nat -> bool) (row : Np.vector) (y : nat) (v : R) :
  (y < length row)%nat ->
  Np.row_sum_where P (Np.set_nth row y (fun _ => v))
  = Np.row_sum_where P row + (if P y then v - nth y row 0 else 0).
Proof.
  intros Hy. unfold Np.row_sum_where.
  rewrite masked_sum_set_nth by exact Hy. reflexivity.
Qed.

Lemma sum_where_set_cell (P : nat -> nat -> bool) (m : Np.matrix) (x y : nat) (v : R) :
  (x < length m)%nat -> (y < length (nth x m []))%nat ->
  Np.sum_where P (Np.set_cell m x y v)
  = Np.sum_where P m + (if P x y then v - Np.cell m x y else 0).
Proof.
  unfold Np.sum_where, Np.set_cell, Np.cell.
  assert (Hgen : forall s,
    (x < length m)%nat -> (y < length (nth x m []))%nat ->
    Np.sum (map (fun ir : nat * Np.vector => Np.row_sum_where (P (fst ir)) (snd ir))
                (combine (seq s (length (Np.set_nth m x
                                           (fun row => Np.set_nth row y (fun _ => v)))))
                         (Np.set_nth m x (fun row => Np.set_nth row y (fun _ => v)))))
    = Np.sum (map (fun ir : nat * Np.vector => Np.row_sum_where (P (fst ir)) (snd ir))
                  (combine (seq s (length m)) m))
      + (if P (s + x)%nat y then v - nth y (nth x m []) 0 else 0)).
  { revert x. induction m as [| r m IH]; intros [| x] s Hx Hy; cbn [length] in Hx;
      try lia; cbn [Np.set_nth nth] in *; sum_step.
    - rewrite row_sum_where_set_nth by exact Hy. rewrite Nat.add_0_r. lra.
    - rewrite IH by (try lia; exact Hy).
      replace (S s + x)%nat with (s + S x)%nat by lia. lra. }
  intros Hx Hy. apply (Hgen 0%nat Hx Hy).
Qed.

Lemma msum_as_sum_where (m : Np.matrix) :
  Np.msum m = Np.sum_where (fun _ _ => true) m.
Proof.
  rewrite <- (sum_where_compl (fun _ _ => true) m).
  assert (Hz : Np.sum_where (fun i j => negb true) m = 0).
  { unfold Np.sum_where. generalize 0%nat.
    induction m as [| r m IH]; intros s; sum_step; [reflexivity |].
    rewrite IH. unfold Np.row_sum_where.
    rewrite (masked_sum_none (fun _ => negb true) r 0) by reflexivity. lra. }
  rewrite Hz. lra.
Qed.

Ltac cell_differs := solve [left; lia | right; lia].

Ltac cell_in_range lh la mg :=
  rewrite ?set_cell_row_length, ?set_cell_length;
  rewrite ?(raw_matrix_length lh la mg), ?(raw_matrix_row_length lh la mg) by lia;
  lia.

Ltac read_cells lh la mg :=
  repeat first
    [ rewrite cell_set_cell_other by cell_differs
    | rewrite cell_set_cell_same by cell_in_range lh la mg ].

(** Any masked sum of the corrected matrix is that of the raw matrix
    plus the changes of the four low-score cells that the mask
    selects. *)
Lemma corrected_sum_where (P : nat -> nat -> bool) (lh la rho : R) (mg : nat) :
  (1 <= mg)%nat ->
  let raw := raw_matrix lh la mg in
  Np.sum_where P (corrected_matrix lh la mg rho)
  = Np.sum_where P raw
    + (if P 0%nat 0%nat
       then Rmax 0 (Np.cell raw 0 0 * (1 - lh * la * rho)) - Np.cell raw 0 0 else 0)
    + (if P 0%nat 1%nat
       then Rmax 0 (Np.cell raw 0 1 * (1 + lh * rho)) - Np.cell raw 0 1 else 0)
    + (if P 1%nat 0%nat
       then Rmax 0 (Np.cell raw 1 0 * (1 + la * rho)) - Np.cell raw 1 0 else 0)
    + (if P 1%nat 1%nat
       then Rmax 0 (Np.cell raw 1 1 * (1 - rho)) - Np.cell raw 1 1 else 0).
Proof.
  intros Hmg raw. unfold corrected_matrix. fold raw.
  rewrite tau_loop_four by exact Hmg. cbv zeta.
  replace 0.0 with 0 by lra.
  unfold raw.
  rewrite sum_where_set_cell by cell_in_range lh la mg.
  rewrite sum_where_set_cell by cell_in_range lh la mg.
  rewrite sum_where_set_cell by cell_in_range lh la mg.
  rewrite sum_where_set_cell by cell_in_range lh la mg.
  read_cells lh la mg.
  unfold _tau. cbn [Nat.eqb andb]. ring.
Qed.

Lemma raw_low_cells (lh la : R) (mg : nat) :
  (1 <= mg)%nat -> 1e-9 <= lh -> 1e-9 <= la ->
  let e := exp (- (lh + la)) in
  Np.cell (raw_matrix lh la mg) 0 0 = e /\
  Np.cell (raw_matrix lh la mg) 0 1 = la * e /\
  Np.cell (raw_matrix lh la mg) 1 0 = lh * e /\
  Np.cell (raw_matrix lh la mg) 1 1 = lh * la * e.
Proof.
  intros Hmg Hh Ha e. unfold raw_matrix.
  rewrite !cell_outer, !pmf_entry by lia.
  rewrite !(Rmax_left lh) by exact Hh. rewrite !(Rmax_left la) by exact Ha.
  unfold e. rewrite Ropp_plus_distr, exp_plus.
  cbn [fact pow Nat.mul Nat.add INR].
  repeat split; field.
Qed.

Lemma corrected_low_changes (lh la rho : R) (mg : nat) :
  (1 <= mg)%nat -> 1e-9 <= lh -> 1e-9 <= la ->
  0 <= 1 - lh * la * rho -> 0 <= 1 + lh * rho -> 0 <= 1 + la * rho -> 0 <= 1 - rho ->
  let raw := raw_matrix lh la mg in
  let e := exp (- (lh + la)) in
  Rmax 0 (Np.cell raw 0 0 * (1 - lh * la * rho)) - Np.cell raw 0 0 = - rho * lh * la * e /\
  Rmax 0 (Np.cell raw 0 1 * (1 + lh * rho)) - Np.cell raw 0 1 = rho * lh * la * e /\
  Rmax 0 (Np.cell raw 1 0 * (1 + la * rho)) - Np.cell raw 1 0 = rho * lh * la * e /\
  Rmax 0 (Np.cell raw 1 1 * (1 - rho)) - Np.cell raw 1 1 = - rho * lh * la * e.
Proof.
  intros Hmg Hh Ha T00 T01 T10 T11 raw e.
  destruct (raw_low_cells lh la mg Hmg Hh Ha) as (C00 & C01 & C10 & C11).
  fold e in C00, C01, C10, C11. fold raw in C00, C01, C10, C11.
  assert (He : 0 < e) by apply exp_pos.
  assert (Hle : 0 <= la * e) by (apply Rmult_le_pos; lra).
  assert (Hhe : 0 <= lh * e) by (apply Rmult_le_pos; lra).
  assert (Hhle : 0 <= lh * la * e) by (apply Rmult_le_pos; [apply Rmult_le_pos |]; lra).
  rewrite C00, C01, C10, C11.
  rewrite !Rmax_right by (apply Rmult_le_pos; lra).
  repeat split; ring.
Qed.

Lemma sum_where_scale_div (P : nat -> nat -> bool) (m : Np.matrix) (t : R) :
  Np.sum_where P (Np.scale_div m t) = Np.sum_where P m / t.
Proof.
  unfold Np.sum_where, Np.scale_div. rewrite length_map. generalize 0%nat.
  induction m as [| r m IH]; intros s; sum_step; [lra |].
  rewrite IH.
  assert (Hr : Np.row_sum_where (P s) (map (fun v => v / t) r)
               = Np.row_sum_where (P s) r / t).
  { unfold Np.row_sum_where. rewrite length_map. generalize 0%nat.
    induction r as [| x r IHr]; intros k; sum_step; [lra |].
    rewrite IHr. destruct (P s k); lra. }
  rewrite Hr. lra.
Qed.

Lemma corrected_mass (lh la rho : R) (mg : nat) :
  (1 <= mg)%nat -> 1e-9 <= lh -> 1e-9 <= la -> rho <= 0 ->
  0 <= 1 + lh * rho -> 0 <= 1 + la * rho ->
  let raw := raw_matrix lh la mg in
  let cor := corrected_matrix lh la mg rho in
  let e := exp (- (lh + la)) in
  Np.msum cor = Np.msum raw /\
  Np.diag_sum cor = Np.diag_sum raw - 2 * rho * lh * la * e /\
  Np.tril_sum cor = Np.tril_sum raw + rho * lh * la * e /\
  Np.triu_sum cor = Np.triu_sum raw + rho * lh * la * e.
Proof.
  intros Hmg Hh Ha Hr T01 T10 raw cor e.
  assert (Hhl : 0 <= lh * la) by (apply Rmult_le_pos; lra).
  assert (T00 : 0 <= 1 - lh * la * rho) by nra.
  assert (T11 : 0 <= 1 - rho) by lra.
  destruct (corrected_low_changes lh la rho mg Hmg Hh Ha T00 T01 T10 T11)
    as (D00 & D01 & D10 & D11).
  fold raw in D00, D01, D10, D11. fold e in D00, D01, D10, D11.
  repeat apply conj.
  - unfold cor. rewrite !msum_as_sum_where.
    rewrite corrected_sum_where by exact Hmg. fold raw.
    rewrite D00, D01, D10, D11. ring.
  - unfold cor, Np.diag_sum.
    rewrite corrected_sum_where by exact Hmg. fold raw.
    cbn [Nat.eqb]. rewrite D00, D11. ring.
  - unfold cor, Np.tril_sum.
    rewrite corrected_sum_where by exact Hmg. fold raw.
    cbn [Nat.ltb Nat.leb]. rewrite D10. ring.
  - unfold cor, Np.triu_sum.
    rewrite corrected_sum_where by exact Hmg. fold raw.
    cbn [Nat.ltb Nat.leb]. rewrite D01. ring.
Qed.

Lemma build_dc_matrix_scaled (lh la rho : R) (mg : nat) :
  0 <= lh -> 0 <= la -> rho <= 0 ->
  build_dc_matrix lh la mg rho
  = Np.scale_div (corrected_matrix lh la mg rho)
                 (Np.msum (corrected_matrix lh la mg rho)).
Proof.
  intros Hh Ha Hr. rewrite build_dc_matrix_unfold.
  pose proof (corrected_total_pos lh la rho mg Hh Ha Hr).
  destruct (Rlt_dec 0 _); [reflexivity | contradiction].
Qed.

Lemma corrected_high_cell (lh la rho : R) (mg x y : nat) :
  (1 <= mg)%nat -> (2 <= x)%nat \/ (2 <= y)%nat ->
  Np.cell (corrected_matrix lh la mg rho) x y = Np.cell (raw_matrix lh la mg) x y.
Proof.
  intros Hmg Hxy. unfold corrected_matrix.
  rewrite tau_loop_four by exact Hmg. cbv zeta.
  rewrite !cell_set_cell_other by (destruct Hxy; [left | right]; lia).
  reflexivity.
Qed.

(** As long as no factor is floored (rates of at least 1e-9, [rho <= 0]
    and the two factors [1 + lambda * rho] non-negative), the tau
    correction only moves mass among the four low-score cells: the
    total of the corrected matrix is that of the raw matrix, so the
    renormalization divides by the mass kept by the truncation, and
    every cell outside the low-score block of the returned matrix is
    the raw cell divided by that mass, whatever [rho] is. *)
Theorem tau_correction_preserves_mass (lh la rho : R) (mg : nat) :
  (1 <= mg)%nat -> 1e-9 <= lh -> 1e-9 <= la -> rho <= 0 ->
  0 <= 1 + lh * rho -> 0 <= 1 + la * rho ->
  let raw := raw_matrix lh la mg in
  Np.msum (corrected_matrix lh la mg rho) = Np.msum raw /\
  build_dc_matrix lh la mg rho
  = Np.scale_div (corrected_matrix lh la mg rho) (Np.msum raw) /\
  (forall x y, (2 <= x)%nat \/ (2 <= y)%nat ->
               Np.cell (build_dc_matrix lh la mg rho) x y
               = Np.cell raw x y / Np.msum raw /\
               Np.cell (build_dc_matrix lh la mg rho) x y
               = Np.cell (build_dc_matrix lh la mg 0) x y).
Proof.
  intros Hmg Hh Ha Hr T01 T10 raw.
  destruct (corrected_mass lh la rho mg Hmg Hh Ha Hr T01 T10) as (Hm & _).
  fold raw in Hm.
  assert (Hb : build_dc_matrix lh la mg rho
               = Np.scale_div (corrected_matrix lh la mg rho) (Np.msum raw)).
  { rewrite build_dc_matrix_scaled by lra. now rewrite Hm. }
  split; [exact Hm |]. split; [exact Hb |].
  intros x y Hxy.
  assert (Hc : Np.cell (build_dc_matrix lh la mg rho) x y
               = Np.cell raw x y / Np.msum raw).
  { rewrite Hb, cell_scale_div, corrected_high_cell by assumption. reflexivity. }
  split; [exact Hc |].
  rewrite Hc, build_dc_matrix_rho_zero, cell_scale_div. reflexivity.
Qed.

Lemma tau_correction_preserves_mass_witness :
  Np.msum (corrected_matrix 6.72 0.28 10 (-0.13)) = Np.msum (raw_matrix 6.72 0.28 10).
Proof.
  apply (tau_correction_preserves_mass 6.72 0.28 (-0.13) 10); try lia; lra.
Defined.

(** Under the same conditions the correction moves mass from the
    decisive results to the draws: before renormalization the draw
    mass grows by [-2 rho lambda_h lambda_a e^-(lambda_h + lambda_a)]
    and the home-win and away-win masses shrink by half of that each;
    so in the returned matrix the draw mass is at least, and the
    home-win and away-win masses at most, those of the renormalized
    raw matrix. *)
Theorem tau_correction_favours_draws (lh la rho : R) (mg : nat) :
  (1 <= mg)%nat -> 1e-9 <= lh -> 1e-9 <= la -> rho <= 0 ->
  0 <= 1 + lh * rho -> 0 <= 1 + la * rho ->
  let raw := raw_matrix lh la mg in
  let cor := corrected_matrix lh la mg rho in
  let dc := build_dc_matrix lh la mg rho in
  let shift := - rho * lh * la * exp (- (lh + la)) in
  0 <= shift /\
  Np.diag_sum cor = Np.diag_sum raw + 2 * shift /\
  Np.tril_sum cor = Np.tril_sum raw - shift /\
  Np.triu_sum cor = Np.triu_sum raw - shift /\
  Np.diag_sum raw / Np.msum raw <= Np.diag_sum dc /\
  Np.tril_sum dc <= Np.tril_sum raw / Np.msum raw /\
  Np.triu_sum dc <= Np.triu_sum raw / Np.msum raw.
Proof.
  intros Hmg Hh Ha Hr T01 T10 raw cor dc shift.
  destruct (corrected_mass lh la rho mg Hmg Hh Ha Hr T01 T10) as (Hm & Hd & Hl & Hu).
  fold raw in Hm, Hd, Hl, Hu. fold cor in Hm, Hd, Hl, Hu.
  assert (Hs : 0 <= shift).
  { unfold shift. pose proof (exp_pos (- (lh + la))) as He.
    assert (0 <= lh * la) by (apply Rmult_le_pos; lra).
    replace (- rho * lh * la * exp (- (lh + la)))
      with ((- rho) * ((lh * la) * exp (- (lh + la)))) by ring.
    apply Rmult_le_pos; [lra |]. apply Rmult_le_pos; lra. }
  pose proof (raw_total_bounds lh la mg) as [Hp _]. fold raw in Hp.
  assert (Hb : dc = Np.scale_div cor (Np.msum raw)).
  { unfold dc, cor. rewrite build_dc_matrix_scaled by lra. fold cor. now rewrite Hm. }
  assert (Hinv : 0 < / Np.msum raw) by now apply Rinv_0_lt_compat.
  repeat apply conj; try assumption.
  - rewrite Hd. unfold shift. ring.
  - rewrite Hl. unfold shift. ring.
  - rewrite Hu. unfold shift. ring.
  - rewrite Hb. unfold Np.diag_sum at 2. rewrite sum_where_scale_div.
    fold (Np.diag_sum cor). unfold Rdiv.
    apply Rmult_le_compat_r; [lra |]. rewrite Hd. unfold shift in Hs. lra.
  - rewrite Hb. unfold Np.tril_sum at 1. rewrite sum_where_scale_div.
    fold (Np.tril_sum cor). unfold Rdiv.
    apply Rmult_le_compat_r; [lra |]. rewrite Hl. unfold shift in Hs. lra.
  - rewrite Hb. unfold Np.triu_sum at 1. rewrite sum_where_scale_div.
    fold (Np.triu_sum cor). unfold Rdiv.
    apply Rmult_le_compat_r; [lra |]. rewrite Hu. unfold shift in Hs. lra.
Qed.

Lemma tau_correction_favours_draws_witness :
  Np.diag_sum (raw_matrix 1.5 1.15 10) / Np.msum (raw_matrix 1.5 1.15 10)
  <= Np.diag_sum (build_dc_matrix 1.5 1.15 10 (-0.13)).
Proof.
  assert (Hmg : (1 <= 10)%nat) by lia.
  assert (Hh : 1e-9 <= 1.5) by lra.
  assert (Ha : 1e-9 <= 1.15) by lra.
  assert (Hr : -0.13 <= 0) by lra.
  assert (T01 : 0 <= 1 + 1.5 * -0.13) by lra.
  assert (T10 : 0 <= 1 + 1.15 * -0.13) by lra.
  exact (proj1 (proj2 (proj2 (proj2 (proj2
           (tau_correction_favours_draws 1.5 1.15 (-0.13) 10 Hmg Hh Ha Hr T01 T10)))))).
Defined.

End MassShift.

(** ** What the prediction step returns *)

Section PredictFacts.

(** The prediction reads each probability at the position of its class
    label in the estimator's [classes_] (0 away win, 1 draw, 2 home
    win), whatever the order of the classes, takes [0, 1, 2] when the
    estimator has no [classes_], and puts 0.33 for a class that is not
    listed. *)
Theorem predict_reads_by_class_label (b : Bundle) (m : Estimator)
    (feats row : list R) (rest : list (list R)) (a d h : R) :
  scaler b = None -> model b = Some m ->
  predict_proba m [feats] = Py.Ok (row :: rest) ->
  let classes := match classes_ m with Some c => c | None => [0; 1; 2]%Z end in
  reads_class row classes 0 a ->
  reads_class row classes 1 d ->
  reads_class row classes 2 h ->
  predict {| bundle := Some b; is_trained := true |} feats
  = Py.Ok (Some (ml_dict h d a)).
Proof.
  intros Hs Hm Hp classes Ha Hd Hh.
  unfold predict. cbn [bundle is_trained negb].
  unfold predict_body. rewrite Hs, Hm. cbn [Py.bind]. rewrite Hp. cbn [Py.bind Py.index nth_error].
  fold classes.
  rewrite (class_prob_reads row classes 0 a Ha). cbn [Py.bind].
  rewrite (class_prob_reads row classes 1 d Hd). cbn [Py.bind].
  rewrite (class_prob_reads row classes 2 h Hh). reflexivity.
Qed.

Lemma predict_reads_by_class_label_witness :
  predict {| bundle := Some permuted_bundle; is_trained := true |} [1; 2; 3]
  = Py.Ok (Some (ml_dict 0.5 0.3 0.2)).
Proof.
  apply (predict_reads_by_class_label permuted_bundle permuted_estimator
           [1; 2; 3] [0.5; 0.2; 0.3] []); try reflexivity.
  - right. exists 1%nat. repeat split.
    intros [| j] Hj; [cbn; discriminate | lia].
  - right. exists 2%nat. repeat split.
    intros [| [| j]] Hj; try (cbn; discriminate). lia.
  - right. exists 0%nat. repeat split. intros j Hj. lia.
Defined.

(** Whenever the prediction step yields an opinion, the predictor is
    trained and has a bundle, and the dict holds exactly the three
    keys away_win, draw and home_win: the fall-back value 0.33 that
    [_ensemble] passes to [get] is never used, and the blend is
    0.70 x matrix + 0.30 x classifier on the classifier's own values. *)
Theorem predict_opinion_is_complete (ml : MatchPredictor) (feats : list R)
    (d : Py.Dict) :
  predict ml feats = Py.Ok (Some d) ->
  is_trained ml = true /\
  bundle ml <> None /\
  exists h dr a,
    d = ml_dict h dr a /\
    (forall x, Py.get d "home_win" x = h) /\
    (forall x, Py.get d "draw" x = dr) /\
    (forall x, Py.get d "away_win" x = a) /\
    (forall p, blend_home p d = 0.70 * home_win p + 0.30 * h /\
               blend_draw p d = 0.70 * draw p + 0.30 * dr /\
               blend_away p d = 0.70 * away_win p + 0.30 * a).
Proof.
  unfold predict. intros H.
  destruct (bundle ml) as [b |]; [| discriminate].
  destruct (is_trained ml); cbn [negb] in H; [| discriminate].
  split; [reflexivity |]. split; [discriminate |].
  unfold predict_body in H.
  destruct (match scaler b with Some s => transform s [feats] | None => Py.Ok [feats] end)
    as [X |]; cbn [Py.bind Py.try_except] in H; [| discriminate].
  destruct (model b) as [mdl |]; cbn [Py.bind Py.try_except] in H; [| discriminate].
  destruct (predict_proba mdl X) as [all_probs |]; cbn [Py.bind Py.try_except] in H;
    [| discriminate].
  destruct (Py.index all_probs 0) as [probs |]; cbn [Py.bind Py.try_except] in H;
    [| discriminate].
  destruct (class_prob probs _ 0) as [a |]; cbn [Py.bind Py.try_except] in H;
    [| discriminate].
  destruct (class_prob probs _ 1) as [dr |]; cbn [Py.bind Py.try_except] in H;
    [| discriminate].
  destruct (class_prob probs _ 2) as [h |]; cbn [Py.bind Py.try_except] in H;
    [| discriminate].
  injection H as <-.
  exists h, dr, a. repeat split.
Qed.

Lemma predict_opinion_is_complete_witness :
  Py.get (ml_dict 0.5 0.3 0.2) "home_win" 0.33 = 0.5.
Proof.
  destruct (predict_opinion_is_complete
              {| bundle := Some permuted_bundle; is_trained := true |}
              [1; 2; 3] (ml_dict 0.5 0.3 0.2))
    as (_ & _ & h & dr & a & Hd & Hh & _).
  - reflexivity.
  - unfold ml_dict in Hd. injection Hd as _ _ Hhome.
    rewrite Hh. symmetry. exact Hhome.
Defined.

End PredictFacts.

(** ** Fatigue *)

Section Fatigue.

Lemma clamp_unit (x : R) : 0 <= Rmin (Rmax x 0.0) 1.0 <= 1.
Proof.
  unfold Rmin, Rmax. destruct (Rle_dec x 0.0); destruct (Rle_dec _ 1.0); lra.
Qed.

Lemma clamp_unit_mono (x y : R) :
  x <= y -> Rmin (Rmax x 0.0) 1.0 <= Rmin (Rmax y 0.0) 1.0.
Proof.
  intros H. apply Rle_min_compat_r, Rle_max_compat_r, H.
Qed.

(** The two fatigue factors clamp their argument to [0, 1]: the attack
    factor lies in [0.92, 1.0] and never grows with fatigue, the
    concede factor lies in [1.0, 1.10] and never shrinks with it; both
    are exactly 1 for a fatigue of 0 or less, and 0.92 and 1.10 for a
    fatigue of 1 or more. *)
Theorem fatigue_factor_ranges (fatigue : R) :
  0.92 <= fatigue_to_lambda_factor fatigue <= 1.0 /\
  1.0 <= fatigue_to_concede_factor fatigue <= 1.10 /\
  (fatigue <= 0 ->
   fatigue_to_lambda_factor fatigue = 1 /\ fatigue_to_concede_factor fatigue = 1) /\
  (1 <= fatigue ->
   fatigue_to_lambda_factor fatigue = 0.92 /\
   fatigue_to_concede_factor fatigue = 1.10) /\
  (forall fatigue', fatigue <= fatigue' ->
     fatigue_to_lambda_factor fatigue' <= fatigue_to_lambda_factor fatigue /\
     fatigue_to_concede_factor fatigue <= fatigue_to_concede_factor fatigue').
Proof.
  unfold fatigue_to_lambda_factor, fatigue_to_concede_factor.
  pose proof (clamp_unit fatigue) as Hc.
  repeat apply conj; try lra.
  - intros H. unfold Rmin, Rmax.
    destruct (Rle_dec fatigue 0.0); destruct (Rle_dec _ 1.0); lra.
  - intros H. unfold Rmin, Rmax.
    destruct (Rle_dec fatigue 0.0); destruct (Rle_dec _ 1.0); lra.
  - intros f' Hf. pose proof (clamp_unit_mono fatigue f' Hf). lra.
Qed.

Lemma fatigue_factor_ranges_witness :
  fatigue_to_lambda_factor 1.7 = 0.92 /\ fatigue_to_concede_factor 1.7 = 1.10.
Proof.
  destruct (fatigue_factor_ranges 1.7) as (_ & _ & _ & H & _).
  apply H. lra.
Defined.

Lemma exp_nonpos_le_1 (x : R) : x <= 0 -> exp x <= 1.
Proof.
  intros [Hlt | ->]; [| rewrite exp_0; lra].
  left. rewrite <- exp_0. now apply exp_increasing.
Qed.

Lemma fatigue_step_add (ref_day : Z) (t : R) (m : RecentMatch) :
  fatigue_step ref_day t m = t + fatigue_step ref_day 0 m.
Proof.
  unfold fatigue_step. destruct (match_day m) as [d |]; [| lra].
  destruct (_ || _); lra.
Qed.

Lemma fatigue_step_load (ref_day : Z) (m : RecentMatch) :
  0 <= fatigue_step ref_day 0 m <= 1.3.
Proof.
  unfold fatigue_step. destruct (match_day m) as [d |]; [| lra].
  destruct (Z.ltb_spec (ref_day - d) 0) as [Hneg | Hnn]; cbn [orb]; [lra |].
  destruct (30 <? ref_day - d)%Z; [lra |].
  assert (He : 0 < exp (- IZR (ref_day - d) / 7.0) <= 1).
  { split; [apply exp_pos |]. apply exp_nonpos_le_1.
    apply IZR_le in Hnn. lra. }
  destruct (played_away m); nra.
Qed.

Lemma fatigue_step_skipped (ref_day : Z) (m : RecentMatch) :
  skipped_match ref_day m -> fatigue_step ref_day 0 m = 0.
Proof.
  unfold skipped_match, fatigue_step. destruct (match_day m) as [d |]; [| reflexivity].
  intros [H | H].
  - apply Z.ltb_lt in H. now rewrite H.
  - apply Z.ltb_lt in H. rewrite H, orb_true_r. reflexivity.
Qed.

Lemma fatigue_total_add (ref_day : Z) (l : list RecentMatch) (t : R) :
  fold_left (fatigue_step ref_day) l t = t + fold_left (fatigue_step ref_day) l 0.
Proof.
  revert t. induction l as [| m l IH]; intros t; cbn [fold_left]; [lra |].
  rewrite IH, (IH (fatigue_step ref_day 0 m)), fatigue_step_add. lra.
Qed.

Lemma fatigue_total_bounds (ref_day : Z) (l : list RecentMatch) :
  0 <= fold_left (fatigue_step ref_day) l 0 <= 1.3 * INR (length l).
Proof.
  induction l as [| m l IH]; [cbn; lra |].
  cbn [fold_left]. rewrite fatigue_total_add.
  pose proof (fatigue_step_load ref_day m).
  change (length (m :: l)) with (S (length l)). rewrite S_INR. lra.
Qed.

Lemma calculate_fatigue_unfold (l : list RecentMatch) (ref_day : Z) :
  calculate_fatigue l ref_day
  = Rmin (Rmax (fold_left (fatigue_step ref_day) l 0 / 5.0) 0.0) 1.0.
Proof.
  unfold calculate_fatigue. destruct l as [| m l].
  - cbn [fold_left]. unfold Rmin, Rmax.
    destruct (Rle_dec (0 / 5.0) 0.0); destruct (Rle_dec _ 1.0); lra.
  - replace 0.0 with 0 at 1 by lra. reflexivity.
Qed.

(** The fatigue score lies in [0, 1] and is 0 for an empty list; a
    match counts for at most 1.3 / 5, so the score of [n] matches is
    at most 0.26 n; matches without a readable date, in the future or
    more than 30 days back count for nothing; and one more match in
    the list never lowers the score. *)
Theorem calculate_fatigue_properties (recent : list RecentMatch) (ref_day : Z) :
  0 <= calculate_fatigue recent ref_day <= 1 /\
  calculate_fatigue [] ref_day = 0 /\
  calculate_fatigue recent ref_day <= 0.26 * INR (length recent) /\
  (Forall (skipped_match ref_day) recent -> calculate_fatigue recent ref_day = 0) /\
  (forall m, calculate_fatigue recent ref_day <= calculate_fatigue (m :: recent) ref_day) /\
  (forall m, skipped_match ref_day m ->
             calculate_fatigue (m :: recent) ref_day = calculate_fatigue recent ref_day).
Proof.
  rewrite !calculate_fatigue_unfold.
  pose proof (fatigue_total_bounds ref_day recent) as [T0 T1].
  set (total := fold_left (fatigue_step ref_day) recent 0) in *.
  pose proof (clamp_unit (total / 5.0)) as Hc.
  repeat apply conj.
  - lra.
  - lra.
  - cbn [fold_left]. unfold Rmin, Rmax.
    destruct (Rle_dec (0 / 5.0) 0.0); destruct (Rle_dec _ 1.0); lra.
  - unfold Rmin, Rmax.
    destruct (Rle_dec (total / 5.0) 0.0); destruct (Rle_dec _ 1.0); lra.
  - intros Hall.
    assert (Hz : total = 0).
    { unfold total. clear T0 T1 Hc total.
      induction Hall as [| m l Hm _ IH]; [reflexivity |].
      cbn [fold_left]. rewrite fatigue_total_add, IH, (fatigue_step_skipped _ _ Hm). lra. }
    rewrite Hz. unfold Rmin, Rmax.
    destruct (Rle_dec (0 / 5.0) 0.0); destruct (Rle_dec _ 1.0); lra.
  - intros m. rewrite calculate_fatigue_unfold. cbn [fold_left].
    rewrite fatigue_total_add. fold total.
    pose proof (fatigue_step_load ref_day m).
    apply clamp_unit_mono. lra.
  - intros m Hm. rewrite calculate_fatigue_unfold. cbn [fold_left].
    rewrite fatigue_total_add. fold total.
    rewrite (fatigue_step_skipped _ _ Hm). f_equal. f_equal. lra.
Qed.

Lemma calculate_fatigue_properties_witness :
  calculate_fatigue [{| match_day := Some 100%Z; played_away := true |}] 140 = 0.
Proof.
  destruct (calculate_fatigue_properties
              [{| match_day := Some 100%Z; played_away := true |}] 140)
    as (_ & _ & _ & H & _).
  apply H. constructor; [cbn; right; lia | constructor].
Defined.

End Fatigue.

(** ** Adjustments of the goal averages *)

Section Adjustments.

(** Below five matches of shot data (or without a ["matches"] entry)
    [_apply_xg] returns the statistics unchanged; from five matches on
    each goal average becomes 0.6 x the shot-quality value (1.35 when
    the entry is missing) + 0.4 x the old average, which lies between
    the two; the rating and the form score are never touched. *)
Theorem apply_xg_properties (stats : TeamStats) (xg : Py.Dict) :
  let xgf := Py.get xg "xg_for" 1.35 in
  let xga := Py.get xg "xg_against" 1.35 in
  let new := _apply_xg stats xg in
  (Py.get xg "matches" 0 < 5 -> new = stats) /\
  (5 <= Py.get xg "matches" 0 ->
   avg_goals_scored new = 0.6 * xgf + 0.4 * avg_goals_scored stats /\
   avg_goals_conceded new = 0.6 * xga + 0.4 * avg_goals_conceded stats /\
   Rmin (avg_goals_scored stats) xgf <= avg_goals_scored new
     <= Rmax (avg_goals_scored stats) xgf /\
   Rmin (avg_goals_conceded stats) xga <= avg_goals_conceded new
     <= Rmax (avg_goals_conceded stats) xga) /\
  elo new = elo stats /\ form_score new = form_score stats.
Proof.
  intros xgf xga new. unfold new, _apply_xg.
  destruct (Rle_dec 5 (Py.get xg "matches" 0)) as [H5 | H5].
  - fold xgf xga. cbn [avg_goals_scored avg_goals_conceded elo form_score].
    repeat apply conj; try reflexivity.
    + intros Hlt. lra.
    + intros _. repeat apply conj; try lra;
        unfold Rmin, Rmax; destruct (Rle_dec _ _); lra.
  - repeat apply conj; try reflexivity.
    intros Hge. lra.
Qed.

Lemma apply_xg_properties_witness : _apply_xg default_team default_xg = default_team.
Proof.
  destruct (apply_xg_properties default_team default_xg) as (H & _).
  apply H. cbn. lra.
Defined.

Lemma scale_goals_fields (stats : TeamStats) (ks kc : R) :
  elo (scale_goals stats ks kc) = elo stats /\
  form_score (scale_goals stats ks kc) = form_score stats /\
  avg_goals_scored (scale_goals stats ks kc) = avg_goals_scored stats * ks /\
  avg_goals_conceded (scale_goals stats ks kc) = avg_goals_conceded stats * kc.
Proof. repeat split. Qed.

(** [_apply_news_factors] multiplies the scoring average by 0.93 for
    injuries and by 0.96 for suspensions, and the conceding average by
    1.05 and 1.03, and leaves the rating and the form score alone:
    with both flags the factors are 0.8928 and 1.0815, with neither
    the statistics are unchanged, and for non-negative averages the
    scoring average never grows and the conceding average never
    shrinks. *)
Theorem apply_news_factors_properties (stats : TeamStats) (news : NewsInsight) :
  let new := _apply_news_factors stats news in
  let ks := (if has_injuries news then 0.93 else 1)
            * (if has_suspensions news then 0.96 else 1) in
  let kc := (if has_injuries news then 1.05 else 1)
            * (if has_suspensions news then 1.03 else 1) in
  avg_goals_scored new = avg_goals_scored stats * ks /\
  avg_goals_conceded new = avg_goals_conceded stats * kc /\
  0.8928 <= ks <= 1 /\ 1 <= kc <= 1.0815 /\
  elo new = elo stats /\ form_score new = form_score stats /\
  (has_injuries news = false -> has_suspensions news = false -> new = stats) /\
  (0 <= avg_goals_scored stats ->
   0.8928 * avg_goals_scored stats <= avg_goals_scored new <= avg_goals_scored stats) /\
  (0 <= avg_goals_conceded stats ->
   avg_goals_conceded stats <= avg_goals_conceded new
     <= 1.0815 * avg_goals_conceded stats).
Proof.
  intros new ks kc. unfold new, ks, kc, _apply_news_factors.
  destruct stats as [e f s c].
  destruct (has_injuries news); destruct (has_suspensions news);
    cbn [scale_goals avg_goals_scored avg_goals_conceded elo form_score];
    repeat apply conj; try reflexivity; try lra; try discriminate;
    try (intros; nra).
Qed.

Lemma apply_news_factors_properties_witness :
  avg_goals_scored default_team
  <= avg_goals_scored
       (_apply_news_factors default_team
          {| has_injuries := false; has_suspensions := false |})
  /\ avg_goals_conceded default_team
     <= avg_goals_conceded
          (_apply_news_factors default_team
             {| has_injuries := true; has_suspensions := true |}).
Proof.
  destruct (apply_news_factors_properties default_team
              {| has_injuries := false; has_suspensions := false |})
    as (_ & _ & _ & _ & _ & _ & Hsame & _).
  destruct (apply_news_factors_properties default_team
              {| has_injuries := true; has_suspensions := true |})
    as (_ & _ & _ & _ & _ & _ & _ & _ & Hc).
  split.
  - rewrite Hsame by reflexivity. lra.
  - apply Hc. cbn. lra.
Defined.

End Adjustments.

(** ** The form score *)

Section FormScore.

Lemma form_weight_pos (i : nat) : 0 < nth i form_weights 0.3 <= 1.
Proof.
  unfold form_weights.
  destruct i as [| [| [| [| [| i]]]]]; cbn [nth]; try lra.
  destruct i; lra.
Qed.

Lemma result_points_range (r : string) : 0 <= result_points r <= 3.
Proof.
  unfold result_points. destruct (String.eqb r "W"); [lra |].
  destruct (String.eqb r "D"); lra.
Qed.

Lemma form_fold_invariant (l : list (nat * string)) (acc : R * R) :
  0 <= fst acc <= snd acc ->
  0 <= fst (fold_left form_score_step l acc)
    <= snd (fold_left form_score_step l acc) /\
  snd acc <= snd (fold_left form_score_step l acc) /\
  (l <> [] -> snd acc < snd (fold_left form_score_step l acc)).
Proof.
  revert acc. induction l as [| [i r] l IH]; intros acc Hacc; cbn [fold_left].
  - split; [exact Hacc |]. split; [lra |]. intros H. contradiction.
  - pose proof (form_weight_pos i) as Hw. pose proof (result_points_range r) as Hp.
    assert (Hstep : 0 <= fst (form_score_step acc (i, r))
                      <= snd (form_score_step acc (i, r))).
    { unfold form_score_step. cbn [fst snd]. nra. }
    assert (Hgrow : snd acc < snd (form_score_step acc (i, r))).
    { unfold form_score_step. cbn [fst snd]. lra. }
    destruct (IH _ Hstep) as (H1 & H2 & _).
    split; [exact H1 |]. split; [lra |]. intros _. lra.
Qed.

Lemma form_fold_all_wins (l : list (nat * string)) (acc : R * R) :
  Forall (fun ir => snd ir = "W") l -> fst acc = snd acc ->
  fst (fold_left form_score_step l acc) = snd (fold_left form_score_step l acc).
Proof.
  intros Hall. revert acc.
  induction Hall as [| [i r] l Hr _ IH]; intros acc Hacc; cbn [fold_left]; [exact Hacc |].
  apply IH. cbn [snd] in Hr. subst r.
  unfold form_score_step, result_points. cbn [fst snd String.eqb Ascii.eqb Bool.eqb].
  lra.
Qed.

Lemma form_fold_no_points (l : list (nat * string)) (acc : R * R) :
  Forall (fun ir => result_points (snd ir) = 0) l ->
  fst (fold_left form_score_step l acc) = fst acc.
Proof.
  intros Hall. revert acc.
  induction Hall as [| [i r] l Hr _ IH]; intros acc; cbn [fold_left]; [reflexivity |].
  rewrite IH. cbn [snd] in Hr. unfold form_score_step. cbn [fst snd]. rewrite Hr. lra.
Qed.

Lemma combine_snd_forall {A B : Type} (P : B -> Prop) (u : list A) (v : list B) :
  Forall P v -> Forall (fun ab => P (snd ab)) (combine u v).
Proof.
  intros Hv. revert u.
  induction Hv as [| b v Hb _ IH]; intros [| a u]; cbn [combine]; constructor; auto.
Qed.

Lemma round1_unit_percent (x : R) : 0 <= x <= 100 -> 0 <= Py.round x 1 <= 100.
Proof.
  intros [H0 H1]. split.
  - rewrite <- (round_zero 1). now apply round_mono.
  - apply Rle_trans with (Py.round 100 1); [now apply round_mono |].
    rewrite (round_eq 100 1 1000) by lra. lra.
Qed.

(** [_form_score] returns 50.0 for an empty form and otherwise a value
    in [0, 100] whatever the strings are: 100 when every result is
    ["W"], 0 when no result is ["W"] or ["D"] (any other string counts
    as a loss). *)
Theorem form_score_properties (form : list string) :
  0 <= _form_score form <= 100 /\
  _form_score [] = 50 /\
  (form <> [] -> Forall (fun r => r = "W") form -> _form_score form = 100) /\
  (form <> [] -> Forall (fun r => r <> "W" /\ r <> "D") form -> _form_score form = 0).
Proof.
  assert (Hlen : form <> [] -> combine (seq 0 (length form)) (rev form) <> []).
  { destruct form as [| r form]; [contradiction |]. intros _ Hc.
    apply (f_equal (@length _)) in Hc.
    rewrite length_combine, length_seq, length_rev, Nat.min_id in Hc.
    cbn in Hc. lia. }
  assert (Hinit : 0 <= fst (0.0, 0.0) <= snd (0.0, 0.0)) by (cbn; lra).
  destruct (form_fold_invariant (combine (seq 0 (length form)) (rev form))
              (0.0, 0.0) Hinit) as (Hinv & _ & Hpos).
  cbn [snd] in Hpos.
  repeat apply conj.
  - unfold _form_score. destruct (Req_dec_T _ 0) as [Hz | Hnz]; [lra |].
    set (acc := fold_left form_score_step _ _) in *.
    assert (Hp : 0 < snd acc) by lra.
    apply round1_unit_percent. split.
    + apply Rmult_le_pos; [| lra].
      apply Rmult_le_pos; [lra | left; now apply Rinv_0_lt_compat].
    + assert (Hq : fst acc / snd acc <= 1).
      { apply Rmult_le_reg_r with (snd acc); [exact Hp |].
        unfold Rdiv. rewrite Rmult_assoc, Rinv_l by lra. lra. }
      lra.
  - unfold _form_score. destruct (Req_dec_T _ 0) as [Hz | Hnz]; [lra |].
    set (acc := fold_left form_score_step _ _) in *.
    assert (Hp : 0 < snd acc) by lra.
    apply round1_unit_percent. split.
    + apply Rmult_le_pos; [| lra].
      apply Rmult_le_pos; [lra | left; now apply Rinv_0_lt_compat].
    + assert (Hq : fst acc / snd acc <= 1).
      { apply Rmult_le_reg_r with (snd acc); [exact Hp |].
        unfold Rdiv. rewrite Rmult_assoc, Rinv_l by lra. lra. }
      lra.
  - unfold _form_score. cbn [length seq rev combine fold_left snd].
    destruct (Req_dec_T 0.0 0); lra.
  - intros Hne Hall. specialize (Hpos (Hlen Hne)).
    unfold _form_score. destruct (Req_dec_T _ 0) as [Hz | Hnz]; [lra |].
    assert (Heq : fst (fold_left form_score_step
                         (combine (seq 0 (length form)) (rev form)) (0.0, 0.0))
                  = snd (fold_left form_score_step
                           (combine (seq 0 (length form)) (rev form)) (0.0, 0.0))).
    { apply form_fold_all_wins; [| reflexivity].
      apply (combine_snd_forall (fun r => r = "W")), Forall_rev, Hall. }
    rewrite Heq. unfold Rdiv. rewrite Rinv_r by exact Hnz.
    rewrite (round_eq _ 1 1000) by lra. lra.
  - intros Hne Hall. specialize (Hpos (Hlen Hne)).
    unfold _form_score. destruct (Req_dec_T _ 0) as [Hz | Hnz]; [lra |].
    rewrite form_fold_no_points.
    + cbn [fst]. unfold Rdiv. replace (0.0 * / _ * 100) with 0 by lra.
      apply round_zero.
    + apply (combine_snd_forall (fun r => result_points r = 0)), Forall_rev.
      eapply Forall_impl; [| exact Hall].
      intros r [HW HD]. unfold result_points.
      apply String.eqb_neq in HW, HD. now rewrite HW, HD.
Qed.

Lemma form_score_properties_witness : _form_score ["W"; "W"; "W"] = 100.
Proof.
  destruct (form_score_properties ["W"; "W"; "W"]) as (_ & _ & H & _).
  apply H; [discriminate | repeat constructor].
Defined.

End FormScore.

(** ** Injuries and match importance *)

Section TextFacts.

Variables lower strip : string -> string.

Lemma known_players_nonneg (team : string) :
  Forall (fun e : string * Py.Dict =>
            0 <= Py.get (snd e) "attack" 0.0 /\ 0 <= Py.get (snd e) "defense" 0.0)
         (known_players KEY_PLAYERS team) /\
  (length (known_players KEY_PLAYERS team) <= 3)%nat.
Proof.
  unfold KEY_PLAYERS. cbn [known_players].
  destruct (String.eqb "Manchester City" team);
    [| destruct (String.eqb "Liverpool" team);
       [| destruct (String.eqb "Real Madrid" team)]];
    (split; [repeat constructor; cbn; lra | cbn; lia]).
Qed.

Lemma match_players_forall (P : Py.Dict -> Prop) (known : list (string * Py.Dict))
    (injured : list string) :
  Forall (fun e => P (snd e)) known ->
  Forall P (_match_players lower known injured).
Proof.
  intros Hk. unfold _match_players.
  induction Hk as [| e known He _ IH]; cbn [filter map]; [constructor |].
  destruct (existsb _ _); cbn [map]; [constructor; assumption | assumption].
Qed.

Lemma match_players_length (known : list (string * Py.Dict)) (injured : list string) :
  (length (_match_players lower known injured) <= length known)%nat.
Proof.
  unfold _match_players. rewrite length_map.
  induction known as [| e known IH]; cbn [filter length]; [lia |].
  destruct (existsb _ _); cbn [length]; lia.
Qed.

Lemma match_players_nobody (known : list (string * Py.Dict)) :
  _match_players lower known [] = [].
Proof.
  unfold _match_players. cbn [filter map existsb].
  induction known as [| e known IH]; cbn [filter map]; [reflexivity | exact IH].
Qed.

Lemma penalty_fold_ge (k : string) (impacts : list Py.Dict) (start : R) :
  Forall (fun imp => 0 <= Py.get imp k 0.0) impacts ->
  start <= fold_left (fun pen imp => pen + Py.or_else (Py.get imp k 0.0) 0.0 * 1.2)
                     impacts start.
Proof.
  intros Hall. revert start.
  induction Hall as [| imp impacts Hi _ IH]; intros start; cbn [fold_left]; [lra |].
  apply Rle_trans with (start + Py.or_else (Py.get imp k 0.0) 0.0 * 1.2); [| apply IH].
  unfold Py.or_else. destruct (Req_dec_T _ 0); lra.
Qed.

Lemma filter_all_blank (l : list string) :
  Forall (fun p => strip p = "") l ->
  filter (fun p => nonempty (strip p)) l = [].
Proof.
  induction 1 as [| p l Hp _ IH]; cbn [filter]; [reflexivity |].
  now rewrite Hp.
Qed.

Lemma round3_values :
  Py.round 0.65 3 = 0.65 /\ Py.round 1 3 = 1 /\ Py.round 1.25 3 = 1.25.
Proof.
  repeat split.
  - rewrite (round_eq _ 3 650) by lra. lra.
  - rewrite (round_eq _ 3 1000) by lra. lra.
  - rewrite (round_eq _ 3 1250) by lra. lra.
Qed.

Lemma injury_factors_bounds (team : string) (inj sus : list string) (cap_a cap_d : R) :
  0 <= cap_a -> 0 <= cap_d ->
  0.65 <= attack (injury_factors lower strip team inj sus cap_a cap_d) <= 1 /\
  1 <= defense (injury_factors lower strip team inj sus cap_a cap_d)
    <= Py.round (1 + cap_d) 3 /\
  (matched (injury_factors lower strip team inj sus cap_a cap_d) <= 3)%nat.
Proof.
  intros Ha Hd. unfold injury_factors. cbn [attack defense matched].
  set (injured := filter (fun p => nonempty (strip p)) inj).
  set (suspended := filter (fun p => nonempty (strip p)) sus).
  set (impacts := _match_players lower (known_players KEY_PLAYERS team)
                                 (injured ++ suspended)%list).
  destruct (known_players_nonneg team) as [Hnn Hlen].
  assert (Hatt : Forall (fun imp => 0 <= Py.get imp "attack" 0.0) impacts).
  { apply (match_players_forall (fun imp => 0 <= Py.get imp "attack" 0.0)).
    eapply Forall_impl; [| exact Hnn]. intros e [H _]. exact H. }
  assert (Hdef : Forall (fun imp => 0 <= Py.get imp "defense" 0.0) impacts).
  { apply (match_players_forall (fun imp => 0 <= Py.get imp "defense" 0.0)).
    eapply Forall_impl; [| exact Hnn]. intros e [_ H]. exact H. }
  set (ga := match injured with [] => 0.0 | _ => 0.07 end
             + match suspended with [] => 0.0 | _ => 0.05 end).
  set (gd := match injured with [] => 0.0 | _ => 0.05 end
             + match suspended with [] => 0.0 | _ => 0.03 end).
  assert (Hga : 0 <= ga) by (unfold ga; destruct injured; destruct suspended; lra).
  assert (Hgd : 0 <= gd) by (unfold gd; destruct injured; destruct suspended; lra).
  pose proof (penalty_fold_ge "attack" impacts ga Hatt) as Pa.
  pose proof (penalty_fold_ge "defense" impacts gd Hdef) as Pd.
  set (pa := fold_left _ impacts ga) in *.
  set (pd := fold_left _ impacts gd) in *.
  destruct round3_values as (R65 & R1 & _).
  assert (Ma : 0 <= Rmin pa cap_a <= cap_a)
    by (unfold Rmin; destruct (Rle_dec pa cap_a); lra).
  assert (Md : 0 <= Rmin pd cap_d <= cap_d)
    by (unfold Rmin; destruct (Rle_dec pd cap_d); lra).
  assert (Fa : 0.65 <= Rmax 0.65 (1.0 - Rmin pa cap_a) <= 1)
    by (unfold Rmax; destruct (Rle_dec _ _); lra).
  repeat apply conj.
  - apply Rle_trans with (Py.round 0.65 3); [lra | apply round_mono; lra].
  - apply Rle_trans with (Py.round 1 3); [apply round_mono; lra | lra].
  - apply Rle_trans with (Py.round 1 3); [lra | apply round_mono; lra].
  - apply round_mono. lra.
  - unfold impacts.
    pose proof (match_players_length (known_players KEY_PLAYERS team)
                  (injured ++ suspended)%list). lia.
Qed.

Lemma injury_factors_nobody (team : string) (inj sus : list string) (cap_a cap_d : R) :
  0 <= cap_a -> 0 <= cap_d ->
  Forall (fun p => strip p = "") inj -> Forall (fun p => strip p = "") sus ->
  attack (injury_factors lower strip team inj sus cap_a cap_d) = 1 /\
  defense (injury_factors lower strip team inj sus cap_a cap_d) = 1 /\
  matched (injury_factors lower strip team inj sus cap_a cap_d) = 0%nat.
Proof.
  intros Ha Hd Hi Hs. unfold injury_factors. cbn [attack defense matched].
  rewrite (filter_all_blank inj Hi), (filter_all_blank sus Hs).
  cbn [app]. rewrite match_players_nobody. cbn [fold_left length].
  destruct round3_values as (_ & R1 & _).
  assert (Za : Rmin (0.0 + 0.0) cap_a = 0)
    by (unfold Rmin; destruct (Rle_dec _ _); lra).
  assert (Zd : Rmin (0.0 + 0.0) cap_d = 0)
    by (unfold Rmin; destruct (Rle_dec _ _); lra).
  rewrite Za, Zd.
  replace (Rmax 0.65 (1.0 - 0)) with 1
    by (unfold Rmax; destruct (Rle_dec _ _); lra).
  replace (1.0 + 0) with 1 by lra.
  rewrite R1. auto.
Qed.

(** For non-negative caps the attack factor of [injury_factors] lies in
    [0.65, 1] and the defense factor in [1, 1 + cap] (rounded to three
    decimals; at most 1.25 with the default cap), for every team and
    every list of names; at most three players are matched; and when
    no name survives the blank filter both factors are 1 and nobody is
    matched. *)
Theorem injury_factors_ranges (team : string) (inj sus : list string)
    (cap_a cap_d : R) :
  0 <= cap_a -> 0 <= cap_d ->
  let f := injury_factors lower strip team inj sus cap_a cap_d in
  0.65 <= attack f <= 1 /\
  1 <= defense f <= Py.round (1 + cap_d) 3 /\
  (cap_d = 0.25 -> defense f <= 1.25) /\
  (matched f <= 3)%nat /\
  (Forall (fun p => strip p = "") inj -> Forall (fun p => strip p = "") sus ->
   attack f = 1 /\ defense f = 1 /\ matched f = 0%nat).
Proof.
  intros Ha Hd f.
  destruct (injury_factors_bounds team inj sus cap_a cap_d Ha Hd) as (B1 & B2 & B3).
  fold f in B1, B2, B3.
  split; [exact B1 |]. split; [exact B2 |].
  split.
  - intros Hc. destruct round3_values as (_ & _ & R125).
    destruct B2 as [_ B2]. rewrite Hc in B2.
    replace (1 + 0.25) with 1.25 in B2 by lra. lra.
  - split; [exact B3 |]. intros Hi Hs.
    now apply injury_factors_nobody.
Qed.

(** The adjustments of one side in [analyze_match] (shot-quality
    blend, news, injuries with the default caps, fatigue) keep the
    rating and the form score, and after the blend they can only lower
    a non-negative scoring average, to no less than 0.5338944 of it,
    and only raise a non-negative conceding average, to no more than
    1.4870625 of it. *)
Theorem adjust_team_stats_ranges (stats : TeamStats) (xg : Py.Dict)
    (news : NewsInsight) (team : string) (inj sus : list string) (fatigue : R) :
  let blended := _apply_xg stats xg in
  let final := adjust_team_stats lower strip stats xg news team inj sus fatigue in
  elo final = elo stats /\
  form_score final = form_score stats /\
  (0 <= avg_goals_scored blended ->
   0.5338944 * avg_goals_scored blended <= avg_goals_scored final
     <= avg_goals_scored blended) /\
  (0 <= avg_goals_conceded blended ->
   avg_goals_conceded blended <= avg_goals_conceded final
     <= 1.4870625 * avg_goals_conceded blended).
Proof.
  intros blended final. unfold final, adjust_team_stats. fold blended.
  assert (Ha : 0 <= 0.35) by lra. assert (Hd : 0 <= 0.25) by lra.
  destruct (injury_factors_bounds team inj sus 0.35 0.25 Ha Hd) as (I1 & I2 & _).
  destruct round3_values as (_ & _ & R125).
  replace (1 + 0.25) with 1.25 in I2 by lra. rewrite R125 in I2.
  set (ih := injury_factors lower strip team inj sus 0.35 0.25) in *.
  assert (F1 : 0.92 <= fatigue_to_lambda_factor fatigue <= 1).
  { unfold fatigue_to_lambda_factor. pose proof (clamp_unit fatigue). lra. }
  assert (F2 : 1 <= fatigue_to_concede_factor fatigue <= 1.10).
  { unfold fatigue_to_concede_factor. pose proof (clamp_unit fatigue). lra. }
  set (fl := fatigue_to_lambda_factor fatigue) in *.
  set (fc := fatigue_to_concede_factor fatigue) in *.
  unfold apply_fatigue, apply_injuries. fold ih. fold fl. fold fc.
  cbn [scale_goals elo form_score avg_goals_scored avg_goals_conceded].
  assert (Hxg : elo blended = elo stats /\ form_score blended = form_score stats).
  { unfold blended, _apply_xg. destruct (Rle_dec 5 _); split; reflexivity. }
  destruct Hxg as [He Hf].
  unfold _apply_news_factors.
  set (s0 := avg_goals_scored blended). set (c0 := avg_goals_conceded blended).
  assert (Hnews :
    exists ks kc, 0.8928 <= ks <= 1 /\ 1 <= kc <= 1.0815 /\
      forall st, st = (if has_suspensions news
                       then scale_goals (if has_injuries news
                                         then scale_goals blended 0.93 1.05
                                         else blended) 0.96 1.03
                       else if has_injuries news
                            then scale_goals blended 0.93 1.05 else blended) ->
      elo st = elo blended /\ form_score st = form_score blended /\
      avg_goals_scored st = s0 * ks /\ avg_goals_conceded st = c0 * kc).
  { destruct (has_injuries news); destruct (has_suspensions news).
    - exists (0.93 * 0.96), (1.05 * 1.03). repeat split; try lra;
        subst st; cbn; unfold s0, c0; ring.
    - exists 0.93, 1.05. repeat split; try lra; subst st; cbn; reflexivity.
    - exists 0.96, 1.03. repeat split; try lra; subst st; cbn; reflexivity.
    - exists 1, 1. repeat split; try lra; subst st; unfold s0, c0; ring. }
  destruct Hnews as (ks & kc & Hks & Hkc & Hst).
  destruct (Hst _ eq_refl) as (E1 & E2 & E3 & E4).
  rewrite E1, E2, E3, E4, He, Hf.
  split; [reflexivity |]. split; [reflexivity |].
  split; intros H0.
  - assert (A1 : 0.8928 * s0 <= s0 * ks <= s0) by nra.
    assert (A2 : 0.65 * (s0 * ks) <= s0 * ks * attack ih <= s0 * ks) by nra.
    assert (A3 : 0.92 * (s0 * ks * attack ih) <= s0 * ks * attack ih * fl
                   <= s0 * ks * attack ih) by nra.
    lra.
  - assert (A1 : c0 <= c0 * kc <= 1.0815 * c0) by nra.
    assert (A2 : c0 * kc <= c0 * kc * defense ih <= 1.25 * (c0 * kc)) by nra.
    assert (A3 : c0 * kc * defense ih <= c0 * kc * defense ih * fc
                   <= 1.10 * (c0 * kc * defense ih)) by nra.
    lra.
Qed.

Lemma contains_keywords_false (kws : list string) (s : string) :
  existsb (fun kw => contains kw s) kws = false \/
  existsb (fun kw => contains kw s) kws = true.
Proof. destruct (existsb _ _); auto. Qed.

(** The importance factor always lies in [1.0, 2.0]: every multiplier
    exceeds 1, so the lower clamp at 0.5 never binds. Called with the
    competition name alone, as [analyze_match] does, it is 1.8 when the
    lower-cased name contains final, playoff or play-off, else 1.3 when
    it contains cup (or its Russian word), else 1.0; a final keyword
    takes precedence over a cup keyword. *)
Theorem match_importance_properties (competition : string)
    (match_week total_weeks position_home position_away : option Z) :
  let fin := existsb (fun kw => contains kw (lower competition))
                     ["final"; "playoff"; "play-off"] in
  let cup := existsb (fun kw => contains kw (lower competition)) ["cup"; "кубок"] in
  1.0 <= get_match_importance lower competition match_week total_weeks
           position_home position_away <= 2.0 /\
  get_match_importance lower competition None None None None
  = (if fin then 1.8 else if cup then 1.3 else 1.0) /\
  (fin = true -> get_match_importance lower competition None None None None = 1.8).
Proof.
  intros fin cup.
  assert (Hclamp : forall x, 1 <= x -> 1.0 <= Rmin (Rmax x 0.5) 2.0 <= 2.0).
  { intros x Hx. unfold Rmin, Rmax.
    destruct (Rle_dec x 0.5); destruct (Rle_dec _ 2.0); lra. }
  assert (Hid : forall x, 1 <= x <= 2 -> Rmin (Rmax x 0.5) 2.0 = x).
  { intros x Hx. unfold Rmin, Rmax.
    destruct (Rle_dec x 0.5); destruct (Rle_dec _ 2.0); lra. }
  assert (Hnone : get_match_importance lower competition None None None None
                  = (if fin then 1.8 else if cup then 1.3 else 1.0)).
  { unfold get_match_importance. fold fin. fold cup.
    destruct fin; [| destruct cup]; rewrite Hid; lra. }
  split; [| split; [exact Hnone | intros Hf; rewrite Hnone, Hf; reflexivity]].
  unfold get_match_importance. fold fin. fold cup.
  apply Hclamp.
  set (i1 := if fin then 1.0 * 1.8 else if cup then 1.0 * 1.3 else 1.0).
  assert (H1 : 1 <= i1) by (unfold i1; destruct fin; [| destruct cup]; lra).
  set (i2 := match match_week, total_weeks with
             | Some mw, Some tw =>
                 if truthy match_week && truthy total_weeks && (0 <? tw)%Z
                 then if (tw - mw <=? 4)%Z then i1 * 1.5
                      else if (tw - mw <=? 8)%Z then i1 * 1.2 else i1
                 else i1
             | _, _ => i1
             end).
  assert (H2 : 1 <= i2).
  { unfold i2. destruct match_week as [mw |]; destruct total_weeks as [tw |]; try lra.
    destruct (_ && _ && _); [| lra].
    destruct (_ <=? 4)%Z; [lra |]. destruct (_ <=? 8)%Z; lra. }
  destruct position_home as [ph |]; destruct position_away as [pa |]; try exact H2.
  destruct (truthy (Some ph) && truthy (Some pa)); [| exact H2].
  destruct ((Z.min ph pa <=? 4)%Z && (Z.max ph pa <=? 6)%Z);
    destruct (15 <=? Z.min ph pa)%Z; lra.
Qed.

End TextFacts.

Section TextExamples.

Lemma injury_factors_ranges_witness :
  attack (injury_factors (fun s => s) (fun s => s) "Liverpool" [] [] 0.35 0.25) = 1.
Proof.
  assert (Ha : 0 <= 0.35) by lra.
  assert (Hd : 0 <= 0.25) by lra.
  destruct (injury_factors_ranges (fun s => s) (fun s => s) "Liverpool" [] []
              0.35 0.25 Ha Hd) as (_ & _ & _ & _ & H).
  apply H; constructor.
Defined.

Lemma adjust_team_stats_ranges_witness :
  avg_goals_scored
    (adjust_team_stats (fun s => s) (fun s => s) default_team default_xg
       {| has_injuries := true; has_suspensions := false |} "Liverpool"
       ["Salah"] [] 0.5)
  <= avg_goals_scored (_apply_xg default_team default_xg).
Proof.
  destruct (adjust_team_stats_ranges (fun s => s) (fun s => s) default_team default_xg
              {| has_injuries := true; has_suspensions := false |} "Liverpool"
              ["Salah"] [] 0.5) as (_ & _ & H & _).
  apply H. unfold _apply_xg.
  destruct (Rle_dec 5 (Py.get default_xg "matches" 0)); cbn; lra.
Defined.

Lemma match_importance_properties_witness :
  get_match_importance (fun s => s) "cup final" None None None None = 1.8.
Proof.
  destruct (match_importance_properties (fun s => s) "cup final" None None None None)
    as (_ & _ & H).
  apply H. reflexivity.
Defined.

End TextExamples.

(** ** The estimator of the correction parameter *)

Section EstimateRho.

Lemma tau_high_score (x y : nat) (lh la rho : R) :
  (2 <= x)%nat \/ (2 <= y)%nat -> _tau x y lh la rho = 1.
Proof.
  intros H. unfold _tau.
  destruct x as [| [| x]]; destruct y as [| [| y]]; cbn [Nat.eqb andb];
    try lra; destruct H; lia.
Qed.

Lemma nll_loop_unit_tau (hist : list (option HistoricalMatch)) (rho total_ll : R) :
  Forall (skipped_or (fun m => match_tau rho m = 1)) hist ->
  nll_loop hist rho total_ll = total_ll.
Proof.
  intros Hall. revert total_ll.
  induction Hall as [| [m |] hist Hm _ IH]; intros total_ll; cbn [nll_loop];
    [reflexivity | | apply IH].
  cbn in Hm. unfold match_tau in Hm. rewrite Hm. destruct (Rle_dec 1 0); [lra |].
  rewrite IH, Rmax_left by lra. rewrite ln_1. lra.
Qed.

Lemma nll_loop_penalty (hist : list (option HistoricalMatch)) (rho total_ll : R) :
  Exists (read_match (fun m => match_tau rho m <= 0)) hist ->
  nll_loop hist rho total_ll = 1e9.
Proof.
  revert total_ll. induction hist as [| [m |] hist IH]; intros total_ll Hex.
  - inversion Hex.
  - cbn [nll_loop]. destruct (Rle_dec _ 0) as [Hle | Hgt]; [reflexivity |].
    apply IH. inversion Hex; subst; [contradiction | assumption].
  - cbn [nll_loop]. apply IH. inversion Hex; subst; [contradiction | assumption].
Qed.

Lemma nll_loop_terms (hist : list (option HistoricalMatch)) (rho total_ll : R) :
  Forall (skipped_or (fun m => 0 < match_tau rho m)) hist ->
  nll_loop hist rho total_ll = total_ll + Np.sum (map (nll_term rho) hist).
Proof.
  intros Hall. revert total_ll.
  induction Hall as [| [m |] hist Hm _ IH]; intros total_ll;
    cbn [nll_loop map]; rewrite ?sum_cons, ?sum_nil.
  - lra.
  - cbn in Hm. unfold match_tau in Hm.
    destruct (Rle_dec _ 0); [lra |].
    rewrite IH. unfold nll_term, match_tau. lra.
  - rewrite IH. cbn [nll_term]. lra.
Qed.

Lemma moderate_tau_pos (m : HistoricalMatch) (rho : R) :
  -0.5 <= rho <= 0 -> moderate_rates m -> 0 < match_tau rho m.
Proof.
  intros Hrho [Hh Ha]. unfold match_tau, _tau.
  assert (Hp : 0 <= hist_lambda_h m * hist_lambda_a m * (- rho)).
  { apply Rmult_le_pos; [apply Rmult_le_pos |]; lra. }
  repeat match goal with |- context [if ?b then _ else _] => destruct b end;
    nra.
Qed.

(** [estimate_rho] falls back to -0.13 for fewer than 50 listed
    matches whatever the optimizer, and when SciPy is missing;
    otherwise it returns the optimizer's value exactly when the
    optimizer reports success. The likelihood it minimizes is 0 at
    [rho = 0]; it is 0 for every [rho] on a history in which every
    match that is read has two goals or more on one side; and it is
    the penalty 1e9 as soon as one match that is read has a factor
    that is not positive; and when every match that is read has both
    rates in [0, 2) it is, for every [rho] of the interval [-0.5, 0]
    that is searched, the sum of [- ln (max tau 1e-10)] over the
    matches that are read, never the penalty. *)
Theorem estimate_rho_properties (hist : list (option HistoricalMatch)) :
  (forall opt, (length hist < 50)%nat -> estimate_rho hist opt = -0.13) /\
  estimate_rho hist None = -0.13 /\
  (forall minimize,
      (50 <= length hist)%nat ->
      estimate_rho hist (Some minimize)
      = if snd (minimize (neg_log_likelihood hist) (-0.5) 0.0)
        then fst (minimize (neg_log_likelihood hist) (-0.5) 0.0)
        else -0.13) /\
  neg_log_likelihood hist 0 = 0 /\
  (Forall (skipped_or high_scoring) hist ->
   forall rho, neg_log_likelihood hist rho = 0) /\
  (forall rho,
      Exists (read_match (fun m => match_tau rho m <= 0)) hist ->
      neg_log_likelihood hist rho = 1e9) /\
  (forall rho,
      -0.5 <= rho <= 0 ->
      Forall (skipped_or moderate_rates) hist ->
      neg_log_likelihood hist rho = Np.sum (map (nll_term rho) hist)).
Proof.
  repeat apply conj.
  - intros opt Hlen. unfold estimate_rho.
    apply Nat.ltb_lt in Hlen. now rewrite Hlen.
  - unfold estimate_rho. destruct (_ <? _)%nat; reflexivity.
  - intros minimize Hlen. unfold estimate_rho.
    destruct (Nat.ltb_spec (length hist) 50); [lia | reflexivity].
  - unfold neg_log_likelihood. rewrite nll_loop_unit_tau; [lra |].
    apply Forall_forall. intros [m |] _; cbn; [apply tau_rho_zero | exact I].
  - intros Hall rho. unfold neg_log_likelihood. rewrite nll_loop_unit_tau; [lra |].
    eapply Forall_impl; [| exact Hall]. intros [m |] Hm; cbn; [| exact I].
    now apply tau_high_score.
  - intros rho Hex. unfold neg_log_likelihood. now apply nll_loop_penalty.
  - intros rho Hrho Hall. unfold neg_log_likelihood. rewrite nll_loop_terms; [lra |].
    eapply Forall_impl; [| exact Hall]. intros [m |] Hm; cbn; [| exact I].
    now apply moderate_tau_pos.
Qed.

Lemma estimate_rho_properties_witness :
  estimate_rho [] (Some (fun _ _ _ => (-0.3, true))) = -0.13 /\
  neg_log_likelihood
    [Some {| hist_home_goals := 0; hist_away_goals := 1;
             hist_lambda_h := 1.5; hist_lambda_a := 1.2 |}; None] (-0.13)
  = Np.sum (map (nll_term (-0.13))
      [Some {| hist_home_goals := 0; hist_away_goals := 1;
               hist_lambda_h := 1.5; hist_lambda_a := 1.2 |}; None]).
Proof.
  split.
  - destruct (estimate_rho_properties []) as (H & _).
    apply H. cbn. lia.
  - destruct (estimate_rho_properties
      [Some {| hist_home_goals := 0; hist_away_goals := 1;
               hist_lambda_h := 1.5; hist_lambda_a := 1.2 |}; None])
      as (_ & _ & _ & _ & _ & _ & H).
    apply H; [lra |].
    constructor; [| constructor; [exact I | constructor]].
    unfold skipped_or, moderate_rates. cbn. lra.
Defined.

End EstimateRho.
